(** * ScoutVision AI: the in-memory analytical engine

    A shallow embedding of the statistical core of the repository:
    - [PlayerService]     (the player service: extraction, queries, bounds,
                           z-score, percentile, rank, cohorts),
    - [ScoringUtils]      (src/utils/scoringUtils.ts: role scoring and
                           ranking),
    - [SimilarityService] (src/services/similarityService.ts: similarity
                           search, replacements),
    - [AnalyticsService]  (src/services/analyticsService.ts: k-means,
                           percentile analysis),
    - [DataStore]         (src/services/dataStore.ts: state and cache),
    followed by the properties proved of them.

    Numbers.  An ECMAScript number is modelled as an exact rational
    ([Q]): the rounding error of IEEE doubles and the sign of zero are not
    represented.  Where the code can leave the finite numbers (a division
    by zero, the square root of a negative number) the four-point
    extension [JS.number] is used, so that [NaN] and the infinities show up
    where the source produces them.  [Math.sqrt], the conversion of a
    string to a number and the random shuffle are primitives of the host:
    they are the fields of the class [JS.Runtime], and a statement that
    depends on a law of the square root says which.  The comparison of
    strings in a locale, the lower case of a string and the printing of a
    number are the fields of the class [JS.Locale].

    Objects.  A row of a table is a finite map from column names to
    values; strings are byte strings, ordered byte by byte. *)

From Stdlib Require Import QArith Qround Qminmax Qabs Lqa ZArith Lia Ascii String.
From stdpp Require Import gmap strings list sorting.

Open Scope Q_scope.

(** * ECMAScript primitives *)

Module JS.

(** A number: finite, or one of the three special values. *)
Inductive number : Type :=
  | Fin (q : Q)
  | NaN
  | PInf
  | NInf.

(** A property value of a row object ([string | number]); a missing
    property ([undefined]) is a failed lookup in the map. Numeric
    properties are finite: the CSV parser keeps a parsed number only if
    it is neither [NaN] nor infinite. *)
Inductive value : Type :=
  | VStr (s : string)
  | VNum (q : Q).

Class Runtime : Type := {
  (** [Math.sqrt] on the non-negative finite numbers. *)
  sqrtQ : Q -> Q;
  (** [Number(s)] for a string [s]; [None] is [NaN] (strings that denote
      an infinity are not modelled). *)
  StringToNumber : string -> option Q;
  (** [arr.sort(() => Math.random() - 0.5)]: some rearrangement. *)
  shuffle : forall A : Type, list A -> list A
}.

Definition Qltb (a b : Q) : bool := negb (Qle_bool b a).

Definition sum (l : list Q) : Q := foldl Qplus 0 l.

(** [Number(v)], [None] standing for [NaN]. *)
Definition Number `{Runtime} (v : option value) : option Q :=
  match v with
  | None => None
  | Some (VNum q) => Some q
  | Some (VStr s) => StringToNumber s
  end.

(** [Number(v) || 0]: [NaN] and [0] are falsy. *)
Definition Number_or0 `{Runtime} (v : option value) : Q :=
  default 0 (Number v).

(** [typeof v === 'number'] *)
Definition is_number (v : option value) : bool :=
  match v with Some (VNum _) => true | _ => false end.

(** A property that the interface types as a string ([Player], [Team],
    [Position], [League]); [None] when it is absent. *)
Definition as_string (v : option value) : option string :=
  match v with Some (VStr s) => Some s | _ => None end.

(** [Math.round]: to the nearest integer, halves towards plus infinity. *)
Definition Math_round (x : Q) : Z := Qfloor (x + (1 # 2)).

(** [Number(x.toFixed(digits))]: nearest multiple of [10^-digits], a tie
    going away from zero. *)
Definition toFixed (digits : nat) (x : Q) : Q :=
  let scale := inject_Z (10 ^ Z.of_nat digits) in
  if Qle_bool 0 x
  then inject_Z (Qfloor (x * scale + (1 # 2))) / scale
  else - (inject_Z (Qfloor ((- x) * scale + (1 # 2))) / scale).

(** ** Arithmetic that can leave the finite numbers *)

Definition sign_inf (positive : bool) : number :=
  if positive then PInf else NInf.

Definition neg (x : number) : number :=
  match x with
  | Fin q => Fin (- q)
  | NaN => NaN
  | PInf => NInf
  | NInf => PInf
  end.

Definition add (x y : number) : number :=
  match x, y with
  | NaN, _ | _, NaN => NaN
  | Fin a, Fin b => Fin (a + b)
  | PInf, NInf | NInf, PInf => NaN
  | PInf, _ | _, PInf => PInf
  | NInf, _ | _, NInf => NInf
  end.

Definition sub (x y : number) : number := add x (neg y).

Definition mul (x y : number) : number :=
  match x, y with
  | NaN, _ | _, NaN => NaN
  | Fin a, Fin b => Fin (a * b)
  | Fin a, PInf | PInf, Fin a =>
      if Qeq_bool a 0 then NaN else sign_inf (Qltb 0 a)
  | Fin a, NInf | NInf, Fin a =>
      if Qeq_bool a 0 then NaN else sign_inf (Qltb a 0)
  | PInf, PInf | NInf, NInf => PInf
  | PInf, NInf | NInf, PInf => NInf
  end.

(** A zero divisor is the positive zero. *)
Definition div (x y : number) : number :=
  match x, y with
  | NaN, _ | _, NaN => NaN
  | Fin a, Fin b =>
      if Qeq_bool b 0
      then (if Qeq_bool a 0 then NaN else sign_inf (Qltb 0 a))
      else Fin (a / b)
  | Fin _, (PInf | NInf) => Fin 0
  | PInf, Fin b => sign_inf (Qle_bool 0 b)
  | NInf, Fin b => sign_inf (Qltb b 0)
  | (PInf | NInf), (PInf | NInf) => NaN
  end.

(** [x === y] on numbers ([NaN] differs from itself). *)
Definition eqb (x y : number) : bool :=
  match x, y with
  | Fin a, Fin b => Qeq_bool a b
  | PInf, PInf | NInf, NInf => true
  | _, _ => false
  end.

Definition Math_sqrt `{Runtime} (x : Q) : number :=
  if Qltb x 0 then NaN else Fin (sqrtQ x).

Definition Math_round_n (x : number) : number :=
  match x with
  | Fin q => Fin (inject_Z (Math_round q))
  | _ => x
  end.

(** [Math.max(0, x)] *)
Definition Math_max0 (x : number) : number :=
  match x with
  | Fin q => Fin (Qmax 0 q)
  | NaN => NaN
  | PInf => PInf
  | NInf => Fin 0
  end.

Definition toFixed_n (digits : nat) (x : number) : number :=
  match x with
  | Fin q => Fin (toFixed digits q)
  | _ => x
  end.

(** ** Arrays *)

(** [Array.prototype.sort(cmp)]: a stable sort; [a] stays before [b]
    unless [cmp(a, b) > 0] ([NaN] counts as zero). *)
Definition keeps_order {A} (cmp : A -> A -> number) (a b : A) : bool :=
  match cmp a b with
  | Fin q => Qle_bool q 0
  | NaN => true
  | PInf => false
  | NInf => true
  end.

Fixpoint sort_insert {A} (cmp : A -> A -> number) (x : A) (l : list A)
  : list A :=
  match l with
  | [] => [x]
  | y :: l' =>
      if keeps_order cmp x y then x :: y :: l'
      else y :: sort_insert cmp x l'
  end.

Fixpoint Array_sort {A} (cmp : A -> A -> number) (l : list A) : list A :=
  match l with
  | [] => []
  | x :: l' => sort_insert cmp x (Array_sort cmp l')
  end.

(** The comparator of [sort()] without argument, on strings. *)
Definition string_cmp (a b : string) : number :=
  match String.compare a b with
  | Lt => Fin (-1)
  | Eq => Fin 0
  | Gt => Fin 1
  end.

(** [arr.slice(0, k)] for an integer [k]: a negative [k] counts from the
    end. *)
Definition slice0 {A} (k : Z) (l : list A) : list A :=
  if (k <? 0)%Z
  then take (Z.to_nat (Z.of_nat (length l) + k)) l
  else take (Z.to_nat k) l.

(** [arr.filter((x, i) => f(i, x))] *)
Fixpoint filteri_from {A} (f : nat -> A -> bool) (i : nat) (l : list A)
  : list A :=
  match l with
  | [] => []
  | x :: l' =>
      if f i x then x :: filteri_from f (S i) l' else filteri_from f (S i) l'
  end.

Definition filteri {A} (f : nat -> A -> bool) (l : list A) : list A :=
  filteri_from f 0 l.

(** [Array.from(new Set(l))]: first occurrences, in insertion order. *)
Definition Set_from `{EqDecision A} (l : list A) : list A :=
  foldl (fun acc x => if decide (x ∈ acc) then acc else acc ++ [x]) [] l.

(** [s.trim()], on ASCII white space. *)
Definition is_space (c : ascii) : bool :=
  match c with
  | " "%char | "009"%char | "010"%char | "011"%char | "012"%char
  | "013"%char => true
  | _ => false
  end.

Fixpoint trim_start (s : string) : string :=
  match s with
  | String c s' => if is_space c then trim_start s' else s
  | EmptyString => EmptyString
  end.

Fixpoint trim_end (s : string) : string :=
  match s with
  | String c s' =>
      match trim_end s' with
      | EmptyString => if is_space c then EmptyString else String c EmptyString
      | t => String c t
      end
  | EmptyString => EmptyString
  end.

Definition trim (s : string) : string := trim_end (trim_start s).

(** [s.split(sep)] for a one-character separator. *)
Fixpoint split (sep : ascii) (s : string) : list string :=
  match s with
  | EmptyString => [EmptyString]
  | String c s' =>
      if Ascii.eqb c sep then EmptyString :: split sep s'
      else match split sep s' with
           | t :: ts => String c t :: ts
           | [] => [String c EmptyString]
           end
  end.

(** [x < y] on numbers: false as soon as one side is [NaN]. *)
Definition ltb (x y : number) : bool :=
  match x, y with
  | NaN, _ | _, NaN => false
  | Fin a, Fin b => Qltb a b
  | NInf, (Fin _ | PInf) => true
  | Fin _, PInf => true
  | _, _ => false
  end.

(** [Math.sqrt] of a number that may already be special. *)
Definition Math_sqrt_n `{Runtime} (x : number) : number :=
  match x with
  | Fin q => Math_sqrt q
  | PInf => PInf
  | _ => NaN
  end.

(** [Math.max(...xs, y)] *)
Definition Math_max_with (xs : list Q) (y : Q) : Q := foldr Qmax y xs.

(** [a === b] on property values ([undefined] is [None]). *)
Definition strict_eq (a b : option value) : bool :=
  match a, b with
  | None, None => true
  | Some (VStr s), Some (VStr t) => String.eqb s t
  | Some (VNum x), Some (VNum y) => Qeq_bool x y
  | _, _ => false
  end.

(** [x || d] on finite numbers: zero is falsy. *)
Definition or_else (x d : Q) : Q := if Qeq_bool x 0 then d else x.

(** [arr.slice(start, end)] for integers: a negative index counts from
    the end, and both ends are clamped to the array. *)
Definition slice_index (len i : Z) : Z :=
  if (i <? 0)%Z then Z.max (len + i) 0 else Z.min i len.

Definition slice {A} (start stop : Z) (l : list A) : list A :=
  let len := Z.of_nat (length l) in
  let first := slice_index len start in
  let final := slice_index len stop in
  take (Z.to_nat (final - first)) (drop (Z.to_nat first) l).

(** [arr.indexOf(x)] on numbers: the first position that holds [x], or
    -1. *)
Fixpoint indexOf (x : Q) (l : list Q) : Z :=
  match l with
  | [] => -1
  | y :: l' =>
      if Qeq_bool y x then 0%Z
      else let i := indexOf x l' in
           if (i <? 0)%Z then (-1)%Z else (i + 1)%Z
  end.

(** [arr.findIndex(f)]: the first position whose item satisfies [f], or
    -1. *)
Fixpoint findIndex {A} (f : A -> bool) (l : list A) : Z :=
  match l with
  | [] => -1
  | y :: l' =>
      if f y then 0%Z
      else let i := findIndex f l' in
           if (i <? 0)%Z then (-1)%Z else (i + 1)%Z
  end.

(** [Math.ceil] of a number that may be special. *)
Definition Math_ceil_n (x : number) : number :=
  match x with
  | Fin q => Fin (inject_Z (Qceiling q))
  | _ => x
  end.

(** [s.includes(part)] on strings. *)
Fixpoint String_includes (part s : string) : bool :=
  String.prefix part s
  || match s with
     | EmptyString => false
     | String _ s' => String_includes part s'
     end.

(** The string operations that depend on the locale and on the printing
    of numbers. *)
Class Locale : Type := {
  (** [a.localeCompare(b)]: negative, zero or positive. *)
  localeCompare : string -> string -> Q;
  (** [s.toLowerCase()] *)
  toLowerCase : string -> string;
  (** [String(x)] for a number [x]. *)
  Number_toString : Q -> string
}.

(** [String(v)] for a property value. *)
Definition String_of `{Locale} (v : value) : string :=
  match v with
  | VStr s => s
  | VNum q => Number_toString q
  end.

(** The members of [Object.prototype]: a table written as an object
    literal answers to these names too, with a function (or, for
    [__proto__], the prototype object). *)
Definition Object_prototype_keys : list string :=
  ["constructor"; "__defineGetter__"; "__defineSetter__"; "hasOwnProperty";
   "__lookupGetter__"; "__lookupSetter__"; "isPrototypeOf";
   "propertyIsEnumerable"; "toString"; "valueOf"; "__proto__";
   "toLocaleString"]%string.

(** [Math.min(x, y)] on numbers. *)
Definition Math_min_n (x y : number) : number :=
  match x, y with
  | NaN, _ | _, NaN => NaN
  | NInf, _ | _, NInf => NInf
  | PInf, other | other, PInf => other
  | Fin a, Fin b => Fin (Qmin a b)
  end.

End JS.

(** * The player service: extraction and statistical utilities *)

Module PlayerService.
Import JS.

(** A row of the player table: an object indexed by column name. *)
Abbreviation PlayerData := (gmap string value).

Record MetricBounds : Type := {
  min : Q;
  max : Q;
  mean : Q;
  stdDev : Q
}.

#[export] Instance MetricBounds_inhabited : Inhabited MetricBounds :=
  populate {| min := 0; max := 1; mean := 0; stdDev := 1 |}.

Definition EXCLUDED_METRIC_KEYS : list string :=
  ["Player"; "Team"; "Team within selected timeframe"; "Position";
   "Birth country"; "Passport country"; "Foot"; "On loan"; "League";
   "Contract expires"; "Main Position"; "Index"]%string.

Definition PROFILE_KEYS : list string :=
  ["Age"; "Market value"; "Height"; "Weight";
   "Matches played"; "Minutes played"]%string.

Definition includes (l : list string) (key : string) : bool :=
  bool_decide (key ∈ l).

(** [Object.keys(o)]; the only use sorts the keys afterwards. *)
Definition Object_keys (o : PlayerData) : list string :=
  (map_to_list o).*1.

Definition extractNumericMetricKeys (data : list PlayerData) : list string :=
  match data with
  | [] => []
  | sample :: _ =>
      Array_sort string_cmp
        (List.filter
           (fun key =>
              is_number (sample !! key)
              && negb (includes EXCLUDED_METRIC_KEYS key)
              && negb (includes PROFILE_KEYS key))
           (Object_keys sample))
  end.

(** [.filter(Boolean)] on optional strings: drops [undefined] and [""]. *)
Definition truthy_string (s : string) : bool :=
  negb (String.eqb s "").

Definition extractLeagues (data : list PlayerData) : list string :=
  Array_sort string_cmp
    (Set_from
       (List.filter truthy_string
          (omap (fun p : PlayerData => as_string (p !! "League"%string)) data))).

Definition extractTeams (data : list PlayerData) : list string :=
  Array_sort string_cmp
    (Set_from
       (List.filter truthy_string
          (omap (fun p : PlayerData => as_string (p !! "Team"%string)) data))).

Definition extractPositions (data : list PlayerData) : list string :=
  Array_sort string_cmp
    (Set_from
       (flat_map
          (fun p : PlayerData =>
             match as_string (p !! "Position"%string) with
             | Some pos =>
                 if truthy_string pos then List.map trim (split "," pos)
                 else []
             | None => []
             end)
          data)).

Section WithRuntime.
Context `{Runtime}.

Definition calculateMetricBounds (data : list PlayerData) (metricKey : string)
  : MetricBounds :=
  let values := omap (fun p : PlayerData => Number (p !! metricKey)) data in
  match values with
  | [] => {| min := 0; max := 1; mean := 0; stdDev := 1 |}
  | v :: vs =>
      (* Math.min(...values) and Math.max(...values), values not empty *)
      let min := foldl Qmin v vs in
      let max := foldl Qmax v vs in
      let n := inject_Z (Z.of_nat (length values)) in
      let mean := sum values / n in
      let squaredDiffs := List.map (fun v => (v - mean) ^ 2) values in
      let variance := sum squaredDiffs / n in
      let stdDev :=
        (* Math.sqrt(variance) || 1: zero and NaN are falsy *)
        match Math_sqrt variance with
        | Fin s => if Qeq_bool s 0 then 1 else s
        | _ => 1
        end in
      {| min := min;
         max := if Qeq_bool max min then min + 1 else max;
         mean := mean;
         stdDev := stdDev |}
  end.

Definition calculateAllMetricBounds (data : list PlayerData)
  : gmap string MetricBounds :=
  foldl (fun bounds key => <[key := calculateMetricBounds data key]> bounds)
        ∅ (extractNumericMetricKeys data).

End WithRuntime.

Definition normalizeValue (value : Q) (bounds : MetricBounds) : Q :=
  let range := bounds.(max) - bounds.(min) in
  if Qeq_bool range 0 then 1 # 2
  else Qmax 0 (Qmin 1 ((value - bounds.(min)) / range)).

Definition calculateZScore (value : Q) (bounds : MetricBounds) : Q :=
  if Qeq_bool bounds.(stdDev) 0 then 0
  else (value - bounds.(mean)) / bounds.(stdDev).

Definition calculatePercentile (value : Q) (allValues : list Q) : Z :=
  match allValues with
  | [] => 50
  | _ =>
      let sorted := Array_sort (fun a b => Fin (a - b)) allValues in
      let countBelow := length (List.filter (fun v => Qltb v value) sorted) in
      let countEqual :=
        length (List.filter (fun v => Qeq_bool v value) sorted) in
      let percentile :=
        (inject_Z (Z.of_nat countBelow)
         + (1 # 2) * inject_Z (Z.of_nat countEqual))
        / inject_Z (Z.of_nat (length sorted)) * 100 in
      Math_round (Qmax 0 (Qmin 100 percentile))
  end.

(** ** Filtering, sorting and pagination *)

(** [p.Position?.split(',').map(s => s.trim()) || []] *)
Definition playerPositions (p : PlayerData) : list string :=
  match as_string (p !! "Position"%string) with
  | Some pos => List.map trim (split "," pos)
  | None => []
  end.

(** A criterion left out is [None]. *)
Module PlayerFilters.
Record t : Type := {
  search : option string;
  team : option string;
  league : option string;
  position : option string;
  nationality : option string;
  ageMin : option Q;
  ageMax : option Q;
  marketValueMin : option Q;
  marketValueMax : option Q;
  minutesMin : option Q;
  season : option string
}.
End PlayerFilters.

Inductive SortDirection : Type := asc | desc.

Module SortOptions.
Record t : Type := {
  field : string;
  direction : SortDirection
}.
End SortOptions.

(** [page] and [pageSize] are integers. *)
Module PaginationOptions.
Record t : Type := {
  page : Z;
  pageSize : Z
}.
End PaginationOptions.

Module PaginatedResult.
Record t : Type := {
  data : list PlayerData;
  total : nat;
  page : Z;
  pageSize : Z;
  totalPages : number
}.
End PaginatedResult.

(** [if (s)] for an optional string: [undefined] and [""] are falsy. *)
Definition given (s : option string) : option string :=
  match s with
  | Some text => if truthy_string text then Some text else None
  | None => None
  end.

(** [a || b] on property values: [undefined], [""] and [0] are falsy. *)
Definition value_or (a b : option value) : option value :=
  match a with
  | Some (VStr s) => if truthy_string s then a else b
  | Some (VNum q) => if Qeq_bool q 0 then b else a
  | None => b
  end.

Section WithLocale.
Context `{Runtime} `{Locale}.

(** [p[column]?.toLowerCase().includes(searchLower)] *)
Definition column_matches (p : PlayerData) (column searchLower : string)
  : bool :=
  match as_string (p !! column) with
  | Some s => String_includes searchLower (toLowerCase s)
  | None => false
  end.

Definition filterPlayers (data : list PlayerData) (filters : PlayerFilters.t)
  : list PlayerData :=
  List.filter
    (fun player : PlayerData =>
       let age := Number_or0 (player !! "Age"%string) in
       let marketValue := Number_or0 (player !! "Market value"%string) in
       let minutes := Number_or0 (player !! "Minutes played"%string) in
       let below (x : Q) (bound : option Q) :=
         match bound with Some b => Qltb x b | None => false end in
       let above (x : Q) (bound : option Q) :=
         match bound with Some b => Qltb b x | None => false end in
       if match given filters.(PlayerFilters.search) with
          | Some search =>
              let searchLower := toLowerCase search in
              negb (column_matches player "Player" searchLower
                    || column_matches player "Team" searchLower
                    || column_matches player "Position" searchLower)
          | None => false
          end
       then false
       else if match given filters.(PlayerFilters.team) with
               | Some team =>
                   negb (strict_eq (player !! "Team"%string)
                                   (Some (VStr team)))
               | None => false
               end
       then false
       else if match given filters.(PlayerFilters.league) with
               | Some league =>
                   negb match as_string (player !! "League"%string) with
                        | Some s => String_includes league s
                        | None => false
                        end
               | None => false
               end
       then false
       else if match given filters.(PlayerFilters.position) with
               | Some position =>
                   negb (bool_decide (position ∈ playerPositions player))
               | None => false
               end
       then false
       else if match given filters.(PlayerFilters.nationality) with
               | Some nationality =>
                   let country :=
                     value_or (player !! "Passport country"%string)
                              (player !! "Birth country"%string) in
                   negb (strict_eq country (Some (VStr nationality)))
               | None => false
               end
       then false
       else if below age filters.(PlayerFilters.ageMin) then false
       else if above age filters.(PlayerFilters.ageMax) then false
       else if below marketValue filters.(PlayerFilters.marketValueMin)
       then false
       else if above marketValue filters.(PlayerFilters.marketValueMax)
       then false
       else if below minutes filters.(PlayerFilters.minutesMin) then false
       else if match given filters.(PlayerFilters.season) with
               | Some season =>
                   negb (String.eqb season "All")
                   && negb (String_includes season
                              (default ""%string
                                 (as_string (player !! "League"%string))))
               | None => false
               end
       then false
       else true)
    data.

Definition sortPlayers (data : list PlayerData) (options : SortOptions.t)
  : list PlayerData :=
  Array_sort
    (fun a b : PlayerData =>
       match a !! options.(SortOptions.field),
             b !! options.(SortOptions.field) with
       | None, _ => Fin 1
       | Some _, None => Fin (-1)
       | Some valA, Some valB =>
           let comparison :=
             match valA, valB with
             | VNum x, VNum y => x - y
             | _, _ => localeCompare (String_of valA) (String_of valB)
             end in
           match options.(SortOptions.direction) with
           | desc => Fin (- comparison)
           | asc => Fin comparison
           end
       end)
    data.

Definition paginatePlayers (data : list PlayerData)
    (options : PaginationOptions.t) : PaginatedResult.t :=
  let page := options.(PaginationOptions.page) in
  let pageSize := options.(PaginationOptions.pageSize) in
  let total := length data in
  let totalPages :=
    Math_ceil_n (div (Fin (inject_Z (Z.of_nat total)))
                     (Fin (inject_Z pageSize))) in
  let startIndex := ((page - 1) * pageSize)%Z in
  let endIndex := (startIndex + pageSize)%Z in
  {| PaginatedResult.data := slice startIndex endIndex data;
     PaginatedResult.total := total;
     PaginatedResult.page := page;
     PaginatedResult.pageSize := pageSize;
     PaginatedResult.totalPages := totalPages |}.

(** Each of the three steps is skipped when its argument is left out. *)
Definition queryPlayers (data : list PlayerData)
    (filters : option PlayerFilters.t) (sort : option SortOptions.t)
    (pagination : option PaginationOptions.t) : PaginatedResult.t :=
  let filtered :=
    match filters with
    | Some f => filterPlayers data f
    | None => data
    end in
  let result :=
    match sort with
    | Some s => sortPlayers filtered s
    | None => filtered
    end in
  match pagination with
  | Some p => paginatePlayers result p
  | None =>
      {| PaginatedResult.data := result;
         PaginatedResult.total := length result;
         PaginatedResult.page := 1;
         PaginatedResult.pageSize := Z.of_nat (length result);
         PaginatedResult.totalPages := Fin 1 |}
  end.

End WithLocale.

(** ** Ranks and cohorts *)

Definition calculateRank (value : Q) (allValues : list Q)
    (higherIsBetter : bool) : Z :=
  let sorted :=
    Array_sort (fun a b => Fin (if higherIsBetter then b - a else a - b))
               allValues in
  (* [x || y]: zero is falsy *)
  let position := (indexOf value sorted + 1)%Z in
  if (position =? 0)%Z then Z.of_nat (length sorted) else position.

Inductive CohortMode : Type :=
  | all_players
  | by_position
  | by_team
  | by_league.

Definition createCohort (data : list PlayerData) (referencePlayer : PlayerData)
    (mode : CohortMode) : list PlayerData :=
  match mode with
  | by_position =>
      let positions := playerPositions referencePlayer in
      List.filter
        (fun p : PlayerData =>
           let pPositions := playerPositions p in
           existsb (fun pos => bool_decide (pos ∈ pPositions)) positions)
        data
  | by_team =>
      List.filter
        (fun p : PlayerData =>
           strict_eq (p !! "Team"%string) (referencePlayer !! "Team"%string))
        data
  | by_league =>
      List.filter
        (fun p : PlayerData =>
           strict_eq (p !! "League"%string)
                     (referencePlayer !! "League"%string))
        data
  | all_players => data
  end.

Section MoreWithRuntime.
Context `{Runtime}.

(** [metricKeys || extractNumericMetricKeys(cohort)]: an array, even
    empty, is truthy. *)
Definition calculatePlayerPercentiles (player : PlayerData)
    (cohort : list PlayerData) (metricKeys : option (list string))
  : gmap string Z :=
  let keys := default (extractNumericMetricKeys cohort) metricKeys in
  foldl (fun percentiles key =>
           let playerValue := Number_or0 (player !! key) in
           let cohortValues :=
             List.map (fun p : PlayerData => Number_or0 (p !! key)) cohort in
           <[key := calculatePercentile playerValue cohortValues]> percentiles)
        ∅ keys.

Definition calculateGroupAverages (players : list PlayerData)
  : gmap string Q :=
  match players with
  | [] => ∅
  | _ =>
      foldl (fun averages key =>
               let values :=
                 omap (fun p : PlayerData => Number (p !! key)) players in
               match values with
               | [] => averages
               | _ =>
                   <[key := sum values
                            / inject_Z (Z.of_nat (length values))]> averages
               end)
            ∅ (extractNumericMetricKeys players)
  end.

(** [MIN_MINUTES_THRESHOLD] is the default of [minMinutes]. *)
Definition MIN_MINUTES_THRESHOLD : Q := 450.

Definition filterByMinutes (data : list PlayerData) (minMinutes : Q)
  : list PlayerData :=
  List.filter
    (fun p : PlayerData =>
       Qle_bool minMinutes (Number_or0 (p !! "Minutes played"%string)))
    data.

End MoreWithRuntime.

End PlayerService.

(** * Role scoring (src/utils/scoringUtils.ts) *)

Module ScoringUtils.
Import JS PlayerService.

Inductive RoleCategory : Type := goalkeeper | defender | midfielder | attacker.

(** [metrics] keeps the order in which the object literal lists its
    entries: [Object.entries] enumerates them in that order. *)
Record RoleDefinition : Type := {
  name : string;
  category : RoleCategory;
  positions : list string;
  metrics : list (string * Q);
  description : string
}.

Record BreakdownEntry : Type := {
  metric : string;
  value : Q;
  weight : Q;
  contribution : Q
}.

Record RoleScoreResult : Type := {
  role : string;
  rawScore : Q;
  normalizedScore : Z;
  percentile : number;
  breakdown : list BreakdownEntry
}.

(** The first entry of the table [ROLE_DEFINITIONS]. *)
Definition Shot_Stopping_Goalkeeper : RoleDefinition := {|
  name := "Shot-Stopping Goalkeeper";
  category := goalkeeper;
  positions := ["GK"%string];
  metrics :=
    [("Save rate, %", 30 # 100);
     ("Prevented goals per 90", 25 # 100);
     ("Clean sheets", 15 # 100);
     ("Aerial duels won, %", 10 # 100);
     ("Conceded goals per 90", - (10 # 100));
     ("Shots against per 90", 5 # 100);
     ("xG against per 90", - (5 # 100))]%string;
  description := "Gardien spécialisé dans les arrêts réflexes"
|}.

Section WithRoles.
Context `{Runtime}.
(** The table of role definitions, by role name. *)
Variable ROLE_DEFINITIONS : gmap string RoleDefinition.

Definition calculateRoleScore (player : PlayerData) (role : string)
    (normalize : bool) (maxScores : option (gmap string Q)) : Q :=
  match ROLE_DEFINITIONS !! role with
  | None => 0
  | Some definition =>
      let '(score, totalWeight) :=
        foldl (fun '(score, totalWeight) '(metric, weight) =>
                 let value := Number_or0 (player !! metric) in
                 (score + value * weight, totalWeight + weight))
              (0, 0) definition.(metrics) in
      match (if normalize then maxScores ≫= (.!! role) else None) with
      | Some maxScore =>
          if Qltb 0 maxScore
          then inject_Z (Math_round (score / maxScore * 100))
          else toFixed 2 score
      | None => toFixed 2 score
      end
  end.

Definition calculateDetailedRoleScore (player : PlayerData) (role : string)
    (cohort : list PlayerData) : option RoleScoreResult :=
  match ROLE_DEFINITIONS !! role with
  | None => None
  | Some definition =>
      let '(rawScore, breakdown) :=
        foldl (fun '(rawScore, breakdown) '(metric, weight) =>
                 let value := Number_or0 (player !! metric) in
                 let contribution := value * weight in
                 (rawScore + contribution,
                  breakdown ++ [{| metric := metric;
                                   value := value;
                                   weight := weight;
                                   contribution := toFixed 3 contribution |}]))
              (0, []) definition.(metrics) in
      let cohortScores :=
        List.map (fun p => calculateRoleScore p role false None) cohort in
      let maxScore := Math_max_with cohortScores 1 in
      let normalizedScore := Math_round (rawScore / maxScore * 100) in
      let sortedScores := Array_sort (fun a b => Fin (a - b)) cohortScores in
      let rank :=
        length (List.filter (fun s => Qltb s rawScore) sortedScores) in
      let percentile :=
        Math_round_n
          (mul (div (Fin (inject_Z (Z.of_nat rank)))
                    (Fin (inject_Z (Z.of_nat (length cohortScores)))))
               (Fin 100)) in
      Some {| role := role;
              rawScore := toFixed 2 rawScore;
              normalizedScore := normalizedScore;
              percentile := percentile;
              breakdown :=
                Array_sort
                  (fun a b => Fin (b.(contribution) - a.(contribution)))
                  breakdown |}
  end.

(** [maxes[role]] for every role of the table. *)
Definition calculateMaxScores (data : list PlayerData) : gmap string Q :=
  map_imap
    (fun role _ =>
       let max :=
         foldl (fun max player =>
                  let score := calculateRoleScore player role false None in
                  if Qltb max score then score else max)
               0 data in
       Some (if Qltb 0 max then max else 1))
    ROLE_DEFINITIONS.

Definition filterPlayersByRole (data : list PlayerData) (role : string)
  : list PlayerData :=
  match ROLE_DEFINITIONS !! role with
  | None => data
  | Some definition =>
      List.filter
        (fun player : PlayerData =>
           existsb (fun pos => bool_decide (pos ∈ playerPositions player))
                   definition.(positions))
        data
  end.

(** A [ScoredPlayer] is a row with one more column, [roleScore]. *)
Definition roleScore (scored : PlayerData) : Q :=
  match scored !! "roleScore"%string with
  | Some (VNum score) => score
  | _ => 0
  end.

(** [limit ? sorted.slice(0, limit) : sorted]: a limit of zero is
    falsy. *)
Definition rankPlayersForRole (data : list PlayerData) (role : string)
    (limit : option Z) : list PlayerData :=
  match ROLE_DEFINITIONS !! role with
  | None => []
  | Some _ =>
      let compatiblePlayers := filterPlayersByRole data role in
      let maxScores := calculateMaxScores compatiblePlayers in
      let scored :=
        List.map
          (fun player : PlayerData =>
             <["roleScore"%string :=
                 VNum (calculateRoleScore player role true (Some maxScores))]>
               player)
          compatiblePlayers in
      let sorted :=
        Array_sort (fun a b => Fin (roleScore b - roleScore a)) scored in
      match limit with
      | Some n => if (n =? 0)%Z then sorted else slice0 n sorted
      | None => sorted
      end
  end.

End WithRoles.

End ScoringUtils.

(** * Similarity search (src/services/similarityService.ts) *)

Module SimilarityService.
Import JS PlayerService.

Definition METRIC_CATEGORY_WEIGHTS : gmap string Q :=
  list_to_map
    [("attacking", 1); ("defensive", 1); ("passing", 8 # 10);
     ("physical", 6 # 10); ("possession", 9 # 10)]%string.

Definition METRIC_CATEGORIES : gmap string string :=
  list_to_map
    [("xG", "attacking"); ("xG per 90", "attacking");
     ("Goals", "attacking"); ("Goals per 90", "attacking");
     ("Non-penalty goals per 90", "attacking");
     ("Shots per 90", "attacking"); ("Shots on target, %", "attacking");
     ("Touches in box per 90", "attacking");
     ("xA", "attacking"); ("xA per 90", "attacking");
     ("Assists", "attacking"); ("Key passes per 90", "attacking");
     ("Shot assists per 90", "attacking");
     ("Deep completions per 90", "attacking");
     ("Successful defensive actions per 90", "defensive");
     ("Defensive duels won, %", "defensive");
     ("Aerial duels won, %", "defensive");
     ("PAdj Interceptions", "defensive");
     ("PAdj Sliding tackles", "defensive");
     ("Shots blocked per 90", "defensive");
     ("Passes per 90", "passing"); ("Accurate passes, %", "passing");
     ("Progressive passes per 90", "passing");
     ("Passes to final third per 90", "passing");
     ("Accurate long passes, %", "passing");
     ("Accurate crosses, %", "passing");
     ("Dribbles per 90", "possession");
     ("Successful dribbles, %", "possession");
     ("Progressive runs per 90", "possession");
     ("Offensive duels won, %", "possession");
     ("Duels won, %", "physical"); ("Duels per 90", "physical")]%string.

Inductive Algorithm : Type := euclidean | cosine | manhattan | weighted.

(** Every option may be left out ([None]); the defaults are those of the
    destructuring in [findSimilarPlayers]. *)
Record SimilarityOptions : Type := {
  maxResults : option Z;
  samePositionOnly : option bool;
  excludeSameTeam : option bool;
  minMinutes : option Q;
  customWeights : option (gmap string Q);
  algorithm : option Algorithm
}.

Definition no_options : SimilarityOptions := {|
  maxResults := None; samePositionOnly := None; excludeSameTeam := None;
  minMinutes := None; customWeights := None; algorithm := None
|}.

Record SimilarityResult : Type := {
  player : PlayerData;
  score : number;
  distance : number;
  matchedMetrics : nat;
  breakdown : gmap string number
}.

(** [p.Position?.split(',').map(s => s.trim()) || []] *)
Definition position_list (p : PlayerData) : list string :=
  match as_string (p !! "Position"%string) with
  | Some pos => List.map trim (split "," pos)
  | None => []
  end.

(** [weights[key] || 1] *)
Definition weight_or1 (weights : gmap string Q) (key : string) : Q :=
  or_else (default 0 (weights !! key)) 1.

Section WithRuntime.
Context `{Runtime}.

(** The pair of normalised values of one metric; [bounds] holds an entry
    for every key of [metricKeys] at each call. *)
Definition normalised_pair (playerA playerB : PlayerData)
    (bounds : gmap string MetricBounds) (key : string) : Q * Q :=
  (normalizeValue (Number_or0 (playerA !! key)) (bounds !!! key),
   normalizeValue (Number_or0 (playerB !! key)) (bounds !!! key)).

(** The counter [count] of the source is never read. *)
Definition euclideanDistance (playerA playerB : PlayerData)
    (metricKeys : list string) (bounds : gmap string MetricBounds) : number :=
  let sumSquaredDiff :=
    foldl (fun sumSquaredDiff key =>
             let '(valA, valB) := normalised_pair playerA playerB bounds key in
             sumSquaredDiff + (valA - valB) ^ 2)
          0 metricKeys in
  Math_sqrt sumSquaredDiff.

Definition weightedEuclideanDistance (playerA playerB : PlayerData)
    (metricKeys : list string) (bounds : gmap string MetricBounds)
    (customWeights : gmap string Q) : number * gmap string number :=
  let '(sumWeightedSquaredDiff, totalWeight, breakdown) :=
    foldl (fun '(sumWeightedSquaredDiff, totalWeight, breakdown) key =>
             let '(valA, valB) := normalised_pair playerA playerB bounds key in
             let weight :=
               match METRIC_CATEGORIES !! key with
               | Some category =>
                   if truthy_string category
                      && Qeq_bool (default 0 (customWeights !! key)) 0
                   then or_else
                          (default 0 (METRIC_CATEGORY_WEIGHTS !! category)) 1
                   else weight_or1 customWeights key
               | None => weight_or1 customWeights key
               end in
             let diff := (valA - valB) ^ 2 * weight in
             (sumWeightedSquaredDiff + diff,
              totalWeight + weight,
              <[key := toFixed_n 3 (Math_sqrt ((valA - valB) ^ 2))]> breakdown))
          (0, 0, ∅) metricKeys in
  (Math_sqrt (sumWeightedSquaredDiff / or_else totalWeight 1), breakdown).

Definition manhattanDistance (playerA playerB : PlayerData)
    (metricKeys : list string) (bounds : gmap string MetricBounds)
    (weights : gmap string Q) : number :=
  let totalDiff :=
    foldl (fun totalDiff key =>
             let '(valA, valB) := normalised_pair playerA playerB bounds key in
             totalDiff + Qabs (valA - valB) * weight_or1 weights key)
          0 metricKeys in
  div (Fin totalDiff) (Fin (inject_Z (Z.of_nat (length metricKeys)))).

Definition cosineSimilarity (playerA playerB : PlayerData)
    (metricKeys : list string) (bounds : gmap string MetricBounds) : number :=
  let '(dotProduct, normA, normB) :=
    foldl (fun '(dotProduct, normA, normB) key =>
             let '(valA, valB) := normalised_pair playerA playerB bounds key in
             (dotProduct + valA * valB, normA + valA * valA,
              normB + valB * valB))
          (0, 0, 0) metricKeys in
  let denominator := mul (Math_sqrt normA) (Math_sqrt normB) in
  if eqb denominator (Fin 0) then Fin 1
  else sub (Fin 1) (div (Fin dotProduct) denominator).

(** The conversion of a distance over [metricCount] metrics into the
    score of a result. *)
Definition similarityScore (distance : number) (metricCount : nat) : number :=
  let maxPossibleDistance := Math_sqrt (inject_Z (Z.of_nat metricCount)) in
  Math_max0
    (Math_round_n
       (mul (Fin 100)
            (sub (Fin 1)
                 (div distance (mul maxPossibleDistance (Fin (6 # 10))))))).

Definition findSimilarPlayers (referencePlayer : PlayerData)
    (candidates : list PlayerData) (options : SimilarityOptions)
  : list SimilarityResult :=
  let maxResults := default 10%Z options.(maxResults) in
  let samePositionOnly := default false options.(samePositionOnly) in
  let excludeSameTeam := default false options.(excludeSameTeam) in
  let minMinutes := default 450 options.(minMinutes) in
  let customWeights := default ∅ options.(customWeights) in
  let algorithm := default euclidean options.(algorithm) in
  let same key (p : PlayerData) :=
    strict_eq (p !! key) (referencePlayer !! key) in
  let filteredCandidates :=
    List.filter
      (fun p : PlayerData =>
         if same "Player"%string p && same "Team"%string p then false
         else if samePositionOnly
                 && negb (existsb
                            (fun rp => bool_decide (rp ∈ position_list p))
                            (position_list referencePlayer))
         then false
         else if excludeSameTeam && same "Team"%string p then false
         else if Qltb (Number_or0 (p !! "Minutes played"%string)) minMinutes
         then false
         else true)
      candidates in
  let metricKeys := extractNumericMetricKeys candidates in
  let bounds : gmap string MetricBounds :=
    foldl (fun bounds key => <[key := calculateMetricBounds candidates key]> bounds)
          ∅ metricKeys in
  let results :=
    List.map
      (fun candidate =>
         let '(distance, breakdown) :=
           match algorithm with
           | cosine =>
               (cosineSimilarity referencePlayer candidate metricKeys bounds,
                ∅)
           | manhattan =>
               (manhattanDistance referencePlayer candidate metricKeys bounds
                  customWeights, ∅)
           | weighted =>
               weightedEuclideanDistance referencePlayer candidate metricKeys
                 bounds customWeights
           | euclidean =>
               (euclideanDistance referencePlayer candidate metricKeys bounds,
                ∅)
           end in
         {| player := candidate;
            score := similarityScore distance (length metricKeys);
            distance := distance;
            matchedMetrics := length metricKeys;
            breakdown := breakdown |})
      filteredCandidates in
  slice0 maxResults
    (Array_sort (fun a b => sub b.(score) a.(score)) results).

End WithRuntime.

(** ** Position-specific search and replacements *)

Definition POSITION_KEY_METRICS : gmap string (list string) :=
  list_to_map
    [("GK", ["Save rate, %"; "Prevented goals per 90"; "Exits per 90";
             "Accurate passes, %"; "Accurate long passes, %"]);
     ("CB", ["Defensive duels won, %"; "Aerial duels won, %";
             "PAdj Interceptions"; "Progressive passes per 90";
             "Accurate passes, %"]);
     ("LB", ["xA per 90"; "Progressive passes per 90"; "Accurate crosses, %";
             "Defensive duels won, %"; "Progressive runs per 90"]);
     ("RB", ["xA per 90"; "Progressive passes per 90"; "Accurate crosses, %";
             "Defensive duels won, %"; "Progressive runs per 90"]);
     ("DMF", ["PAdj Interceptions"; "Passes per 90"; "Accurate passes, %";
              "Progressive passes per 90"; "Defensive duels won, %"]);
     ("CMF", ["xA per 90"; "Progressive passes per 90"; "Key passes per 90";
              "Accurate passes, %"; "Duels won, %"]);
     ("AMF", ["xG per 90"; "xA per 90"; "Key passes per 90";
              "Dribbles per 90"; "Shot assists per 90"]);
     ("LW", ["xG per 90"; "xA per 90"; "Dribbles per 90";
             "Successful dribbles, %"; "Progressive runs per 90"]);
     ("RW", ["xG per 90"; "xA per 90"; "Dribbles per 90";
             "Successful dribbles, %"; "Progressive runs per 90"]);
     ("CF", ["xG per 90"; "Goals per 90"; "Shots on target, %";
             "Touches in box per 90"; "Aerial duels won, %"])]%string.

Record ReplacementOptions : Type := {
  maxAge : option Q;
  maxMarketValue : option Q;
  preferYounger : option bool;
  minSimilarityScore : option Q
}.

Record ReplacementResult : Type := {
  similarity : SimilarityResult;
  replacementScore : number;
  ageComparison : Q;
  valueComparison : Q
}.

(** [referencePlayer.Position?.split(',')[0]?.trim() || 'CMF'] *)
Definition primaryPosition (referencePlayer : PlayerData) : string :=
  match as_string (referencePlayer !! "Position"%string) with
  | Some pos =>
      match split "," pos with
      | first :: _ =>
          if truthy_string (trim first) then trim first else "CMF"%string
      | [] => "CMF"%string
      end
  | None => "CMF"%string
  end.

Section Replacements.
Context `{Runtime}.

(** [None] is the [TypeError] of [keyMetrics.filter] when the primary
    position names a member of [Object.prototype]: the table then
    answers with a value that is truthy and is not an array. *)
Definition findPositionSpecificSimilar (referencePlayer : PlayerData)
    (candidates : list PlayerData) (options : SimilarityOptions)
  : option (list SimilarityResult) :=
  let position := primaryPosition referencePlayer in
  keyMetrics ←
    match POSITION_KEY_METRICS !! position with
    | Some listed => Some listed
    | None =>
        if bool_decide (position ∈ Object_prototype_keys) then None
        else Some (POSITION_KEY_METRICS !!! "CMF"%string)
    end;
  let availableMetrics := extractNumericMetricKeys candidates in
  let filteredMetrics :=
    List.filter (fun m => bool_decide (m ∈ availableMetrics)) keyMetrics in
  let customWeights : gmap string Q :=
    foldl (fun customWeights m => <[m := 2]> customWeights) ∅ filteredMetrics in
  Some (findSimilarPlayers referencePlayer candidates
          {| SimilarityService.maxResults := options.(SimilarityService.maxResults);
             samePositionOnly := options.(samePositionOnly);
             excludeSameTeam := options.(excludeSameTeam);
             minMinutes := options.(minMinutes);
             customWeights := Some customWeights;
             algorithm := Some weighted |}).

Definition findReplacements (referencePlayer : PlayerData)
    (candidates : list PlayerData) (options : ReplacementOptions)
  : option (list ReplacementResult) :=
  let maxAge := default 28 options.(maxAge) in
  let preferYounger := default true options.(preferYounger) in
  let minSimilarityScore := default 60 options.(minSimilarityScore) in
  similar ←
    findPositionSpecificSimilar referencePlayer candidates
      {| SimilarityService.maxResults := Some 50%Z;
         samePositionOnly := Some true;
         excludeSameTeam := Some true;
         minMinutes := Some 900;
         customWeights := None;
         algorithm := None |};
  let replacements :=
    List.map
      (fun s : SimilarityResult =>
         let refAge := Number_or0 (referencePlayer !! "Age"%string) in
         let candAge := Number_or0 (s.(player) !! "Age"%string) in
         let refValue :=
           or_else (Number_or0 (referencePlayer !! "Market value"%string)) 1 in
         let candValue :=
           or_else (Number_or0 (s.(player) !! "Market value"%string)) 1 in
         let withAge :=
           if preferYounger && Qltb candAge refAge
           then add s.(score) (Fin (Qmin 10 ((refAge - candAge) * 2)))
           else s.(score) in
         let withValue :=
           if Qltb candValue refValue
           then add withAge
                  (Fin (inject_Z
                          (Math_round ((1 - candValue / refValue) * 10))))
           else withAge in
         {| similarity := s;
            replacementScore := Math_min_n (Fin 100) withValue;
            ageComparison := candAge - refAge;
            valueComparison := candValue - refValue |})
      (List.filter
         (fun s : SimilarityResult =>
            let age := or_else (Number_or0 (s.(player) !! "Age"%string)) 99 in
            let value := Number_or0 (s.(player) !! "Market value"%string) in
            if Qltb maxAge age then false
            else if match options.(maxMarketValue) with
                    | Some limit =>
                        negb (Qeq_bool limit 0) && Qltb limit value
                    | None => false
                    end
            then false
            else if ltb s.(score) (Fin minSimilarityScore) then false
            else true)
         similar) in
  Some (Array_sort
          (fun a b => sub b.(replacementScore) a.(replacementScore))
          replacements).

End Replacements.

End SimilarityService.

(** * K-means clustering (src/services/analyticsService.ts) *)

Module AnalyticsService.
Import JS PlayerService.

Record ClusterConfig : Type := {
  k : Z;
  maxIterations : Z;
  metrics : list string
}.

Record ClusterResult : Type := {
  clusterId : nat;
  centroid : list Q;
  players : list PlayerData;
  size : nat;
  label : string
}.

(** An element of [vectors]: a player and its normalised vector. *)
Record PlayerVector : Type := {
  player : PlayerData;
  vector : list Q
}.

(** The variables of the main loop when it is left; [rounds] counts the
    executions of the loop body. *)
Record LoopState : Type := {
  final_centroids : list (list Q);
  final_assignments : list nat;
  rounds : nat
}.

Definition arraysEqual (a b : list nat) : bool :=
  bool_decide (length a = length b)
  && forallb (fun '(val, other) => bool_decide (val = other)) (zip a b).

Section WithRuntime.
Context `{Runtime}.
(** [generateClusterLabel]: the text of a label is not modelled. *)
Variable generateClusterLabel :
  list PlayerData -> list string -> gmap string MetricBounds -> string.

(** A component that [b] lacks is [undefined]: the sum becomes [NaN]. *)
Definition euclideanDistance (a b : list Q) : number :=
  let sum :=
    foldl (fun sum '(i, x) =>
             add sum (match b !! i with
                      | Some y => Fin ((x - y) ^ 2)
                      | None => NaN
                      end))
          (Fin 0) (imap (fun i x => (i, x)) a) in
  Math_sqrt_n sum.

(** The index of the centroid nearest to [vector]; the first one wins a
    tie. *)
Definition nearestCentroid (centroids : list (list Q)) (vector : list Q)
  : nat :=
  let '(minDist, minIndex) :=
    foldl (fun '(minDist, minIndex) '(idx, centroid) =>
             let dist := euclideanDistance vector centroid in
             if ltb dist minDist then (dist, idx) else (minDist, minIndex))
          (PInf, 0%nat) (imap (fun idx centroid => (idx, centroid)) centroids) in
  minIndex.

Definition assign (vectors : list PlayerVector) (centroids : list (list Q))
  : list nat :=
  List.map (fun v => nearestCentroid centroids v.(vector)) vectors.

(** The members of cluster [clusterIdx] under [assignments]. *)
Definition members (vectors : list PlayerVector) (assignments : list nat)
    (clusterIdx : nat) : list PlayerVector :=
  filteri (fun i _ => bool_decide (assignments !! i = Some clusterIdx)) vectors.

(** Every vector has one component per metric, so that [v[dimIdx]] is
    defined. *)
Definition updateCentroids (vectors : list PlayerVector)
    (assignments : list nat) (centroids : list (list Q)) : list (list Q) :=
  imap (fun clusterIdx old =>
          let clusterVectors :=
            List.map vector (members vectors assignments clusterIdx) in
          match clusterVectors with
          | [] => old
          | first :: _ =>
              imap (fun dimIdx _ =>
                      foldl (fun acc v => acc + default 0 (v !! dimIdx))
                            0 clusterVectors
                      / inject_Z (Z.of_nat (length clusterVectors)))
                   first
          end)
       centroids.

(** [for (iteration = 0; iteration < maxIterations; iteration++)], with
    [fuel] iterations left. *)
Fixpoint iterate (fuel : nat) (vectors : list PlayerVector)
    (centroids : list (list Q)) (assignments : list nat) : LoopState :=
  match fuel with
  | O =>
      {| final_centroids := centroids;
         final_assignments := assignments;
         rounds := 0 |}
  | S fuel' =>
      let newAssignments := assign vectors centroids in
      if arraysEqual assignments newAssignments
      then {| final_centroids := centroids;
              final_assignments := assignments;
              rounds := 1 |}
      else
        let st :=
          iterate fuel' vectors
                  (updateCentroids vectors newAssignments centroids)
                  newAssignments in
        {| final_centroids := st.(final_centroids);
           final_assignments := st.(final_assignments);
           rounds := S st.(rounds) |}
  end.

Definition buildBounds (data : list PlayerData) (metrics : list string)
  : gmap string MetricBounds :=
  foldl (fun bounds m => <[m := calculateMetricBounds data m]> bounds)
        ∅ metrics.

Definition buildVectors (data : list PlayerData) (metrics : list string)
    (bounds : gmap string MetricBounds) : list PlayerVector :=
  List.map
    (fun player =>
       {| player := player;
          vector :=
            List.map
              (fun m => normalizeValue (Number_or0 (player !! m)) (bounds !!! m))
              metrics |})
    data.

(** The loop of [kMeansClustering], from the initial centroids and the
    all-zero assignment. *)
Definition runLoop (data : list PlayerData) (config : ClusterConfig)
  : LoopState :=
  let bounds := buildBounds data config.(metrics) in
  let vectors := buildVectors data config.(metrics) bounds in
  let shuffled := shuffle _ vectors in
  let centroids := List.map vector (slice0 config.(k) shuffled) in
  iterate (Z.to_nat config.(maxIterations)) vectors centroids
          (replicate (length vectors) 0%nat).

Definition kMeansClustering (data : list PlayerData) (config : ClusterConfig)
  : list ClusterResult :=
  if (Z.of_nat (length data) <? config.(k))%Z
     || bool_decide (length config.(metrics) = 0%nat)
  then []
  else
    let bounds := buildBounds data config.(metrics) in
    let vectors := buildVectors data config.(metrics) bounds in
    let final := runLoop data config in
    let results :=
      imap (fun idx centroid =>
              let clusterPlayers :=
                List.map player (members vectors final.(final_assignments) idx) in
              {| clusterId := idx;
                 centroid := centroid;
                 players := clusterPlayers;
                 size := length clusterPlayers;
                 label :=
                   generateClusterLabel clusterPlayers config.(metrics) bounds |})
           final.(final_centroids) in
    Array_sort
      (fun a b => Fin (inject_Z (Z.of_nat b.(size)) - inject_Z (Z.of_nat a.(size))))
      (List.filter (fun r => bool_decide (0 < r.(size))%nat) results).

End WithRuntime.

(** ** Percentile analysis *)

Module PercentileAnalysis.
Record t : Type := {
  metric : string;
  value : Q;
  percentile : Z;
  zScore : Q;
  cohortMean : Q;
  cohortStdDev : Q;
  cohortSize : nat;
  rank : Z
}.
End PercentileAnalysis.

Module PlayerPercentileProfile.
Record t : Type := {
  player : PlayerData;
  percentiles : gmap string Z;
  zScores : gmap string Q;
  averages : gmap string Q
}.
End PlayerPercentileProfile.

Section Percentiles.
Context `{Runtime}.

Definition analyzePlayerPercentiles (player : PlayerData)
    (cohort : list PlayerData) (metricKeys : option (list string))
  : list PercentileAnalysis.t :=
  let keys := default (extractNumericMetricKeys cohort) metricKeys in
  let analyses :=
    omap (fun metric =>
            let playerValue := Number_or0 (player !! metric) in
            let cohortValues :=
              omap (fun p : PlayerData => Number (p !! metric)) cohort in
            match cohortValues with
            | [] => None
            | _ =>
                let bounds := calculateMetricBounds cohort metric in
                let percentile := calculatePercentile playerValue cohortValues in
                let zScore := calculateZScore playerValue bounds in
                let sorted :=
                  Array_sort (fun a b => Fin (b - a)) cohortValues in
                let rank :=
                  (findIndex (fun v => Qle_bool v playerValue) sorted + 1)%Z in
                Some {| PercentileAnalysis.metric := metric;
                        PercentileAnalysis.value := playerValue;
                        PercentileAnalysis.percentile := percentile;
                        PercentileAnalysis.zScore := toFixed 2 zScore;
                        PercentileAnalysis.cohortMean :=
                          toFixed 2 bounds.(mean);
                        PercentileAnalysis.cohortStdDev :=
                          toFixed 2 bounds.(stdDev);
                        PercentileAnalysis.cohortSize := length cohortValues;
                        PercentileAnalysis.rank :=
                          if (rank =? 0)%Z
                          then Z.of_nat (length cohortValues)
                          else rank |}
            end)
         keys in
  Array_sort
    (fun a b =>
       Fin (inject_Z (b.(PercentileAnalysis.percentile)
                      - a.(PercentileAnalysis.percentile))))
    analyses.

Definition generatePercentileProfile (player : PlayerData)
    (cohort : list PlayerData) : PlayerPercentileProfile.t :=
  let metricKeys := extractNumericMetricKeys cohort in
  let bounds := calculateAllMetricBounds cohort in
  let '(percentiles, zScores, averages) :=
    foldl (fun '(percentiles, zScores, averages) key =>
             let playerValue := Number_or0 (player !! key) in
             let cohortValues :=
               List.map (fun p : PlayerData => Number_or0 (p !! key)) cohort in
             (<[key := calculatePercentile playerValue cohortValues]> percentiles,
              <[key := toFixed 2 (calculateZScore playerValue (bounds !!! key))]>
                zScores,
              <[key := toFixed 2 (bounds !!! key).(mean)]> averages))
          (∅, ∅, ∅) metricKeys in
  {| PlayerPercentileProfile.player := player;
     PlayerPercentileProfile.percentiles := percentiles;
     PlayerPercentileProfile.zScores := zScores;
     PlayerPercentileProfile.averages := averages |}.

End Percentiles.

End AnalyticsService.

(** * The data store (src/services/dataStore.ts) *)

Module DataStore.
Import JS PlayerService.

(** A row of the team table; the aggregate columns are kept in [stats]. *)
Record TeamStats : Type := {
  team : string;
  league : string;
  season : string;
  stats : gmap string Q
}.

(** [state]: the three collections and the status fields. The type of a
    shot event is left open: the store never looks into one here. *)
Module State.
Record t {ShotEvent : Type} : Type := {
  players : list PlayerData;
  teams : list TeamStats;
  shots : list ShotEvent;
  isLoading : bool;
  errors : list string;
  lastUpdated : option string
}.
Arguments t : clear implicits.
End State.

Record DatasetStats : Type := {
  playerCount : nat;
  teamCount : nat;
  shotCount : nat;
  leagues : list string;
  seasons : list string;
  positions : list string;
  countries : list string;
  metricCount : nat
}.

(** [computedCache]: [None] is [null]. *)
Module Cache.
Record t : Type := {
  leagues : option (list string);
  teams : option (list string);
  positions : option (list string);
  nationalities : option (list string);
  metricKeys : option (list string);
  metricBounds : option (gmap string MetricBounds);
  datasetStats : option DatasetStats
}.

Definition empty : t := {|
  leagues := None; teams := None; positions := None; nationalities := None;
  metricKeys := None; metricBounds := None; datasetStats := None
|}.

Definition with_leagues (v : list string) (c : t) : t :=
  {| leagues := Some v; teams := c.(teams); positions := c.(positions);
     nationalities := c.(nationalities); metricKeys := c.(metricKeys);
     metricBounds := c.(metricBounds); datasetStats := c.(datasetStats) |}.

Definition with_teams (v : list string) (c : t) : t :=
  {| leagues := c.(leagues); teams := Some v; positions := c.(positions);
     nationalities := c.(nationalities); metricKeys := c.(metricKeys);
     metricBounds := c.(metricBounds); datasetStats := c.(datasetStats) |}.

Definition with_positions (v : list string) (c : t) : t :=
  {| leagues := c.(leagues); teams := c.(teams); positions := Some v;
     nationalities := c.(nationalities); metricKeys := c.(metricKeys);
     metricBounds := c.(metricBounds); datasetStats := c.(datasetStats) |}.

Definition with_nationalities (v : list string) (c : t) : t :=
  {| leagues := c.(leagues); teams := c.(teams); positions := c.(positions);
     nationalities := Some v; metricKeys := c.(metricKeys);
     metricBounds := c.(metricBounds); datasetStats := c.(datasetStats) |}.

Definition with_metricKeys (v : list string) (c : t) : t :=
  {| leagues := c.(leagues); teams := c.(teams); positions := c.(positions);
     nationalities := c.(nationalities); metricKeys := Some v;
     metricBounds := c.(metricBounds); datasetStats := c.(datasetStats) |}.

Definition with_metricBounds (v : gmap string MetricBounds) (c : t) : t :=
  {| leagues := c.(leagues); teams := c.(teams); positions := c.(positions);
     nationalities := c.(nationalities); metricKeys := c.(metricKeys);
     metricBounds := Some v; datasetStats := c.(datasetStats) |}.

Definition with_datasetStats (v : DatasetStats) (c : t) : t :=
  {| leagues := c.(leagues); teams := c.(teams); positions := c.(positions);
     nationalities := c.(nationalities); metricKeys := c.(metricKeys);
     metricBounds := c.(metricBounds); datasetStats := Some v |}.
End Cache.

(** The two module-level variables [state] and [computedCache]. The set
    of listeners is taken to be empty. *)
Record Store {ShotEvent : Type} : Type := {
  state : State.t ShotEvent;
  computedCache : Cache.t
}.
Arguments Store : clear implicits.

(** [extractNationalities] of the player service. *)
Definition extractNationalities (data : list PlayerData) : list string :=
  Array_sort string_cmp
    (Set_from
       (flat_map
          (fun p : PlayerData =>
             let passport := p !! "Passport country"%string in
             let country :=
               match passport with
               | Some (VStr s) => if truthy_string s then passport
                                  else p !! "Birth country"%string
               | Some (VNum q) => if Qeq_bool q 0
                                  then p !! "Birth country"%string
                                  else passport
               | None => p !! "Birth country"%string
               end in
             match country with
             | Some (VStr s) => if truthy_string s then [s] else []
             | _ => []
             end)
          data)).

(** The first match of [/(\d{4}-\d{2}|\d{2}-\d{2})/] in a string. *)
Definition is_digit (c : ascii) : bool :=
  let n := nat_of_ascii c in (48 <=? n)%nat && (n <=? 57)%nat.

Definition match_here (s : string) : option string :=
  match s with
  | String a (String b (String c (String d (String e (String f
      (String g _)))))) =>
      if is_digit a && is_digit b && is_digit c && is_digit d
         && Ascii.eqb e "-" && is_digit f && is_digit g
      then Some (String a (String b (String c (String d (String e
                   (String f (String g EmptyString)))))))
      else if is_digit a && is_digit b && Ascii.eqb c "-"
              && is_digit d && is_digit e
      then Some (String a (String b (String c (String d
                   (String e EmptyString)))))
      else None
  | String a (String b (String c (String d (String e _)))) =>
      if is_digit a && is_digit b && Ascii.eqb c "-"
         && is_digit d && is_digit e
      then Some (String a (String b (String c (String d
                   (String e EmptyString)))))
      else None
  | _ => None
  end.

Fixpoint season_match (s : string) : option string :=
  match match_here s with
  | Some m => Some m
  | None =>
      match s with
      | String _ s' => season_match s'
      | EmptyString => None
      end
  end.

Section Actions.
Context `{Runtime} {ShotEvent : Type}.

Abbreviation Store' := (Store ShotEvent).

(** A store action returning a value of type [A]. *)
Definition action (A : Type) : Type := Store' -> A * Store'.

#[export] Instance action_ret : MRet action := fun A a st => (a, st).

#[export] Instance action_bind : MBind action :=
  fun A B f m st => let '(a, st') := m st in f a st'.

Definition initial : Store' := {|
  state := {| State.players := []; State.teams := []; State.shots := [];
              State.isLoading := false; State.errors := [];
              State.lastUpdated := None |};
  computedCache := Cache.empty
|}.

Definition invalidateCache (st : Store') : Store' :=
  {| state := st.(state); computedCache := Cache.empty |}.

(** [now] is [new Date().toISOString()]. *)
Definition setPlayers (now : string) (players : list PlayerData)
    (st : Store') : Store' :=
  invalidateCache
    {| state :=
         {| State.players := players;
            State.teams := st.(state).(State.teams);
            State.shots := st.(state).(State.shots);
            State.isLoading := st.(state).(State.isLoading);
            State.errors := st.(state).(State.errors);
            State.lastUpdated := Some now |};
       computedCache := st.(computedCache) |}.

Definition setTeams (now : string) (teams : list TeamStats)
    (st : Store') : Store' :=
  {| state :=
       {| State.players := st.(state).(State.players);
          State.teams := teams;
          State.shots := st.(state).(State.shots);
          State.isLoading := st.(state).(State.isLoading);
          State.errors := st.(state).(State.errors);
          State.lastUpdated := Some now |};
     computedCache := st.(computedCache) |}.

Definition setShots (now : string) (shots : list ShotEvent)
    (st : Store') : Store' :=
  {| state :=
       {| State.players := st.(state).(State.players);
          State.teams := st.(state).(State.teams);
          State.shots := shots;
          State.isLoading := st.(state).(State.isLoading);
          State.errors := st.(state).(State.errors);
          State.lastUpdated := Some now |};
     computedCache := st.(computedCache) |}.

Definition resetStore (st : Store') : Store' := initial.

(** A cached getter: the cached value when there is one (an array or an
    object is truthy), else [compute] on the current state, stored. *)
Definition cached {A} (read : Cache.t -> option A)
    (write : A -> Cache.t -> Cache.t) (compute : action A) : action A :=
  fun st =>
    match read st.(computedCache) with
    | Some v => (v, st)
    | None =>
        let '(v, st') := compute st in
        (v, {| state := st'.(state);
               computedCache := write v st'.(computedCache) |})
    end.

Definition getLeagues : action (list string) :=
  cached Cache.leagues Cache.with_leagues
    (fun st => (extractLeagues st.(state).(State.players), st)).

Definition getTeams : action (list string) :=
  cached Cache.teams Cache.with_teams
    (fun st =>
       let playerTeams := extractTeams st.(state).(State.players) in
       let statsTeams := List.map team st.(state).(State.teams) in
       let allTeams := Set_from (playerTeams ++ statsTeams) in
       (Array_sort string_cmp allTeams, st)).

Definition getPositions : action (list string) :=
  cached Cache.positions Cache.with_positions
    (fun st => (extractPositions st.(state).(State.players), st)).

Definition getNationalities : action (list string) :=
  cached Cache.nationalities Cache.with_nationalities
    (fun st => (extractNationalities st.(state).(State.players), st)).

Definition getMetricKeys : action (list string) :=
  cached Cache.metricKeys Cache.with_metricKeys
    (fun st => (extractNumericMetricKeys st.(state).(State.players), st)).

Definition getMetricBounds : action (gmap string MetricBounds) :=
  cached Cache.metricBounds Cache.with_metricBounds
    (fun st => (calculateAllMetricBounds st.(state).(State.players), st)).

Definition extractSeasons (st : Store') : list string :=
  let fromPlayers :=
    omap (fun p : PlayerData =>
            season_match (default ""%string (as_string (p !! "League"%string))))
         st.(state).(State.players) in
  let fromTeams :=
    List.filter truthy_string (List.map season st.(state).(State.teams)) in
  reverse (Array_sort string_cmp (Set_from (fromPlayers ++ fromTeams))).

Definition getDatasetStats : action DatasetStats :=
  cached Cache.datasetStats Cache.with_datasetStats
    (teamNames ← getTeams;
     leagueNames ← getLeagues;
     positionNames ← getPositions;
     countryNames ← getNationalities;
     keys ← getMetricKeys;
     (fun st =>
       ({| playerCount := length st.(state).(State.players);
           teamCount := length teamNames;
           shotCount := length st.(state).(State.shots);
           leagues := leagueNames;
           seasons := extractSeasons st;
           positions := positionNames;
           countries := countryNames;
           metricCount := length keys |}, st)) : action DatasetStats).

End Actions.

End DataStore.

(** * Reference notions and sample data

    The notions of the specification that the theorems compare the code
    with, the laws assumed of [Math.sqrt], and the concrete rows used in
    the examples. *)

Module Reference.
Import JS PlayerService.

(** What the proofs use of the square root. *)
Class SqrtLaws `{Runtime} : Prop := {
  sqrt_nonneg : forall x : Q, 0 <= x -> 0 <= sqrtQ x;
  sqrt_zero : forall x : Q, x == 0 -> sqrtQ x == 0;
  sqrt_pos : forall x : Q, 0 < x -> 0 < sqrtQ x
}.

(** A runtime to compute with: the square root from below with an error
    under [2^-32 / den], every string read as [NaN], and a shuffle that
    leaves the array as it is. *)
Definition approx_sqrt (x : Q) : Q :=
  inject_Z (Z.sqrt (Qnum x * Zpos (Qden x) * 2 ^ 64))
  / inject_Z (Zpos (Qden x) * 2 ^ 32).

Definition sample_runtime : Runtime := {|
  sqrtQ := approx_sqrt;
  StringToNumber := fun _ => None;
  shuffle := fun _ l => l
|}.

(** The values of a metric over a cohort that pass the filter
    [!isNaN(v) && isFinite(v)]. *)
Definition usableValues `{Runtime} (data : list PlayerData)
    (metricKey : string) : list Q :=
  omap (fun p : PlayerData => Number (p !! metricKey)) data.

Definition meanOf (values : list Q) : Q :=
  sum values / inject_Z (Z.of_nat (length values)).

(** The population variance, as [calculateMetricBounds] computes it. *)
Definition varianceOf (values : list Q) : Q :=
  sum (List.map (fun v => (v - meanOf values) ^ 2) values)
  / inject_Z (Z.of_nat (length values)).

Definition countBelow (value : Q) (allValues : list Q) : nat :=
  length (List.filter (fun v => Qltb v value) allValues).

Definition countEqual (value : Q) (allValues : list Q) : nat :=
  length (List.filter (fun v => Qeq_bool v value) allValues).

(** The percentile rank in the words of the specification:
    [(countBelow + 0.5 * countEqual) / total * 100], rounded, clamped to
    [0, 100]. *)
Definition spec_percentileRank (value : Q) (allValues : list Q) : Z :=
  Z.max 0
    (Z.min 100
       (Math_round
          ((inject_Z (Z.of_nat (countBelow value allValues))
            + (1 # 2) * inject_Z (Z.of_nat (countEqual value allValues)))
           / inject_Z (Z.of_nat (length allValues)) * 100))).

(** A row with the given columns. *)
Definition row (columns : list (string * value)) : PlayerData :=
  list_to_map columns.

(** ** Role scoring *)

(** The weighted sum of a role's metrics for a player, before any
    rounding. *)
Definition rawRoleScore `{Runtime} (definition : ScoringUtils.RoleDefinition)
    (player : PlayerData) : Q :=
  foldl (fun acc '(metric, weight) =>
           acc + Number_or0 (player !! metric) * weight)
        0 definition.(ScoringUtils.metrics).

(** The score of each player of the cohort as [calculateRoleScore]
    returns it: to two decimals. *)
Definition cohortScores `{Runtime} (definition : ScoringUtils.RoleDefinition)
    (cohort : list PlayerData) : list Q :=
  List.map (fun p => toFixed 2 (rawRoleScore definition p)) cohort.

(** The entry of the breakdown for one metric of a role. *)
Definition breakdownEntry `{Runtime} (player : PlayerData)
    (entry : string * Q) : ScoringUtils.BreakdownEntry :=
  {| ScoringUtils.metric := entry.1;
     ScoringUtils.value := Number_or0 (player !! entry.1);
     ScoringUtils.weight := entry.2;
     ScoringUtils.contribution :=
       toFixed 3 (Number_or0 (player !! entry.1) * entry.2) |}.

(** [m] is the greatest element of [l]. *)
Definition is_max (m : Q) (l : list Q) : Prop :=
  (exists x, x ∈ l /\ x == m) /\ (forall x, x ∈ l -> x <= m).

(** The role of the specification's third scenario. *)
Definition goals_role : ScoringUtils.RoleDefinition := {|
  ScoringUtils.name := "Goals";
  ScoringUtils.category := ScoringUtils.attacker;
  ScoringUtils.positions := ["CF"%string];
  ScoringUtils.metrics := [("Goals per 90"%string, 1)];
  ScoringUtils.description := ""
|}.

Definition sample_roles : gmap string ScoringUtils.RoleDefinition :=
  {[ "Goals"%string := goals_role;
     "Shot-Stopping Goalkeeper"%string :=
       ScoringUtils.Shot_Stopping_Goalkeeper ]}.

Definition scorer (goalsPer90 : Q) : PlayerData :=
  row [("Player"%string, VStr "Scorer"); ("Position"%string, VStr "CF");
       ("Goals per 90"%string, VNum goalsPer90)].

Definition keeper : PlayerData :=
  row [("Player"%string, VStr "Keeper"); ("Position"%string, VStr "GK");
       ("Conceded goals per 90"%string, VNum 2);
       ("Shots against per 90"%string, VNum (1 # 4))].

(** ** Similarity search *)

(** A score in the range that the code and its callers document. *)
Definition in_0_100 (x : number) : Prop :=
  match x with
  | Fin q => 0 <= q <= 100
  | _ => False
  end.

(** Two rows of a table that has the identification and profile columns
    and no performance metric. *)
Definition profile_only (name team : string) : PlayerData :=
  row [("Player"%string, VStr name); ("Team"%string, VStr team);
       ("Position"%string, VStr "CF"); ("League"%string, VStr "Ligue 1");
       ("Age"%string, VNum 24); ("Minutes played"%string, VNum 900)].

(** Rows with the one metric [Goals per 90]. *)
Definition forward (name team : string) (goalsPer90 : Q) : PlayerData :=
  row [("Player"%string, VStr name); ("Team"%string, VStr team);
       ("Position"%string, VStr "CF"); ("League"%string, VStr "Ligue 1");
       ("Age"%string, VNum 24); ("Minutes played"%string, VNum 900);
       ("Goals per 90"%string, VNum goalsPer90)].

Definition manhattan_options (weights : gmap string Q)
  : SimilarityService.SimilarityOptions := {|
  SimilarityService.maxResults := None;
  SimilarityService.samePositionOnly := None;
  SimilarityService.excludeSameTeam := None;
  SimilarityService.minMinutes := None;
  SimilarityService.customWeights := Some weights;
  SimilarityService.algorithm := Some SimilarityService.manhattan
|}.

(** ** Data store *)

Definition team_row (teamName : string) : DataStore.TeamStats := {|
  DataStore.team := teamName;
  DataStore.league := "Ligue 1";
  DataStore.season := "2024-25";
  DataStore.stats := ∅
|}.

(** What a getter returns once the cache is dropped: its value
    recomputed from the collections the store holds now. *)
Definition recomputed `{Runtime} {ShotEvent A : Type}
    (getter : DataStore.action (ShotEvent := ShotEvent) A)
    (st : DataStore.Store ShotEvent) : A :=
  (getter (DataStore.invalidateCache st)).1.

(** The cache entries that depend on the players only agree with the
    players the store holds. *)
Definition players_cache_ok `{Runtime} {ShotEvent : Type}
    (st : DataStore.Store ShotEvent) : Prop :=
  let players := st.(DataStore.state).(DataStore.State.players) in
  let cache := st.(DataStore.computedCache) in
  (forall v, DataStore.Cache.leagues cache = Some v ->
             v = extractLeagues players)
  /\ (forall v, DataStore.Cache.positions cache = Some v ->
                v = extractPositions players)
  /\ (forall v, DataStore.Cache.nationalities cache = Some v ->
                v = DataStore.extractNationalities players)
  /\ (forall v, DataStore.Cache.metricKeys cache = Some v ->
                v = extractNumericMetricKeys players)
  /\ (forall v, DataStore.Cache.metricBounds cache = Some v ->
                v = calculateAllMetricBounds players).

(** An action keeps the collections and the agreement above. *)
Definition keeps_players_cache `{Runtime} {ShotEvent A : Type}
    (m : DataStore.action (ShotEvent := ShotEvent) A) : Prop :=
  forall st, players_cache_ok st ->
    players_cache_ok (m st).2
    /\ (m st).2.(DataStore.state) = st.(DataStore.state).

(** The stores that calls of the mutations and of the cached getters
    produce from the initial one. *)
Inductive reachable `{Runtime} {ShotEvent : Type}
  : DataStore.Store ShotEvent -> Prop :=
  | reach_initial : reachable DataStore.initial
  | reach_setPlayers now players st :
      reachable st -> reachable (DataStore.setPlayers now players st)
  | reach_setTeams now teams st :
      reachable st -> reachable (DataStore.setTeams now teams st)
  | reach_setShots now shots st :
      reachable st -> reachable (DataStore.setShots now shots st)
  | reach_getLeagues st :
      reachable st -> reachable (DataStore.getLeagues st).2
  | reach_getTeams st :
      reachable st -> reachable (DataStore.getTeams st).2
  | reach_getPositions st :
      reachable st -> reachable (DataStore.getPositions st).2
  | reach_getNationalities st :
      reachable st -> reachable (DataStore.getNationalities st).2
  | reach_getMetricKeys st :
      reachable st -> reachable (DataStore.getMetricKeys st).2
  | reach_getMetricBounds st :
      reachable st -> reachable (DataStore.getMetricBounds st).2
  | reach_getDatasetStats st :
      reachable st -> reachable (DataStore.getDatasetStats st).2.

(** ** More on the statistical utilities *)

(** The value that [calculatePercentile] rounds, from the two counts. *)
Definition midRank (value : Q) (allValues : list Q) : Q :=
  (inject_Z (Z.of_nat (countBelow value allValues))
   + (1 # 2) * inject_Z (Z.of_nat (countEqual value allValues)))
  / inject_Z (Z.of_nat (length allValues)) * 100.

(** The strict order in which [sort()] leaves distinct strings. *)
Definition string_lt (a b : string) : Prop := String.compare a b = Lt.

(** ** More on the similarity search *)

(** [a] scores at least as much as [b], both scores being finite. *)
Definition scores_at_least (a b : SimilarityService.SimilarityResult) : Prop :=
  exists x y,
    a.(SimilarityService.score) = Fin x
    /\ b.(SimilarityService.score) = Fin y
    /\ y <= x.

(** The candidate has the same value as the reference under every
    metric key of the table. *)
Definition same_metrics `{Runtime} (referencePlayer candidate : PlayerData)
    (candidates : list PlayerData) : Prop :=
  forall key, key ∈ extractNumericMetricKeys candidates ->
    Number_or0 (candidate !! key) == Number_or0 (referencePlayer !! key).

Definition position_options (samePosition excludeTeam : bool)
  : SimilarityService.SimilarityOptions := {|
  SimilarityService.maxResults := None;
  SimilarityService.samePositionOnly := Some samePosition;
  SimilarityService.excludeSameTeam := Some excludeTeam;
  SimilarityService.minMinutes := None;
  SimilarityService.customWeights := None;
  SimilarityService.algorithm := None
|}.

(** A row with a position, 900 minutes and the metric [Goals per 90]. *)
Definition positioned (name team position : string) (goalsPer90 : Q)
  : PlayerData :=
  row [("Player"%string, VStr name); ("Team"%string, VStr team);
       ("Position"%string, VStr position);
       ("Minutes played"%string, VNum 900);
       ("Goals per 90"%string, VNum goalsPer90)].

(** ** Ranks, pages and queries *)

(** [x] beats [value]: it is strictly larger when higher is better,
    strictly smaller otherwise. *)
Definition beats (higherIsBetter : bool) (value x : Q) : bool :=
  if higherIsBetter then Qltb value x else Qltb x value.

Definition countBetter (higherIsBetter : bool) (value : Q)
    (allValues : list Q) : nat :=
  length (List.filter (beats higherIsBetter value) allValues).

(** The number a row holds under a column (0 when it holds none). *)
Definition fieldNumber (field : string) (p : PlayerData) : Q :=
  match p !! field with
  | Some (VNum q) => q
  | _ => 0
  end.

(** The order [sortPlayers] is asked for, on rows with a numeric field. *)
Definition in_direction (options : SortOptions.t) (a b : PlayerData) : Prop :=
  match options.(SortOptions.direction) with
  | asc =>
      fieldNumber options.(SortOptions.field) a
      <= fieldNumber options.(SortOptions.field) b
  | desc =>
      fieldNumber options.(SortOptions.field) b
      <= fieldNumber options.(SortOptions.field) a
  end.

(** A locale for the examples: bytewise comparison, lower case on the
    ASCII letters. *)
Definition ascii_lower (c : ascii) : ascii :=
  let n := nat_of_ascii c in
  if (65 <=? n)%nat && (n <=? 90)%nat then ascii_of_nat (n + 32) else c.

Fixpoint string_lower (s : string) : string :=
  match s with
  | EmptyString => EmptyString
  | String c s' => String (ascii_lower c) (string_lower s')
  end.

Definition sample_locale : Locale := {|
  localeCompare a b :=
    match String.compare a b with Lt => -1 | Eq => 0 | Gt => 1 end;
  toLowerCase := string_lower;
  (* no number is printed in the examples *)
  Number_toString _ := ""%string
|}.

(** The filters that name no criterion. *)
Definition no_filters : PlayerFilters.t := {|
  PlayerFilters.search := None; PlayerFilters.team := None;
  PlayerFilters.league := None; PlayerFilters.position := None;
  PlayerFilters.nationality := None; PlayerFilters.ageMin := None;
  PlayerFilters.ageMax := None; PlayerFilters.marketValueMin := None;
  PlayerFilters.marketValueMax := None; PlayerFilters.minutesMin := None;
  PlayerFilters.season := None
|}.

(** A textual criterion that is left out or empty. *)
Definition blank (criterion : option string) : Prop :=
  criterion = None \/ criterion = Some ""%string.

End Reference.

(** * Properties of the primitives *)

Section Primitives.
Import JS.

Lemma Qltb_lt (a b : Q) : Qltb a b = true <-> a < b.
Proof.
  unfold Qltb. rewrite negb_true_iff, <- not_true_iff_false, Qle_bool_iff.
  split; [apply Qnot_le_lt | apply Qlt_not_le].
Qed.

Lemma Qltb_ge (a b : Q) : Qltb a b = false <-> b <= a.
Proof.
  unfold Qltb. rewrite negb_false_iff. apply Qle_bool_iff.
Qed.

Lemma Math_round_mono (x y : Q) : x <= y -> (Math_round x <= Math_round y)%Z.
Proof.
  intros Hxy. unfold Math_round. apply Qfloor_resp_le. lra.
Qed.

Lemma Math_round_Z (z : Z) : Math_round (inject_Z z) = z.
Proof.
  unfold Math_round.
  assert (Hlo : (z <= Qfloor (inject_Z z + (1 # 2)))%Z).
  { rewrite <- (Qfloor_Z z) at 1. apply Qfloor_resp_le. lra. }
  assert (Hhi : (Qfloor (inject_Z z + (1 # 2)) < z + 1)%Z).
  { rewrite Zlt_Qlt.
    eapply Qle_lt_trans; [apply Qfloor_le|].
    rewrite inject_Z_plus. change (inject_Z 1) with 1. lra. }
  lia.
Qed.

Lemma Math_round_comp (x y : Q) : x == y -> Math_round x = Math_round y.
Proof.
  intros Hxy. unfold Math_round. apply Qfloor_comp. rewrite Hxy. reflexivity.
Qed.

Lemma Math_round_le_Z (x : Q) (z : Z) :
  x <= inject_Z z -> (Math_round x <= z)%Z.
Proof.
  intros Hx. rewrite <- (Math_round_Z z). now apply Math_round_mono.
Qed.

Lemma Math_round_ge_Z (x : Q) (z : Z) :
  inject_Z z <= x -> (z <= Math_round x)%Z.
Proof.
  intros Hx. rewrite <- (Math_round_Z z) at 1. now apply Math_round_mono.
Qed.

(** Rounding commutes with the clamp to [0, 100]. *)
Lemma Math_round_clamp (x : Q) :
  Math_round (Qmax 0 (Qmin 100 x))
  = Z.max 0 (Z.min 100 (Math_round x)).
Proof.
  destruct (Qlt_le_dec x 0) as [Hneg | Hpos].
  - assert (H0 : (Math_round x <= 0)%Z).
    { apply Math_round_le_Z. change (inject_Z 0) with 0. lra. }
    rewrite (Math_round_comp _ (inject_Z 0)).
    + rewrite Math_round_Z. lia.
    + change (inject_Z 0) with 0.
      rewrite (Q.min_r 100 x) by lra. apply Q.max_l. lra.
  - assert (H0 : (0 <= Math_round x)%Z).
    { apply Math_round_ge_Z. change (inject_Z 0) with 0. lra. }
    destruct (Qlt_le_dec 100 x) as [Hbig | Hsmall].
    + assert (H100 : (100 <= Math_round x)%Z).
      { apply Math_round_ge_Z. change (inject_Z 100) with 100. lra. }
      rewrite (Math_round_comp _ (inject_Z 100)).
      * rewrite Math_round_Z. lia.
      * change (inject_Z 100) with 100.
        rewrite (Q.min_l 100 x) by lra. apply Q.max_r. lra.
    + assert (H100 : (Math_round x <= 100)%Z).
      { apply Math_round_le_Z. change (inject_Z 100) with 100. lra. }
      rewrite (Math_round_comp _ x).
      * lia.
      * rewrite (Q.min_r 100 x) by lra. apply Q.max_r. lra.
Qed.

(** ** Sorting *)

Lemma sort_insert_perm {A} (cmp : A -> A -> number) (x : A) (l : list A) :
  sort_insert cmp x l ≡ₚ x :: l.
Proof.
  induction l as [|y l IH]; simpl; [reflexivity|].
  destruct (keeps_order cmp x y); [reflexivity|].
  rewrite IH. apply Permutation_swap.
Qed.

Lemma Array_sort_perm {A} (cmp : A -> A -> number) (l : list A) :
  Array_sort cmp l ≡ₚ l.
Proof.
  induction l as [|x l IH]; simpl; [reflexivity|].
  rewrite sort_insert_perm. now rewrite IH.
Qed.

Lemma Array_sort_length {A} (cmp : A -> A -> number) (l : list A) :
  length (Array_sort cmp l) = length l.
Proof. apply Permutation_length, Array_sort_perm. Qed.

Lemma filter_length_perm {A} (f : A -> bool) (l l' : list A) :
  l ≡ₚ l' -> length (List.filter f l) = length (List.filter f l').
Proof.
  induction 1 as [|x l l' _ IH|x y l|l l' l'' _ IH1 _ IH2]; simpl.
  - reflexivity.
  - destruct (f x); simpl; congruence.
  - destruct (f x), (f y); reflexivity.
  - congruence.
Qed.

Lemma Array_sort_Forall {A} (P : A -> Prop) (cmp : A -> A -> number)
    (l : list A) :
  Forall P l -> Forall P (Array_sort cmp l).
Proof.
  intros HP. eapply Permutation_Forall; [|exact HP].
  symmetry. apply Array_sort_perm.
Qed.

(** With a comparator that orders any two elements one way or the other,
    the result is sorted. *)
Lemma sort_insert_sorted {A} (cmp : A -> A -> number) (x : A) (l : list A) :
  (forall a b, keeps_order cmp a b = false -> keeps_order cmp b a = true) ->
  Sorted (fun a b => keeps_order cmp a b = true) l ->
  Sorted (fun a b => keeps_order cmp a b = true) (sort_insert cmp x l).
Proof.
  intros Htotal. induction l as [|y l IH]; intros Hs; simpl.
  - repeat constructor.
  - destruct (keeps_order cmp x y) eqn:Hxy.
    + constructor; [exact Hs|]. constructor. exact Hxy.
    + apply Sorted_inv in Hs as [Hs Hhd].
      constructor; [apply IH, Hs|].
      destruct l as [|z l]; simpl.
      * constructor. apply Htotal, Hxy.
      * destruct (keeps_order cmp x z).
        -- constructor. apply Htotal, Hxy.
        -- constructor. now apply HdRel_inv in Hhd.
Qed.

Lemma Array_sort_sorted {A} (cmp : A -> A -> number) (l : list A) :
  (forall a b, keeps_order cmp a b = false -> keeps_order cmp b a = true) ->
  Sorted (fun a b => keeps_order cmp a b = true) (Array_sort cmp l).
Proof.
  intros Htotal. induction l as [|x l IH]; simpl.
  - constructor.
  - apply sort_insert_sorted; assumption.
Qed.

End Primitives.

(** * The statistical utilities *)

Section PlayerServiceProofs.
Import JS PlayerService Reference.

#[export] Instance sample_runtime_laws : @SqrtLaws sample_runtime.
Proof.
  split; simpl; unfold approx_sqrt; intros [n d] Hx; simpl.
  - apply Qle_shift_div_l; [reflexivity|].
    rewrite Qmult_0_l. change 0 with (inject_Z 0). rewrite <- Zle_Qle.
    apply Z.sqrt_nonneg.
  - assert (n = 0%Z) as ->.
    { unfold Qeq in Hx. simpl in Hx. lia. }
    reflexivity.
  - apply Qlt_shift_div_l; [reflexivity|].
    rewrite Qmult_0_l. change 0 with (inject_Z 0). rewrite <- Zlt_Qlt.
    apply Z.sqrt_pos.
    assert (0 < n)%Z by (unfold Qlt in Hx; simpl in Hx; lia).
    lia.
Qed.

Lemma foldl_Qmin_le (v : Q) (vs : list Q) : foldl Qmin v vs <= v.
Proof.
  revert v. induction vs as [|x vs IH]; intros v; simpl.
  - apply Qle_refl.
  - eapply Qle_trans; [apply IH|]. apply Q.le_min_l.
Qed.

Lemma foldl_Qmax_ge (v : Q) (vs : list Q) : v <= foldl Qmax v vs.
Proof.
  revert v. induction vs as [|x vs IH]; intros v; simpl.
  - apply Qle_refl.
  - eapply Qle_trans; [|apply IH]. apply Q.le_max_l.
Qed.

Lemma foldl_Qmin_const (c v : Q) (vs : list Q) :
  v == c -> Forall (fun x => x == c) vs -> foldl Qmin v vs == c.
Proof.
  revert v. induction vs as [|x vs IH]; intros v Hv Hall; simpl.
  - exact Hv.
  - apply Forall_cons in Hall as [Hx Hall]. apply IH; [|exact Hall].
    rewrite Hv, Hx. apply Q.min_id.
Qed.

Lemma foldl_Qmax_const (c v : Q) (vs : list Q) :
  v == c -> Forall (fun x => x == c) vs -> foldl Qmax v vs == c.
Proof.
  revert v. induction vs as [|x vs IH]; intros v Hv Hall; simpl.
  - exact Hv.
  - apply Forall_cons in Hall as [Hx Hall]. apply IH; [|exact Hall].
    rewrite Hv, Hx. apply Q.max_id.
Qed.

(** The four fields in terms of the usable values. *)
Lemma calculateMetricBounds_unfold `{Runtime} (data : list PlayerData)
    (metricKey : string) :
  calculateMetricBounds data metricKey =
  match usableValues data metricKey with
  | [] => {| min := 0; max := 1; mean := 0; stdDev := 1 |}
  | v :: vs =>
      {| min := foldl Qmin v vs;
         max := if Qeq_bool (foldl Qmax v vs) (foldl Qmin v vs)
                then foldl Qmin v vs + 1 else foldl Qmax v vs;
         mean := meanOf (v :: vs);
         stdDev := match Math_sqrt (varianceOf (v :: vs)) with
                   | Fin s => if Qeq_bool s 0 then 1 else s
                   | _ => 1
                   end |}
  end.
Proof.
  unfold calculateMetricBounds, usableValues.
  destruct (omap _ data); reflexivity.
Qed.







End PlayerServiceProofs.

(** * Role scoring *)

Section ScoringProofs.
Import JS PlayerService Reference ScoringUtils.
Context `{Runtime}.
Variable ROLE_DEFINITIONS : gmap string RoleDefinition.

Lemma score_fold (player : PlayerData) (l : list (string * Q))
    (score totalWeight : Q) :
  (foldl (fun '(score, totalWeight) '(metric, weight) =>
            let value := Number_or0 (player !! metric) in
            (score + value * weight, totalWeight + weight))
         (score, totalWeight) l).1
  = foldl (fun acc '(metric, weight) =>
             acc + Number_or0 (player !! metric) * weight) score l.
Proof.
  revert score totalWeight.
  induction l as [|[metric weight] l IH]; intros score totalWeight; simpl.
  - reflexivity.
  - apply IH.
Qed.

Lemma calculateRoleScore_raw (definition : RoleDefinition)
    (player : PlayerData) (role : string) :
  ROLE_DEFINITIONS !! role = Some definition ->
  calculateRoleScore ROLE_DEFINITIONS player role false None
  = toFixed 2 (rawRoleScore definition player).
Proof.
  intros Hrole. unfold calculateRoleScore, rawRoleScore. rewrite Hrole.
  rewrite <- (score_fold player (metrics definition) 0 0).
  destruct (foldl _ _ _) as [score totalWeight]. reflexivity.
Qed.

Lemma cohortScores_code (definition : RoleDefinition) (role : string)
    (cohort : list PlayerData) :
  ROLE_DEFINITIONS !! role = Some definition ->
  List.map (fun p => calculateRoleScore ROLE_DEFINITIONS p role false None)
           cohort
  = cohortScores definition cohort.
Proof.
  intros Hrole. unfold cohortScores. apply map_ext. intros p.
  now apply calculateRoleScore_raw.
Qed.

Lemma detailed_fold (player : PlayerData) (l : list (string * Q))
    (rawScore : Q) (breakdown : list BreakdownEntry) :
  foldl (fun '(rawScore, breakdown) '(metric, weight) =>
           let value := Number_or0 (player !! metric) in
           let contribution := value * weight in
           (rawScore + contribution,
            breakdown ++ [{| metric := metric;
                             value := value;
                             weight := weight;
                             contribution := toFixed 3 contribution |}]))
        (rawScore, breakdown) l
  = (foldl (fun acc '(metric, weight) =>
              acc + Number_or0 (player !! metric) * weight) rawScore l,
     breakdown ++ List.map (breakdownEntry player) l).
Proof.
  revert rawScore breakdown.
  induction l as [|[metric weight] l IH]; intros rawScore breakdown; simpl.
  - now rewrite app_nil_r.
  - rewrite IH, <- app_assoc. reflexivity.
Qed.

(** The result of [calculateDetailedRoleScore] for a known role, field by
    field. *)
Lemma calculateDetailedRoleScore_unfold (definition : RoleDefinition)
    (player : PlayerData) (role : string) (cohort : list PlayerData) :
  ROLE_DEFINITIONS !! role = Some definition ->
  calculateDetailedRoleScore ROLE_DEFINITIONS player role cohort
  = Some
      {| role := role;
         rawScore := toFixed 2 (rawRoleScore definition player);
         normalizedScore :=
           Math_round (rawRoleScore definition player
                       / Math_max_with (cohortScores definition cohort) 1
                       * 100);
         percentile :=
           Math_round_n
             (mul (div (Fin (inject_Z (Z.of_nat
                          (length (List.filter
                             (fun s => Qltb s (rawRoleScore definition player))
                             (Array_sort (fun a b => Fin (a - b))
                                (cohortScores definition cohort)))))))
                       (Fin (inject_Z (Z.of_nat
                          (length (cohortScores definition cohort))))))
                  (Fin 100));
         breakdown :=
           Array_sort (fun a b => Fin (b.(contribution) - a.(contribution)))
             (List.map (breakdownEntry player) definition.(metrics)) |}.
Proof.
  intros Hrole. unfold calculateDetailedRoleScore. rewrite Hrole.
  rewrite detailed_fold. cbn [app].
  rewrite (cohortScores_code definition) by exact Hrole. reflexivity.
Qed.

Lemma inject_nat_nonzero (n : nat) :
  n <> 0%nat -> Qeq_bool (inject_Z (Z.of_nat n)) 0 = false.
Proof.
  intros Hn. apply not_true_iff_false. intros Heq.
  apply Qeq_bool_iff in Heq. unfold Qeq in Heq. simpl in Heq. lia.
Qed.

Lemma countBelow_comp (x y : Q) (l : list Q) :
  x == y -> countBelow x l = countBelow y l.
Proof.
  intros Hxy. unfold countBelow. f_equal. apply filter_ext. intros v.
  destruct (Qltb v y) eqn:Hy.
  - apply Qltb_lt. apply Qltb_lt in Hy. now rewrite Hxy.
  - apply Qltb_ge. apply Qltb_ge in Hy. now rewrite Hxy.
Qed.

(** The percentile of a known role over a non-empty cohort, as computed:
    the player's unrounded sum is ranked among the cohort's scores, which
    [calculateRoleScore] has rounded to two decimals. *)
Lemma calculateDetailedRoleScore_percentile_exact (definition : RoleDefinition)
    (player : PlayerData) (role : string) (cohort : list PlayerData)
    (r : RoleScoreResult) :
  ROLE_DEFINITIONS !! role = Some definition ->
  cohort <> [] ->
  calculateDetailedRoleScore ROLE_DEFINITIONS player role cohort = Some r ->
  r.(percentile)
  = Fin (inject_Z (Math_round
      (inject_Z (Z.of_nat
         (countBelow (rawRoleScore definition player)
            (List.map
               (fun p => calculateRoleScore ROLE_DEFINITIONS p role false None)
               cohort)))
       / inject_Z (Z.of_nat (length cohort)) * 100))).
Proof.
  intros Hrole Hne Hres.
  rewrite (calculateDetailedRoleScore_unfold definition) in Hres by exact Hrole.
  injection Hres as <-. cbn [percentile].
  rewrite (cohortScores_code definition) by exact Hrole.
  unfold countBelow.
  rewrite (filter_length_perm _ _ _ (Array_sort_perm _ _)).
  assert (Hlen : length (cohortScores definition cohort) = length cohort)
    by apply length_map.
  rewrite Hlen. cbn [div mul Math_round_n].
  rewrite inject_nat_nonzero by (destruct cohort; [contradiction|discriminate]).
  reflexivity.
Qed.


Lemma Math_max_with_spec (l : list Q) (y : Q) :
  y <= Math_max_with l y
  /\ (forall x, x ∈ l -> x <= Math_max_with l y)
  /\ (Math_max_with l y == y \/ exists x, x ∈ l /\ x == Math_max_with l y).
Proof.
  induction l as [|a l (Hy & Hall & Hin)]; simpl.
  - split; [apply Qle_refl|]. split; [|left; reflexivity].
    intros x Hx. inversion Hx.
  - split; [|split].
    + eapply Qle_trans; [exact Hy | apply Q.le_max_r].
    + intros x Hx. apply elem_of_cons in Hx as [-> | Hx].
      * apply Q.le_max_l.
      * eapply Qle_trans; [apply Hall, Hx | apply Q.le_max_r].
    + destruct (Q.max_spec a (Math_max_with l y)) as [[_ Hmax] | [_ Hmax]].
      * destruct Hin as [Hin | (x & Hx & Hxm)].
        -- left. now rewrite Hmax.
        -- right. exists x. split; [now right | now rewrite Hmax].
      * right. exists a. split; [now left | now symmetry].
Qed.

Lemma Math_max_with_is_max (l : list Q) (M : Q) :
  is_max M l -> Math_max_with l 1 == Qmax 1 M.
Proof.
  intros [(x0 & Hx0 & Hx0M) Hub].
  destruct (Math_max_with_spec l 1) as (H1 & Hall & Hin).
  apply Qle_antisym.
  - destruct Hin as [Hin | (x & Hx & Hxm)].
    + rewrite Hin. apply Q.le_max_l.
    + rewrite <- Hxm. eapply Qle_trans; [apply Hub, Hx | apply Q.le_max_r].
  - apply Q.max_lub; [exact H1|]. rewrite <- Hx0M. apply Hall, Hx0.
Qed.

Lemma toFixed_comp (digits : nat) (x y : Q) :
  x == y -> toFixed digits x == toFixed digits y.
Proof.
  intros Hxy. unfold toFixed.
  assert (Hsign : Qle_bool 0 x = Qle_bool 0 y).
  { destruct (Qle_bool 0 y) eqn:Hy.
    - apply Qle_bool_iff. apply Qle_bool_iff in Hy. now rewrite Hxy.
    - apply not_true_iff_false. intros Hx. apply Qle_bool_iff in Hx.
      rewrite Hxy in Hx. apply Qle_bool_iff in Hx. congruence. }
  rewrite Hsign. destruct (Qle_bool 0 y).
  - rewrite (Qfloor_comp (x * _ + _) (y * inject_Z (10 ^ Z.of_nat digits)
                                       + (1 # 2)));
      [reflexivity | now rewrite Hxy].
  - rewrite (Qfloor_comp (- x * _ + _) (- y * inject_Z (10 ^ Z.of_nat digits)
                                         + (1 # 2)));
      [reflexivity | now rewrite Hxy].
Qed.


Lemma Sorted_mono {A} (R R' : A -> A -> Prop) (l : list A) :
  (forall a b, R a b -> R' a b) -> Sorted R l -> Sorted R' l.
Proof.
  intros Himpl. induction 1 as [|a l _ IH Hhd]; constructor.
  - exact IH.
  - destruct Hhd; constructor. now apply Himpl.
Qed.


End ScoringProofs.

Section ScoringExamples.
Import JS PlayerService Reference ScoringUtils.
#[local] Existing Instance sample_runtime.




(** The comparison of the unrounded sum with rounded scores shows when a
    score has more than two decimals: alone in its cohort the keeper has
    the sum -0.1875, which is above its own score -0.19, and gets the
    percentile 100. *)
Example calculateDetailedRoleScore_percentile_rounding :
  (percentile <$>
     calculateDetailedRoleScore sample_roles keeper "Shot-Stopping Goalkeeper"
       [keeper])
  = Some (Fin 100).
Proof. vm_compute. reflexivity. Qed.




End ScoringExamples.

(** * K-means clustering *)

Section AnalyticsProofs.
Import JS PlayerService Reference AnalyticsService.
Context `{Runtime}.
Variable generateClusterLabel :
  list PlayerData -> list string -> gmap string MetricBounds -> string.

Lemma arraysEqual_eq (a b : list nat) : arraysEqual a b = true -> a = b.
Proof.
  unfold arraysEqual. rewrite andb_true_iff, bool_decide_eq_true.
  intros [Hlen Hall]. revert b Hlen Hall.
  induction a as [|x a IH]; intros [|y b] Hlen Hall; try discriminate.
  - reflexivity.
  - simpl in Hall. apply andb_true_iff in Hall as [Hxy Hall].
    apply bool_decide_eq_true in Hxy. subst y. f_equal.
    apply IH; [now injection Hlen | exact Hall].
Qed.

(** The loop body runs at most [fuel] times. *)
Lemma iterate_rounds (fuel : nat) (vectors : list PlayerVector)
    (centroids : list (list Q)) (assignments : list nat) :
  (rounds (iterate fuel vectors centroids assignments) <= fuel)%nat.
Proof.
  revert centroids assignments.
  induction fuel as [|fuel IH]; intros centroids assignments; simpl.
  - lia.
  - destruct (arraysEqual _ _); simpl.
    + lia.
    + specialize (IH (updateCentroids vectors (assign vectors centroids)
                        centroids) (assign vectors centroids)).
      lia.
Qed.

(** A loop left before the cap is at a fixed point: assigning again with
    the final centroids changes nothing. *)
Lemma iterate_converged (fuel : nat) (vectors : list PlayerVector)
    (centroids : list (list Q)) (assignments : list nat) :
  (rounds (iterate fuel vectors centroids assignments) < fuel)%nat ->
  assign vectors (final_centroids (iterate fuel vectors centroids assignments))
  = final_assignments (iterate fuel vectors centroids assignments).
Proof.
  revert centroids assignments.
  induction fuel as [|fuel IH]; intros centroids assignments; simpl.
  - lia.
  - destruct (arraysEqual _ _) eqn:Heq; simpl.
    + intros _. symmetry. now apply arraysEqual_eq.
    + intros Hlt. apply IH. lia.
Qed.

(** A round that changes no assignment is the last one. *)
Lemma iterate_stops (fuel : nat) (vectors : list PlayerVector)
    (centroids : list (list Q)) :
  iterate (S fuel) vectors centroids (assign vectors centroids)
  = {| final_centroids := centroids;
       final_assignments := assign vectors centroids;
       rounds := 1 |}.
Proof.
  simpl.
  assert (Hrefl : arraysEqual (assign vectors centroids)
                              (assign vectors centroids) = true).
  { unfold arraysEqual. rewrite bool_decide_eq_true_2 by reflexivity. simpl.
    induction (assign vectors centroids) as [|x l IH]; simpl; [reflexivity|].
    rewrite bool_decide_eq_true_2 by reflexivity. exact IH. }
  now rewrite Hrefl.
Qed.

(** C8: the main loop of [kMeansClustering] runs its body at most
    [maxIterations] times; a round that changes no assignment ends it,
    and it is left before the cap only at such a fixed point; every
    cluster of the result has at least one member. The model is a total
    function: the call returns for every pool and configuration. *)
Theorem kMeansClustering_bounded_nonempty (data : list PlayerData)
    (config : ClusterConfig) :
  (rounds (runLoop data config) <= Z.to_nat config.(maxIterations))%nat
  /\ ((rounds (runLoop data config) < Z.to_nat config.(maxIterations))%nat ->
      assign (buildVectors data config.(metrics)
                (buildBounds data config.(metrics)))
             (final_centroids (runLoop data config))
      = final_assignments (runLoop data config))
  /\ (forall fuel vectors centroids,
        rounds (iterate (S fuel) vectors centroids (assign vectors centroids))
        = 1%nat)
  /\ Forall (fun c => (1 <= c.(size))%nat
                      /\ c.(size) = length c.(players)
                      /\ c.(players) <> [])
            (kMeansClustering generateClusterLabel data config).
Proof.
  split; [apply iterate_rounds|]. split; [apply iterate_converged|].
  split; [intros fuel vectors centroids; now rewrite iterate_stops|].
  unfold kMeansClustering.
  destruct (_ || _); [constructor|].
  apply Array_sort_Forall. apply Forall_forall. intros c Hc.
  apply list_elem_of_In, filter_In in Hc as [Hc Hsize].
  apply bool_decide_eq_true in Hsize.
  apply list_elem_of_In, elem_of_lookup_imap in Hc as (idx & centroid & -> & _).
  cbn [size players] in *.
  split; [lia|]. split; [reflexivity|].
  intros Hnil. rewrite Hnil in Hsize. simpl in Hsize. lia.
Qed.

(** C9: with [k] greater than the number of players, or without metrics,
    [kMeansClustering] returns the empty list: the guard is the first
    thing evaluated, and the model has no failing path. *)
Theorem kMeansClustering_rejects (data : list PlayerData)
    (config : ClusterConfig) :
  (Z.of_nat (length data) < config.(k))%Z \/ config.(metrics) = [] ->
  kMeansClustering generateClusterLabel data config = [].
Proof.
  intros Hguard. unfold kMeansClustering.
  assert (Htest : (Z.of_nat (length data) <? k config)%Z
                  || bool_decide (length (metrics config) = 0%nat) = true).
  { apply orb_true_iff. destruct Hguard as [Hk | Hm].
    - left. now apply Z.ltb_lt.
    - right. apply bool_decide_eq_true. now rewrite Hm. }
  now rewrite Htest.
Qed.

End AnalyticsProofs.

Section AnalyticsExamples.
Import JS PlayerService Reference AnalyticsService.
#[local] Existing Instance sample_runtime.

Lemma kMeansClustering_rejects_witness :
  let config := {| k := 3; maxIterations := 10;
                   metrics := ["Goals per 90"%string] |} in
  let data := [scorer (1 # 4); scorer 1] in
  ((Z.of_nat (length data) < config.(k))%Z \/ config.(metrics) = [])
  /\ kMeansClustering (fun _ _ _ => ""%string) data config = [].
Proof.
  cbv zeta.
  assert (Hguard :
            (Z.of_nat (length [scorer (1 # 4); scorer 1]) < 3)%Z
            \/ ["Goals per 90"%string] = []) by (left; simpl; lia).
  split; [exact Hguard|].
  exact (kMeansClustering_rejects (fun _ _ _ => ""%string)
           [scorer (1 # 4); scorer 1]
           {| k := 3; maxIterations := 10;
              metrics := ["Goals per 90"%string] |} Hguard).
Defined.

Lemma kMeansClustering_bounded_nonempty_witness :
  let config := {| k := 2; maxIterations := 10;
                   metrics := ["Goals per 90"%string] |} in
  let data := [scorer (1 # 4); scorer (1 # 2); scorer 1] in
  (rounds (runLoop data config) < Z.to_nat config.(maxIterations))%nat
  /\ assign (buildVectors data config.(metrics)
               (buildBounds data config.(metrics)))
            (final_centroids (runLoop data config))
     = final_assignments (runLoop data config).
Proof.
  cbv zeta.
  assert (Hearly :
            (rounds (runLoop [scorer (1 # 4); scorer (1 # 2); scorer 1]
                       {| k := 2; maxIterations := 10;
                          metrics := ["Goals per 90"%string] |})
             < Z.to_nat 10)%nat).
  { vm_compute. lia. }
  split; [exact Hearly|].
  exact (proj1 (proj2 (kMeansClustering_bounded_nonempty
                         (fun _ _ _ => ""%string) _ _)) Hearly).
Defined.

End AnalyticsExamples.

(** * Similarity search *)

Section SimilarityProofs.
Import JS PlayerService Reference SimilarityService.
Context `{Runtime}.

(** The conversion of a finite distance [d] over [n] metrics, when
    [sqrt(n)] is positive. *)
Lemma similarityScore_formula (d : Q) (n : nat) :
  0 < sqrtQ (inject_Z (Z.of_nat n)) ->
  similarityScore (Fin d) n
  = Fin (Qmax 0 (inject_Z (Math_round
           (100 * (1 - d / (sqrtQ (inject_Z (Z.of_nat n)) * (6 # 10))))))).
Proof.
  intros Hpos.
  assert (Hsign : Qltb (inject_Z (Z.of_nat n)) 0 = false).
  { apply Qltb_ge. change 0 with (inject_Z 0). rewrite <- Zle_Qle. lia. }
  assert (Hnz : Qeq_bool (sqrtQ (inject_Z (Z.of_nat n)) * (6 # 10)) 0 = false).
  { apply not_true_iff_false. intros Heq. apply Qeq_bool_iff in Heq. lra. }
  unfold similarityScore, Math_sqrt. rewrite Hsign.
  cbn [mul div]. rewrite Hnz. reflexivity.
Qed.

(** For [d >= 0] and [n > 0] the score is
    [max(0, round(100 * (1 - d / (sqrt(n) * 0.6))))], within [0, 100]. *)
Lemma similarityScore_in_range `{!SqrtLaws} (d : Q) (n : nat) :
  0 <= d -> (0 < n)%nat ->
  similarityScore (Fin d) n
  = Fin (Qmax 0 (inject_Z (Math_round
           (100 * (1 - d / (sqrtQ (inject_Z (Z.of_nat n)) * (6 # 10)))))))
  /\ in_0_100 (similarityScore (Fin d) n).
Proof.
  intros Hd Hn.
  assert (Hpos : 0 < sqrtQ (inject_Z (Z.of_nat n))).
  { apply sqrt_pos. change 0 with (inject_Z 0). rewrite <- Zlt_Qlt. lia. }
  pose proof (similarityScore_formula d n Hpos) as Heq.
  split; [exact Heq|]. rewrite Heq. simpl.
  assert (Hround : (Math_round
            (100 * (1 - d / (sqrtQ (inject_Z (Z.of_nat n)) * (6 # 10))))
          <= 100)%Z).
  { apply Math_round_le_Z. change (inject_Z 100) with 100.
    assert (0 <= d / (sqrtQ (inject_Z (Z.of_nat n)) * (6 # 10))).
    { apply Qle_shift_div_l; lra. }
    lra. }
  split.
  - apply Q.le_max_l.
  - apply Q.max_lub; [lra|].
    change 100 with (inject_Z 100). now rewrite <- Zle_Qle.
Qed.

Lemma similarityScore_no_metric :
  sqrtQ 0 == 0 -> similarityScore (Math_sqrt 0) 0 = NaN.
Proof.
  intros Hzero. unfold similarityScore, Math_sqrt.
  change (Qltb (inject_Z (Z.of_nat 0)) 0) with false.
  change (Qltb 0 0) with false. change (inject_Z (Z.of_nat 0)) with 0.
  cbn [mul div].
  assert (Hden : Qeq_bool (sqrtQ 0 * (6 # 10)) 0 = true).
  { apply Qeq_bool_iff. rewrite Hzero. reflexivity. }
  assert (Hnum : Qeq_bool (sqrtQ 0) 0 = true) by now apply Qeq_bool_iff.
  rewrite Hden, Hnum. reflexivity.
Qed.

(** C7, at an input where the code leaves the range: on a table without
    performance metrics ([metricKeys] is empty) the distance is 0 and so
    is the greatest possible distance; the score of every result is
    [0 / 0], that is [NaN], under the default algorithm as under the
    Manhattan distance. *)
Theorem findSimilarPlayers_score_not_a_number :
  sqrtQ 0 == 0 ->
  let reference := profile_only "Mbappe" "Paris" in
  let candidates := [profile_only "Haaland" "City"] in
  List.map score (findSimilarPlayers reference candidates no_options) = [NaN]
  /\ List.map score
       (findSimilarPlayers reference candidates (manhattan_options ∅))
     = [NaN]
  /\ ~ Forall in_0_100
         (List.map score (findSimilarPlayers reference candidates no_options)).
Proof.
  intros Hzero. cbv zeta.
  assert (Hdefault :
            List.map score
              (findSimilarPlayers (profile_only "Mbappe" "Paris")
                 [profile_only "Haaland" "City"] no_options)
            = [similarityScore (Math_sqrt 0) 0])
    by (vm_compute; reflexivity).
  rewrite Hdefault, (similarityScore_no_metric Hzero).
  split; [reflexivity|]. split; [vm_compute; reflexivity|].
  intros Hall. apply Forall_cons in Hall as [Hnan _]. exact Hnan.
Qed.

Lemma slice0_Forall {A} (P : A -> Prop) (n : Z) (l : list A) :
  Forall P l -> Forall P (slice0 n l).
Proof.
  intros HP. unfold slice0. destruct (n <? 0)%Z; now apply Forall_take.
Qed.

Lemma Qsquare_nonneg (x : Q) : 0 <= x ^ 2.
Proof.
  change (x ^ 2) with (x * x). nra.
Qed.

Lemma sumSquaredDiff_nonneg (playerA playerB : PlayerData)
    (bounds : gmap string MetricBounds) (metricKeys : list string) (acc : Q) :
  0 <= acc ->
  0 <= foldl (fun sumSquaredDiff key =>
                let '(valA, valB) :=
                  normalised_pair playerA playerB bounds key in
                sumSquaredDiff + (valA - valB) ^ 2)
             acc metricKeys.
Proof.
  revert acc. induction metricKeys as [|key keys IH]; intros acc Hacc; simpl.
  - exact Hacc.
  - apply IH.
    pose proof (Qsquare_nonneg
                  (normalizeValue (Number_or0 (playerA !! key)) (bounds !!! key)
                   - normalizeValue (Number_or0 (playerB !! key))
                       (bounds !!! key))).
    lra.
Qed.

(** With the default (Euclidean) algorithm and at least one metric, every
    result has its score within [0, 100]. *)
Lemma findSimilarPlayers_euclidean_in_range `{!SqrtLaws}
    (referencePlayer : PlayerData) (candidates : list PlayerData)
    (options : SimilarityOptions) :
  default euclidean options.(algorithm) = euclidean ->
  extractNumericMetricKeys candidates <> [] ->
  Forall (fun r => in_0_100 r.(score))
         (findSimilarPlayers referencePlayer candidates options).
Proof.
  intros Halgo Hkeys. unfold findSimilarPlayers. rewrite Halgo.
  apply slice0_Forall, Array_sort_Forall, Forall_map, Forall_forall.
  intros candidate _. cbn [score].
  unfold SimilarityService.euclideanDistance, Math_sqrt.
  match goal with
  | |- context [Qltb ?sum 0] =>
      assert (Hsum : 0 <= sum) by (apply sumSquaredDiff_nonneg; lra);
      rewrite (proj2 (Qltb_ge sum 0) Hsum)
  end.
  apply similarityScore_in_range.
  - now apply sqrt_nonneg.
  - destruct (extractNumericMetricKeys candidates);
      [contradiction | simpl; lia].
Qed.

(** A second input of the same kind: a negative custom weight makes the
    Manhattan distance negative, and the score exceeds 100. *)
Lemma findSimilarPlayers_score_above_100 :
  sqrtQ 1 == 1 ->
  List.map score
    (findSimilarPlayers (forward "Mbappe" "Paris" 1)
       [forward "Haaland" "City" (1 # 2)]
       (manhattan_options {[ "Goals per 90"%string := - 1 ]}))
  = [Fin (inject_Z 183)].
Proof.
  intros Hone.
  assert (Hscore :
            List.map score
              (findSimilarPlayers (forward "Mbappe" "Paris" 1)
                 [forward "Haaland" "City" (1 # 2)]
                 (manhattan_options {[ "Goals per 90"%string := - 1 ]}))
            = [similarityScore (Fin (-4 # 8)) 1])
    by (vm_compute; reflexivity).
  rewrite Hscore, similarityScore_formula.
  - rewrite (Math_round_comp _ (100 * (1 - (-4 # 8) / (1 * (6 # 10))))).
    + reflexivity.
    + change (inject_Z (Z.of_nat 1)) with 1. now rewrite Hone.
  - change (inject_Z (Z.of_nat 1)) with 1. rewrite Hone. reflexivity.
Qed.

End SimilarityProofs.

Section SimilarityExamples.
Import JS PlayerService Reference SimilarityService.
#[local] Existing Instance sample_runtime.

Lemma findSimilarPlayers_score_not_a_number_witness :
  sqrtQ 0 == 0
  /\ List.map score
       (findSimilarPlayers (profile_only "Mbappe" "Paris")
          [profile_only "Haaland" "City"] no_options)
     = [NaN].
Proof.
  assert (Hzero : sqrtQ 0 == 0) by (vm_compute; reflexivity).
  split; [exact Hzero|].
  exact (proj1 (findSimilarPlayers_score_not_a_number Hzero)).
Defined.

End SimilarityExamples.

(** * The data store *)

Section DataStoreProofs.
Import JS PlayerService Reference DataStore.
Context `{Runtime} {ShotEvent : Type}.

#[local] Abbreviation act := (action (ShotEvent := ShotEvent)).
#[local] Abbreviation keeps :=
  (keeps_players_cache (ShotEvent := ShotEvent)).

Lemma cached_hit {A} (read : Cache.t -> option A)
    (write : A -> Cache.t -> Cache.t)
    (compute : act A) (st : Store ShotEvent) (v : A) :
  read st.(computedCache) = Some v ->
  cached read write compute st = (v, st).
Proof.
  intros Hread. unfold cached. now rewrite Hread.
Qed.

(** [setPlayers] drops the cache: a getter called next recomputes. *)
Lemma getter_after_setPlayers {A} (getter : act A)
    (now : string) (players : list PlayerData) (st : Store ShotEvent) :
  (getter (setPlayers now players st)).1
  = recomputed getter (setPlayers now players st).
Proof. reflexivity. Qed.

(** [setTeams] keeps the cache: a value of [getTeams] cached before the
    call is returned after it, whatever the new teams are. *)
Lemma getTeams_after_setTeams (now : string) (teams : list TeamStats)
    (st : Store ShotEvent) (cachedTeams : list string) :
  Cache.teams st.(computedCache) = Some cachedTeams ->
  (getTeams (setTeams now teams st)).1 = cachedTeams.
Proof.
  intros Hcache. unfold getTeams.
  now rewrite (cached_hit _ _ _ _ cachedTeams).
Qed.

(** The same for [getDatasetStats] after [setShots] or [setTeams]. *)
Lemma getDatasetStats_after_setShots (now : string) (shots : list ShotEvent)
    (st : Store ShotEvent) (cachedStats : DatasetStats) :
  Cache.datasetStats st.(computedCache) = Some cachedStats ->
  (getDatasetStats (setShots now shots st)).1 = cachedStats.
Proof.
  intros Hcache. unfold getDatasetStats.
  now rewrite (cached_hit _ _ _ _ cachedStats).
Qed.

Lemma getDatasetStats_after_setTeams (now : string) (teams : list TeamStats)
    (st : Store ShotEvent) (cachedStats : DatasetStats) :
  Cache.datasetStats st.(computedCache) = Some cachedStats ->
  (getDatasetStats (setTeams now teams st)).1 = cachedStats.
Proof.
  intros Hcache. unfold getDatasetStats.
  now rewrite (cached_hit _ _ _ _ cachedStats).
Qed.

(** ** The entries that depend on the players only

    [setPlayers] is the one mutation of the players and it drops the
    cache, so these entries never go stale. *)

Lemma initial_ok : players_cache_ok (initial : Store ShotEvent).
Proof. repeat split; discriminate. Qed.

Lemma setPlayers_ok (now : string) (players : list PlayerData)
    (st : Store ShotEvent) :
  players_cache_ok (setPlayers now players st).
Proof. repeat split; discriminate. Qed.

Lemma setTeams_ok (now : string) (teams : list TeamStats)
    (st : Store ShotEvent) :
  players_cache_ok st -> players_cache_ok (setTeams now teams st).
Proof. intros Hok. exact Hok. Qed.

Lemma setShots_ok (now : string) (shots : list ShotEvent)
    (st : Store ShotEvent) :
  players_cache_ok st -> players_cache_ok (setShots now shots st).
Proof. intros Hok. exact Hok. Qed.

Lemma keeps_bind {A B} (m : act A) (f : A -> act B) :
  keeps m -> (forall a, keeps (f a)) ->
  keeps (m ≫= f).
Proof.
  intros Hm Hf st Hok. unfold mbind, action_bind.
  destruct (Hm st Hok) as [Hok' Hstate]. destruct (m st) as [a st'].
  destruct (Hf a st' Hok') as [Hok'' Hstate'].
  split; [exact Hok''|]. now rewrite Hstate'.
Qed.

(** A cached getter keeps the agreement when the value it stores is the
    right one for the entry it writes. *)
Lemma keeps_cached {A} (read : Cache.t -> option A)
    (write : A -> Cache.t -> Cache.t)
    (compute : act A) :
  keeps compute ->
  (forall st, players_cache_ok st ->
     players_cache_ok
       {| state := st.(state);
          computedCache := write (compute st).1 (compute st).2.(computedCache) |}) ->
  keeps (cached read write compute).
Proof.
  intros Hcompute Hwrite st Hok. unfold cached.
  destruct (read (computedCache st)); [now split|].
  specialize (Hwrite st Hok). destruct (Hcompute st Hok) as [_ Hstate].
  destruct (compute st) as [v st']. simpl in *.
  rewrite Hstate. now split.
Qed.

Lemma keeps_pure {A} (f : Store ShotEvent -> A) :
  keeps ((fun st => (f st, st)) : act A).
Proof. intros st Hok. now split. Qed.

Ltac solve_entry :=
  intros st (Hl & Hp & Hn & Hk & Hb); simpl;
  repeat split; simpl; intros v Hv;
  first [ now injection Hv as <-
        | now apply Hl | now apply Hp | now apply Hn
        | now apply Hk | now apply Hb ].

Lemma getLeagues_keeps : keeps getLeagues.
Proof. apply keeps_cached; [apply keeps_pure | solve_entry]. Qed.

Lemma getTeams_keeps : keeps getTeams.
Proof. apply keeps_cached; [apply keeps_pure | solve_entry]. Qed.

Lemma getPositions_keeps : keeps getPositions.
Proof. apply keeps_cached; [apply keeps_pure | solve_entry]. Qed.

Lemma getNationalities_keeps : keeps getNationalities.
Proof. apply keeps_cached; [apply keeps_pure | solve_entry]. Qed.

Lemma getMetricKeys_keeps : keeps getMetricKeys.
Proof. apply keeps_cached; [apply keeps_pure | solve_entry]. Qed.

Lemma getMetricBounds_keeps : keeps getMetricBounds.
Proof. apply keeps_cached; [apply keeps_pure | solve_entry]. Qed.

Lemma getDatasetStats_keeps : keeps getDatasetStats.
Proof.
  assert (Hcompute : keeps_players_cache
            (teamNames ← getTeams;
             leagueNames ← getLeagues;
             positionNames ← getPositions;
             countryNames ← getNationalities;
             keys ← getMetricKeys;
             (fun st : Store ShotEvent =>
                ({| playerCount := length st.(state).(State.players);
                    teamCount := length teamNames;
                    shotCount := length st.(state).(State.shots);
                    leagues := leagueNames;
                    seasons := extractSeasons st;
                    positions := positionNames;
                    countries := countryNames;
                    metricCount := length keys |}, st))
             : act DatasetStats)).
  { apply keeps_bind; [apply getTeams_keeps | intros teamNames].
    apply keeps_bind; [apply getLeagues_keeps | intros leagueNames].
    apply keeps_bind; [apply getPositions_keeps | intros positionNames].
    apply keeps_bind; [apply getNationalities_keeps | intros countryNames].
    apply keeps_bind; [apply getMetricKeys_keeps | intros keys].
    apply keeps_pure. }
  apply keeps_cached; [exact Hcompute|].
  intros st Hok. destruct (Hcompute st Hok) as [Hok' Hstate].
  destruct Hok' as (Hl & Hp & Hn & Hk & Hb). rewrite Hstate in *.
  repeat split; simpl; intros v Hv;
    first [ now apply Hl | now apply Hp | now apply Hn
          | now apply Hk | now apply Hb ].
Qed.

Lemma reachable_ok (st : Store ShotEvent) :
  reachable st -> players_cache_ok st.
Proof.
  induction 1 as [| | | |st _ IH|st _ IH|st _ IH|st _ IH|st _ IH|st _ IH
                  |st _ IH].
  - apply initial_ok.
  - apply setPlayers_ok.
  - now apply setTeams_ok.
  - now apply setShots_ok.
  - now apply getLeagues_keeps.
  - now apply getTeams_keeps.
  - now apply getPositions_keeps.
  - now apply getNationalities_keeps.
  - now apply getMetricKeys_keeps.
  - now apply getMetricBounds_keeps.
  - now apply getDatasetStats_keeps.
Qed.

(** After any sequence of mutations and getter calls, the getters of the
    players' entries answer with the value recomputed from the store. *)
Lemma players_getters_fresh (st : Store ShotEvent) :
  reachable st ->
  (getLeagues st).1 = recomputed getLeagues st
  /\ (getPositions st).1 = recomputed getPositions st
  /\ (getMetricBounds st).1 = recomputed getMetricBounds st.
Proof.
  intros Hreach. destruct (reachable_ok st Hreach) as (Hl & Hp & _ & _ & Hb).
  unfold recomputed, getLeagues, getPositions, getMetricBounds, cached.
  simpl. repeat split.
  - destruct (Cache.leagues _) eqn:Hc; [now apply Hl | reflexivity].
  - destruct (Cache.positions _) eqn:Hc; [now apply Hp | reflexivity].
  - destruct (Cache.metricBounds _) eqn:Hc; [now apply Hb | reflexivity].
Qed.

(** C4, at an input where the code returns replaced data: after
    [setTeams([Lyon])], a call of [getTeams] and [setTeams([Nice])], the
    next [getTeams] still answers [Lyon], while the teams recomputed
    from the store are [Nice]; and after [getDatasetStats], a
    [setShots] with one shot leaves [shotCount] at 0. *)
Theorem getTeams_returns_replaced_teams (shot : ShotEvent) :
  let loaded : Store ShotEvent :=
    setTeams "2026-01-01" [team_row "Lyon"] initial in
  let read := (getTeams loaded).2 in
  let reloaded := setTeams "2026-01-02" [team_row "Nice"] read in
  reachable reloaded
  /\ (getTeams loaded).1 = ["Lyon"%string]
  /\ (getTeams reloaded).1 = ["Lyon"%string]
  /\ recomputed getTeams reloaded = ["Nice"%string]
  /\ (getTeams reloaded).1 <> recomputed getTeams reloaded
  /\ let counted : Store ShotEvent := (getDatasetStats initial).2 in
     let withShots := setShots "2026-01-03" [shot] counted in
     shotCount (getDatasetStats withShots).1 = 0%nat
     /\ shotCount (recomputed getDatasetStats withShots) = 1%nat.
Proof.
  cbv zeta. split; [repeat constructor|].
  repeat split; try (vm_compute; reflexivity).
  vm_compute. discriminate.
Qed.

End DataStoreProofs.

(** * More on the statistical utilities *)

Section MorePlayerServiceProofs.
Import JS PlayerService Reference.

Ltac reflect_comparisons :=
  repeat match goal with
         | H : Qltb _ _ = true |- _ => apply Qltb_lt in H
         | H : Qltb _ _ = false |- _ => apply Qltb_ge in H
         | H : Qeq_bool _ _ = true |- _ => apply Qeq_bool_iff in H
         | H : Qeq_bool _ _ = false |- _ => apply Qeq_bool_neq in H
         | H : Qle_bool _ _ = true |- _ => apply Qle_bool_iff in H
         end.

(** X1: [normalizeValue] always lands in [0, 1], whatever the value and
    the bounds, degenerate bounds included. *)
Theorem normalizeValue_range (value : Q) (bounds : MetricBounds) :
  0 <= normalizeValue value bounds <= 1.
Proof.
  unfold normalizeValue. destruct (Qeq_bool _ _).
  - split; [unfold Qle; simpl; lia | unfold Qle; simpl; lia].
  - split; [apply Q.le_max_l|].
    apply Q.max_lub; [unfold Qle; simpl; lia | apply Q.le_min_l].
Qed.

Lemma foldl_Qmin_lower (v : Q) (vs : list Q) (x : Q) :
  x ∈ v :: vs -> foldl Qmin v vs <= x.
Proof.
  revert v. induction vs as [|y vs IH]; intros v Hx; simpl.
  - apply list_elem_of_singleton in Hx. subst. apply Qle_refl.
  - apply elem_of_cons in Hx as [-> | Hx].
    + eapply Qle_trans; [apply foldl_Qmin_le | apply Q.le_min_l].
    + apply elem_of_cons in Hx as [-> | Hx].
      * eapply Qle_trans; [apply foldl_Qmin_le | apply Q.le_min_r].
      * apply IH. now right.
Qed.

Lemma foldl_Qmax_upper (v : Q) (vs : list Q) (x : Q) :
  x ∈ v :: vs -> x <= foldl Qmax v vs.
Proof.
  revert v. induction vs as [|y vs IH]; intros v Hx; simpl.
  - apply list_elem_of_singleton in Hx. subst. apply Qle_refl.
  - apply elem_of_cons in Hx as [-> | Hx].
    + eapply Qle_trans; [apply Q.le_max_l | apply foldl_Qmax_ge].
    + apply elem_of_cons in Hx as [-> | Hx].
      * eapply Qle_trans; [apply Q.le_max_r | apply foldl_Qmax_ge].
      * apply IH. now right.
Qed.

Lemma foldl_Qmin_attained (v : Q) (vs : list Q) :
  exists x, x ∈ v :: vs /\ x == foldl Qmin v vs.
Proof.
  revert v. induction vs as [|y vs IH]; intros v; simpl.
  - exists v. split; [left | reflexivity].
  - destruct (IH (Qmin v y)) as (x & Hx & Heq).
    apply elem_of_cons in Hx as [-> | Hx].
    + destruct (Q.min_spec v y) as [[_ Hmin] | [_ Hmin]].
      * exists v. split; [left | now rewrite <- Heq].
      * exists y. split; [right; left | now rewrite <- Heq].
    + exists x. split; [now right; right | exact Heq].
Qed.

Lemma foldl_Qmax_attained (v : Q) (vs : list Q) :
  exists x, x ∈ v :: vs /\ x == foldl Qmax v vs.
Proof.
  revert v. induction vs as [|y vs IH]; intros v; simpl.
  - exists v. split; [left | reflexivity].
  - destruct (IH (Qmax v y)) as (x & Hx & Heq).
    apply elem_of_cons in Hx as [-> | Hx].
    + destruct (Q.max_spec v y) as [[_ Hmax] | [_ Hmax]].
      * exists y. split; [right; left | now rewrite <- Heq].
      * exists v. split; [left | now rewrite <- Heq].
    + exists x. split; [now right; right | exact Heq].
Qed.

(** A sum lies between the number of terms times a lower and an upper
    bound of the terms. *)
Lemma sum_between (lo hi : Q) (l : list Q) (acc : Q) :
  (forall x, x ∈ l -> lo <= x <= hi) ->
  acc + inject_Z (Z.of_nat (length l)) * lo <= foldl Qplus acc l
  /\ foldl Qplus acc l <= acc + inject_Z (Z.of_nat (length l)) * hi.
Proof.
  revert acc. induction l as [|x l IH]; intros acc Hall.
  - simpl. change (inject_Z (Z.of_nat 0)) with 0. split; lra.
  - cbn [foldl length].
    destruct (IH (acc + x)) as [Hlo Hhi].
    { intros y Hy. apply Hall. now right. }
    destruct (Hall x ltac:(left)) as [Hx1 Hx2].
    rewrite Nat2Z.inj_succ, <- Z.add_1_r, inject_Z_plus.
    change (inject_Z 1) with 1. split; lra.
Qed.

Lemma mean_between (lo hi : Q) (l : list Q) :
  l <> [] -> (forall x, x ∈ l -> lo <= x <= hi) ->
  lo <= meanOf l <= hi.
Proof.
  intros Hne Hall. unfold meanOf, sum.
  destruct (sum_between lo hi l 0 Hall) as [Hlo Hhi].
  assert (Hn : 0 < inject_Z (Z.of_nat (length l))).
  { change 0 with (inject_Z 0). rewrite <- Zlt_Qlt.
    destruct l; [contradiction | simpl; lia]. }
  split.
  - apply Qle_shift_div_l; [exact Hn|]. lra.
  - apply Qle_shift_div_r; [exact Hn|]. lra.
Qed.



Lemma calculatePercentile_counts (value : Q) (allValues : list Q) :
  allValues <> [] ->
  calculatePercentile value allValues
  = Z.max 0 (Z.min 100 (Math_round (midRank value allValues))).
Proof.
  intros Hne. unfold calculatePercentile, midRank, countBelow, countEqual.
  destruct allValues as [|v vs]; [contradiction|].
  rewrite Math_round_clamp, Array_sort_length.
  rewrite !(filter_length_perm _ _ _ (Array_sort_perm _ (v :: vs))).
  reflexivity.
Qed.

(** The values below and the values equal to [value] are different
    values. *)
Lemma counts_le_length (value : Q) (l : list Q) :
  (countBelow value l + countEqual value l <= length l)%nat.
Proof.
  unfold countBelow, countEqual.
  induction l as [|x l IH]; simpl; [lia|].
  destruct (Qltb x value) eqn:Hlt, (Qeq_bool x value) eqn:Heq; simpl; try lia.
  reflect_comparisons. lra.
Qed.

(** Below a greater value there are the values below and the values
    equal to the smaller one. *)
Lemma countBelow_step (v w : Q) (l : list Q) :
  v < w -> (countBelow v l + countEqual v l <= countBelow w l)%nat.
Proof.
  intros Hvw. unfold countBelow, countEqual.
  induction l as [|x l IH]; simpl; [lia|].
  destruct (Qltb x v) eqn:Hlt, (Qeq_bool x v) eqn:Heq,
           (Qltb x w) eqn:Hlw; simpl; try lia;
    reflect_comparisons; lra.
Qed.

Lemma counts_comp (v w : Q) (l : list Q) :
  v == w -> countBelow v l = countBelow w l /\ countEqual v l = countEqual w l.
Proof.
  intros Hvw. unfold countBelow, countEqual.
  split; f_equal; apply filter_ext; intros x.
  - destruct (Qltb x w) eqn:Hw.
    + apply Qltb_lt. apply Qltb_lt in Hw. now rewrite Hvw.
    + apply Qltb_ge. apply Qltb_ge in Hw. now rewrite Hvw.
  - destruct (Qeq_bool x w) eqn:Hw.
    + apply Qeq_bool_iff. apply Qeq_bool_iff in Hw. now rewrite Hvw.
    + apply not_true_iff_false. intros Hv. apply Qeq_bool_iff in Hv.
      rewrite Hvw in Hv. apply Qeq_bool_iff in Hv. congruence.
Qed.

Lemma length_positive {A} (l : list A) :
  l <> [] -> 0 < inject_Z (Z.of_nat (length l)).
Proof.
  intros Hne. change 0 with (inject_Z 0). rewrite <- Zlt_Qlt.
  destruct l; [contradiction | simpl; lia].
Qed.

Lemma midRank_mono (v w : Q) (l : list Q) :
  l <> [] -> v <= w -> midRank v l <= midRank w l.
Proof.
  intros Hne Hvw. unfold midRank.
  pose proof (length_positive l Hne) as Hn.
  assert (Hnum : inject_Z (Z.of_nat (countBelow v l))
                 + (1 # 2) * inject_Z (Z.of_nat (countEqual v l))
                 <= inject_Z (Z.of_nat (countBelow w l))
                    + (1 # 2) * inject_Z (Z.of_nat (countEqual w l))).
  { apply Qle_lteq in Hvw as [Hlt | Heq].
    - pose proof (countBelow_step v w l Hlt) as Hstep.
      apply Nat2Z.inj_le in Hstep. rewrite Nat2Z.inj_add in Hstep.
      rewrite Zle_Qle, inject_Z_plus in Hstep.
      assert (0 <= inject_Z (Z.of_nat (countEqual v l))).
      { change 0 with (inject_Z 0). rewrite <- Zle_Qle. lia. }
      assert (0 <= inject_Z (Z.of_nat (countEqual w l))).
      { change 0 with (inject_Z 0). rewrite <- Zle_Qle. lia. }
      lra.
    - destruct (counts_comp v w l Heq) as [-> ->]. apply Qle_refl. }
  apply Qmult_le_compat_r; [|lra].
  apply Qle_shift_div_l; [exact Hn|].
  assert (Hcancel : forall a, a / inject_Z (Z.of_nat (length l))
                              * inject_Z (Z.of_nat (length l)) == a)
    by (intros a; field; lra).
  rewrite Hcancel. exact Hnum.
Qed.

(** X4: [calculatePercentile] never decreases when the value grows, the
    cohort being fixed. *)
Theorem calculatePercentile_monotone (v w : Q) (allValues : list Q) :
  v <= w ->
  (calculatePercentile v allValues <= calculatePercentile w allValues)%Z.
Proof.
  intros Hvw. destruct allValues as [|x l]; [reflexivity|].
  rewrite !calculatePercentile_counts by discriminate.
  pose proof (Math_round_mono _ _ (midRank_mono v w (x :: l)
                                     ltac:(discriminate) Hvw)).
  lia.
Qed.

Lemma calculatePercentile_monotone_witness :
  1 <= 3
  /\ Z.le (calculatePercentile 1 [1; 2; 3; 4])
          (calculatePercentile 3 [1; 2; 3; 4]).
Proof.
  assert (Hle : 1 <= 3) by (unfold Qle; simpl; lia).
  split; [exact Hle|].
  exact (calculatePercentile_monotone 1 3 [1; 2; 3; 4] Hle).
Defined.

(** X5: [calculatePercentile] answers within [0, 100]; 50 on an empty
    cohort; 100 for a value above every value of the cohort and 0 for a
    value below every one. *)
Theorem calculatePercentile_range (value : Q) (allValues : list Q) :
  (0 <= calculatePercentile value allValues <= 100)%Z
  /\ calculatePercentile value [] = 50%Z
  /\ (allValues <> [] -> (forall x, x ∈ allValues -> x < value) ->
      calculatePercentile value allValues = 100%Z)
  /\ (allValues <> [] -> (forall x, x ∈ allValues -> value < x) ->
      calculatePercentile value allValues = 0%Z).
Proof.
  split; [|split; [reflexivity|split]].
  - destruct allValues as [|x l]; [simpl; lia|].
    rewrite calculatePercentile_counts by discriminate. lia.
  - intros Hne Hall. rewrite calculatePercentile_counts by exact Hne.
    assert (Hbelow : countBelow value allValues = length allValues).
    { unfold countBelow. clear Hne.
      induction allValues as [|x l IH]; simpl; [reflexivity|].
      rewrite (proj2 (Qltb_lt x value)) by (apply Hall; left).
      simpl. f_equal. apply IH. intros y Hy. apply Hall. now right. }
    assert (Hequal : countEqual value allValues = 0%nat).
    { pose proof (counts_le_length value allValues). lia. }
    pose proof (length_positive allValues Hne) as Hn.
    rewrite (Math_round_comp _ (inject_Z 100)).
    + rewrite Math_round_Z. reflexivity.
    + unfold midRank. rewrite Hbelow, Hequal.
      change (inject_Z (Z.of_nat 0)) with 0. change (inject_Z 100) with 100.
      field. lra.
  - intros Hne Hall. rewrite calculatePercentile_counts by exact Hne.
    assert (Hcounts : countBelow value allValues = 0%nat
                      /\ countEqual value allValues = 0%nat).
    { unfold countBelow, countEqual. clear Hne.
      induction allValues as [|x l IH]; simpl; [now split|].
      pose proof (Hall x ltac:(left)) as Hx.
      rewrite (proj2 (Qltb_ge x value)) by lra.
      assert (Hneq : Qeq_bool x value = false).
      { apply not_true_iff_false. intros Heq. apply Qeq_bool_iff in Heq. lra. }
      rewrite Hneq. apply IH. intros y Hy. apply Hall. now right. }
    destruct Hcounts as [Hbelow Hequal].
    pose proof (length_positive allValues Hne) as Hn.
    rewrite (Math_round_comp _ (inject_Z 0)).
    + rewrite Math_round_Z. reflexivity.
    + unfold midRank. rewrite Hbelow, Hequal.
      change (inject_Z (Z.of_nat 0)) with 0. change (inject_Z 0) with 0.
      field. lra.
Qed.

Lemma calculatePercentile_range_witness :
  [1; 2; 3] <> []
  /\ (forall x, x ∈ [1; 2; 3] -> x < 5)
  /\ calculatePercentile 5 [1; 2; 3] = 100%Z.
Proof.
  assert (Hall : forall x : Q, x ∈ [1; 2; 3] -> x < 5).
  { intros x Hx.
    repeat (apply elem_of_cons in Hx as [-> | Hx]); [| | |inversion Hx];
      reflexivity. }
  split; [discriminate|]. split; [exact Hall|].
  exact (proj1 (proj2 (proj2 (calculatePercentile_range 5 [1; 2; 3])))
           ltac:(discriminate) Hall).
Defined.

(** ** Extraction *)

Lemma ascii_compare_lt_trans (a b c : ascii) :
  Ascii.compare a b = Lt -> Ascii.compare b c = Lt -> Ascii.compare a c = Lt.
Proof.
  unfold Ascii.compare. rewrite !N.compare_lt_iff. lia.
Qed.

Lemma string_lt_trans (a b c : string) :
  string_lt a b -> string_lt b c -> string_lt a c.
Proof.
  unfold string_lt. revert b c.
  induction a as [|x a IH]; intros [|y b] [|z c]; simpl; try congruence.
  destruct (Ascii.compare x y) eqn:Hxy; try discriminate.
  - apply Ascii.compare_eq_iff in Hxy. subst y.
    destruct (Ascii.compare x z); try congruence. apply IH.
  - intros _. destruct (Ascii.compare y z) eqn:Hyz; try discriminate.
    + apply Ascii.compare_eq_iff in Hyz. subst z. now rewrite Hxy.
    + intros _. now rewrite (ascii_compare_lt_trans x y z).
Qed.

Lemma string_cmp_total (a b : string) :
  keeps_order string_cmp a b = false -> keeps_order string_cmp b a = true.
Proof.
  unfold keeps_order, string_cmp. rewrite (String.compare_antisym b a).
  destruct (String.compare a b); simpl; intros Hab;
    first [discriminate | reflexivity].
Qed.

Lemma elem_of_Array_sort {A} (cmp : A -> A -> number) (l : list A) (x : A) :
  x ∈ Array_sort cmp l <-> x ∈ l.
Proof. now rewrite (Array_sort_perm cmp l). Qed.

Lemma NoDup_Array_sort {A} (cmp : A -> A -> number) (l : list A) :
  NoDup l -> NoDup (Array_sort cmp l).
Proof. now rewrite (Array_sort_perm cmp l). Qed.

(** [sort()] on distinct strings gives a strictly increasing list. *)
Lemma Array_sort_strings (l : list string) :
  NoDup l -> StronglySorted string_lt (Array_sort string_cmp l).
Proof.
  intros Hnodup. apply Sorted_StronglySorted.
  { intros a b c. apply string_lt_trans. }
  pose proof (NoDup_Array_sort string_cmp l Hnodup) as Hnd.
  pose proof (Array_sort_sorted string_cmp l string_cmp_total) as Hsorted.
  induction Hsorted as [|a k Hk IH Hhd]; constructor.
  - apply IH. now apply NoDup_cons_1_2 in Hnd.
  - destruct Hhd as [|b k Hab]; constructor.
    unfold keeps_order, string_cmp in Hab. unfold string_lt.
    destruct (String.compare a b) eqn:Hcmp; try reflexivity.
    + apply String.compare_eq_iff in Hcmp. subst b.
      apply NoDup_cons_1_1 in Hnd. exfalso. apply Hnd. left.
    + discriminate.
Qed.

Lemma elem_of_List_filter {A} (f : A -> bool) (l : list A) (x : A) :
  x ∈ List.filter f l <-> x ∈ l /\ f x = true.
Proof. rewrite !list_elem_of_In. apply filter_In. Qed.

Lemma NoDup_List_filter {A} (f : A -> bool) (l : list A) :
  NoDup l -> NoDup (List.filter f l).
Proof.
  induction 1 as [|x l Hx _ IH]; simpl; [constructor|].
  destruct (f x); [|exact IH].
  constructor; [|exact IH]. rewrite elem_of_List_filter. tauto.
Qed.

Lemma Set_from_acc `{EqDecision A} (l acc : list A) :
  let result :=
    foldl (fun acc x => if decide (x ∈ acc) then acc else acc ++ [x]) acc l in
  (forall x, x ∈ result <-> x ∈ acc \/ x ∈ l)
  /\ (NoDup acc -> NoDup result).
Proof.
  revert acc. induction l as [|y l IH]; intros acc; simpl.
  - split; [|tauto]. intros x. rewrite elem_of_nil. tauto.
  - destruct (decide (y ∈ acc)) as [Hin | Hout].
    + destruct (IH acc) as [Hmem Hnd]. split; [|exact Hnd].
      intros x. rewrite Hmem, elem_of_cons.
      split; [tauto|]. intros [Hx | [-> | Hx]]; tauto.
    + destruct (IH (acc ++ [y])) as [Hmem Hnd]. split.
      * intros x. rewrite Hmem, elem_of_app, list_elem_of_singleton,
          elem_of_cons. tauto.
      * intros Hacc. apply Hnd. apply NoDup_app. split; [exact Hacc|].
        split; [|apply NoDup_singleton].
        intros x Hx Hy. apply list_elem_of_singleton in Hy. now subst.
Qed.

Lemma elem_of_Set_from `{EqDecision A} (l : list A) (x : A) :
  x ∈ Set_from l <-> x ∈ l.
Proof.
  unfold Set_from. destruct (Set_from_acc l []) as [Hmem _].
  rewrite Hmem, elem_of_nil. tauto.
Qed.

Lemma NoDup_Set_from `{EqDecision A} (l : list A) : NoDup (Set_from l).
Proof.
  unfold Set_from. destruct (Set_from_acc l []) as [_ Hnd].
  apply Hnd. constructor.
Qed.

Lemma truthy_string_true (s : string) :
  truthy_string s = true <-> (s <> "")%string.
Proof.
  unfold truthy_string. rewrite negb_true_iff.
  destruct (String.eqb_spec s ""); split; congruence.
Qed.

(** X6: [extractNumericMetricKeys] looks at the first row only: a key is
    returned exactly when the first row holds a number under it and the
    key is neither an identification column nor a profile column; the keys
    come in strictly increasing order, hence without duplicates, and none
    for an empty table. *)
Theorem extractNumericMetricKeys_spec (data : list PlayerData) (key : string) :
  (key ∈ extractNumericMetricKeys data
   <-> exists sample rest,
         data = sample :: rest
         /\ (exists q, sample !! key = Some (VNum q))
         /\ (key ∉ EXCLUDED_METRIC_KEYS)
         /\ (key ∉ PROFILE_KEYS))
  /\ StronglySorted string_lt (extractNumericMetricKeys data)
  /\ extractNumericMetricKeys [] = [].
Proof.
  split; [|split; [|reflexivity]].
  - unfold extractNumericMetricKeys. destruct data as [|sample rest].
    + rewrite elem_of_nil. split; [tauto|]. intros (s & r & Heq & _).
      discriminate.
    + rewrite elem_of_Array_sort, elem_of_List_filter.
      unfold includes. rewrite !andb_true_iff, !negb_true_iff,
        !bool_decide_eq_false.
      unfold Object_keys. rewrite list_elem_of_fmap. split.
      * intros [_ [[Hnum Hex] Hprof]].
        exists sample, rest. split; [reflexivity|]. split; [|tauto].
        unfold is_number in Hnum.
        destruct (sample !! key) as [[s|q]|]; try discriminate. now exists q.
      * intros (s & r & Heq & (q & Hq) & Hex & Hprof).
        injection Heq as <- <-. split.
        -- exists (key, VNum q). split; [reflexivity|].
           now apply elem_of_map_to_list.
        -- unfold is_number. rewrite Hq. tauto.
  - unfold extractNumericMetricKeys. destruct data as [|sample rest].
    + constructor.
    + apply Array_sort_strings, NoDup_List_filter.
      apply NoDup_fst_map_to_list.
Qed.

Lemma foldl_insert_lookup {V} (f : string -> V) (keys : list string)
    (m : gmap string V) (key : string) :
  foldl (fun acc k => <[k := f k]> acc) m keys !! key
  = if decide (key ∈ keys) then Some (f key) else m !! key.
Proof.
  revert m. induction keys as [|k keys IH]; intros m; simpl.
  - destruct (decide (key ∈ [])) as [Hin|]; [inversion Hin | reflexivity].
  - rewrite IH. destruct (decide (key ∈ keys)) as [Hin | Hout].
    + rewrite decide_True by now right. reflexivity.
    + destruct (decide (key = k)) as [-> | Hne].
      * rewrite decide_True by left. apply lookup_insert_eq.
      * rewrite decide_False.
        -- now apply lookup_insert_ne.
        -- rewrite elem_of_cons. tauto.
Qed.

(** X7: [calculateAllMetricBounds] holds, under each extracted metric key,
    the bounds that [calculateMetricBounds] computes for that key, and no
    entry under any other key. *)
Theorem calculateAllMetricBounds_lookup `{Runtime} (data : list PlayerData)
    (key : string) :
  calculateAllMetricBounds data !! key
  = if decide (key ∈ extractNumericMetricKeys data)
    then Some (calculateMetricBounds data key)
    else None.
Proof.
  unfold calculateAllMetricBounds.
  rewrite (foldl_insert_lookup (calculateMetricBounds data)).
  destruct (decide _); [reflexivity | apply lookup_empty].
Qed.


End MorePlayerServiceProofs.

(** * More on the similarity search *)

Section MoreSimilarityProofs.
Import JS PlayerService Reference SimilarityService.
Context `{Runtime}.

Lemma elem_of_slice0 {A} (n : Z) (l : list A) (x : A) :
  x ∈ slice0 n l -> x ∈ l.
Proof.
  unfold slice0. destruct (n <? 0)%Z; intros Hx;
    apply elem_of_take in Hx as (i & Hi & _);
    now apply list_elem_of_lookup_2 in Hi.
Qed.

Lemma slice0_length {A} (n : Z) (l : list A) :
  (0 <= n)%Z -> (Z.of_nat (length (slice0 n l)) <= n)%Z.
Proof.
  intros Hn. unfold slice0.
  rewrite (proj2 (Z.ltb_ge n 0)) by lia.
  pose proof (firstn_le_length (Z.to_nat n) l). lia.
Qed.

(** What a result of [findSimilarPlayers] is made of: a candidate that
    passed the four filters. *)
Lemma findSimilarPlayers_origin (referencePlayer : PlayerData)
    (candidates : list PlayerData) (options : SimilarityOptions)
    (r : SimilarityResult) :
  r ∈ findSimilarPlayers referencePlayer candidates options ->
  r.(player) ∈ candidates
  /\ r.(matchedMetrics) = length (extractNumericMetricKeys candidates)
  /\ (if strict_eq (r.(player) !! "Player"%string)
                   (referencePlayer !! "Player"%string)
         && strict_eq (r.(player) !! "Team"%string)
                      (referencePlayer !! "Team"%string)
      then false
      else if default false options.(samePositionOnly)
              && negb (existsb
                         (fun rp => bool_decide (rp ∈ position_list r.(player)))
                         (position_list referencePlayer))
      then false
      else if default false options.(excludeSameTeam)
              && strict_eq (r.(player) !! "Team"%string)
                           (referencePlayer !! "Team"%string)
      then false
      else if Qltb (Number_or0 (r.(player) !! "Minutes played"%string))
                   (default 450 options.(minMinutes))
      then false
      else true) = true.
Proof.
  intros Hr. unfold findSimilarPlayers in Hr.
  apply elem_of_slice0, elem_of_Array_sort in Hr.
  apply list_elem_of_In, in_map_iff in Hr as (candidate & <- & Hcand).
  apply filter_In in Hcand as [Hin Hpass].
  apply list_elem_of_In in Hin.
  match goal with
  | |- context [let '(_, _) := ?X in _] => destruct X as [d b]
  end.
  cbn [player matchedMetrics]. split; [exact Hin|]. split; [reflexivity|].
  exact Hpass.
Qed.

(** X9: every result of [findSimilarPlayers] is one of the candidates;
    it is never the reference player (same [Player] and same [Team]);
    it has played at least [minMinutes] minutes (450 by default); and
    there are at most [maxResults] results (10 by default). *)
Theorem findSimilarPlayers_filters (referencePlayer : PlayerData)
    (candidates : list PlayerData) (options : SimilarityOptions) :
  (forall r, r ∈ findSimilarPlayers referencePlayer candidates options ->
     r.(player) ∈ candidates
     /\ ~ (strict_eq (r.(player) !! "Player"%string)
                     (referencePlayer !! "Player"%string) = true
           /\ strict_eq (r.(player) !! "Team"%string)
                        (referencePlayer !! "Team"%string) = true)
     /\ default 450 options.(minMinutes)
        <= Number_or0 (r.(player) !! "Minutes played"%string))
  /\ ((0 <= default 10 options.(maxResults))%Z ->
      (Z.of_nat (length (findSimilarPlayers referencePlayer candidates options))
       <= default 10 options.(maxResults))%Z).
Proof.
  split.
  - intros r Hr.
    destruct (findSimilarPlayers_origin _ _ _ _ Hr) as (Hin & _ & Hpass).
    split; [exact Hin|].
    split.
    + intros [Hname Hteam]. rewrite Hname, Hteam in Hpass. discriminate.
    + repeat match type of Hpass with
             | (if ?c then false else _) = true =>
                 destruct c eqn:?; [discriminate|]
             end.
      match goal with
      | Hlt : Qltb _ _ = false |- _ => now apply Qltb_ge in Hlt
      end.
  - intros Hmax. unfold findSimilarPlayers. now apply slice0_length.
Qed.

(** X10: under [samePositionOnly] every result shares one of its
    (comma-separated, trimmed) positions with the reference player, and
    under [excludeSameTeam] no result has the reference player's team. *)
Theorem findSimilarPlayers_restrictions (referencePlayer : PlayerData)
    (candidates : list PlayerData) (options : SimilarityOptions)
    (r : SimilarityResult) :
  r ∈ findSimilarPlayers referencePlayer candidates options ->
  (options.(samePositionOnly) = Some true ->
   exists position,
     position ∈ position_list referencePlayer
     /\ position ∈ position_list r.(player))
  /\ (options.(excludeSameTeam) = Some true ->
      strict_eq (r.(player) !! "Team"%string)
                (referencePlayer !! "Team"%string) = false).
Proof.
  intros Hr.
  destruct (findSimilarPlayers_origin _ _ _ _ Hr) as (_ & _ & Hpass).
  destruct (_ && _) eqn:Hself in Hpass; [discriminate|].
  split.
  - intros Hopt. rewrite Hopt in Hpass. cbn [default andb] in Hpass.
    destruct (existsb _ _) eqn:Hex; [|discriminate].
    apply existsb_exists in Hex as (position & Hin & Hmem).
    exists position. apply list_elem_of_In in Hin.
    apply bool_decide_eq_true in Hmem. now split.
  - intros Hopt.
    destruct (default false (samePositionOnly options) && _);
      [discriminate|].
    rewrite Hopt in Hpass. cbn [default andb] in Hpass.
    destruct (strict_eq (player r !! "Team"%string)
                        (referencePlayer !! "Team"%string)) eqn:Hteam;
      [discriminate | reflexivity].
Qed.

Lemma normalizeValue_comp (v w : Q) (bounds : MetricBounds) :
  v == w -> normalizeValue v bounds == normalizeValue w bounds.
Proof.
  intros Hvw. unfold normalizeValue. destruct (Qeq_bool _ _); [reflexivity|].
  now rewrite Hvw.
Qed.

Lemma sumSquaredDiff_same (referencePlayer candidate : PlayerData)
    (bounds : gmap string MetricBounds) (metricKeys : list string) (acc : Q) :
  (forall key, key ∈ metricKeys ->
     Number_or0 (candidate !! key) == Number_or0 (referencePlayer !! key)) ->
  foldl (fun sumSquaredDiff key =>
           let '(valA, valB) :=
             normalised_pair referencePlayer candidate bounds key in
           sumSquaredDiff + (valA - valB) ^ 2)
        acc metricKeys == acc.
Proof.
  revert acc. induction metricKeys as [|key keys IH]; intros acc Hsame; simpl.
  - reflexivity.
  - rewrite IH by (intros k Hk; apply Hsame; now right).
    rewrite (normalizeValue_comp _ _ (bounds !!! key)
               (Hsame key ltac:(left))).
    change ((?x - ?x) ^ 2) with ((x - x) * (x - x)). ring.
Qed.

Lemma euclidean_score_in_range `{!SqrtLaws} (playerA playerB : PlayerData)
    (metricKeys : list string) (bounds : gmap string MetricBounds) :
  metricKeys <> [] ->
  in_0_100
    (similarityScore
       (SimilarityService.euclideanDistance playerA playerB metricKeys bounds)
       (length metricKeys)).
Proof.
  intros Hkeys. unfold SimilarityService.euclideanDistance, Math_sqrt.
  match goal with
  | |- context [Qltb ?sum 0] =>
      assert (Hsum : 0 <= sum) by (apply sumSquaredDiff_nonneg; lra);
      rewrite (proj2 (Qltb_ge sum 0) Hsum)
  end.
  apply similarityScore_in_range.
  - now apply sqrt_nonneg.
  - destruct metricKeys; [contradiction | simpl; lia].
Qed.

Lemma euclidean_results_in_range `{!SqrtLaws} (referencePlayer : PlayerData)
    (candidates : list PlayerData) (options : SimilarityOptions)
    (r : SimilarityResult) :
  default euclidean options.(algorithm) = euclidean ->
  extractNumericMetricKeys candidates <> [] ->
  r ∈ findSimilarPlayers referencePlayer candidates options ->
  in_0_100 r.(score).
Proof.
  intros Halgo Hkeys Hr. unfold findSimilarPlayers in Hr. rewrite Halgo in Hr.
  apply elem_of_slice0, elem_of_Array_sort in Hr.
  apply list_elem_of_In, in_map_iff in Hr as (candidate & <- & _).
  cbn [score]. now apply euclidean_score_in_range.
Qed.

(** X11: with the default (Euclidean) algorithm and at least one metric,
    a candidate whose metric values all equal the reference player's gets
    the score 100, and no result scores more: every score is a number of
    [0, 100]. *)
Theorem findSimilarPlayers_twin `{!SqrtLaws} (referencePlayer : PlayerData)
    (candidates : list PlayerData) (options : SimilarityOptions)
    (r : SimilarityResult) :
  default euclidean options.(algorithm) = euclidean ->
  extractNumericMetricKeys candidates <> [] ->
  r ∈ findSimilarPlayers referencePlayer candidates options ->
  same_metrics referencePlayer r.(player) candidates ->
  r.(score) = Fin 100
  /\ forall r', r' ∈ findSimilarPlayers referencePlayer candidates options ->
                scores_at_least r r'.
Proof.
  intros Halgo Hkeys Hr Hsame.
  assert (Hscore : score r = Fin 100).
  { unfold findSimilarPlayers in Hr. rewrite Halgo in Hr.
    apply elem_of_slice0, elem_of_Array_sort in Hr.
    apply list_elem_of_In, in_map_iff in Hr as (candidate & <- & _).
    cbn [score player] in *.
    unfold SimilarityService.euclideanDistance, Math_sqrt.
    match goal with
    | |- context [Qltb ?sum 0] =>
        assert (Hsum : sum == 0) by (apply sumSquaredDiff_same, Hsame);
        rewrite (proj2 (Qltb_ge sum 0)) by (rewrite Hsum; apply Qle_refl);
        pose proof (sqrt_zero sum Hsum) as Hroot
    end.
    assert (Hpos : 0 < sqrtQ (inject_Z (Z.of_nat
                     (length (extractNumericMetricKeys candidates))))).
    { apply sqrt_pos. change 0 with (inject_Z 0). rewrite <- Zlt_Qlt.
      destruct (extractNumericMetricKeys candidates);
        [contradiction | simpl; lia]. }
    rewrite similarityScore_formula by exact Hpos.
    rewrite (Math_round_comp _ (inject_Z 100)).
    - rewrite Math_round_Z. reflexivity.
    - rewrite Hroot. change (inject_Z 100) with 100. field. lra. }
  split; [exact Hscore|].
  intros r' Hr'.
  pose proof (euclidean_results_in_range referencePlayer candidates options r'
                Halgo Hkeys Hr') as Hrange.
  unfold in_0_100 in Hrange.
  destruct (score r') as [y| | |] eqn:Hy; try contradiction.
  exists 100, y. split; [exact Hscore|]. split; [exact Hy|]. tauto.
Qed.

Lemma score_order_total (a b : SimilarityResult) :
  keeps_order (fun a b => sub b.(score) a.(score)) a b = false ->
  keeps_order (fun a b => sub b.(score) a.(score)) b a = true.
Proof.
  unfold keeps_order, sub.
  destruct (score a) as [x| | |], (score b) as [y| | |]; simpl;
    try discriminate; try reflexivity.
  intros Hxy. apply Qle_bool_iff. apply not_true_iff_false in Hxy.
  rewrite Qle_bool_iff in Hxy. apply Qnot_le_lt in Hxy. lra.
Qed.

Lemma Sorted_mono_Forall {A} (P : A -> Prop) (R R' : A -> A -> Prop)
    (l : list A) :
  (forall a b, P a -> P b -> R a b -> R' a b) ->
  Forall P l -> Sorted R l -> Sorted R' l.
Proof.
  intros Himpl HP. induction 1 as [|a l _ IH Hhd]; constructor.
  - apply IH. now apply Forall_cons in HP as [_ HP].
  - destruct Hhd as [|b l Hab]; constructor.
    apply Forall_cons in HP as [Ha HP]. apply Forall_cons in HP as [Hb _].
    now apply Himpl.
Qed.

Lemma StronglySorted_slice0 {A} (R : A -> A -> Prop) (n : Z) (l : list A) :
  StronglySorted R l -> StronglySorted R (slice0 n l).
Proof.
  intros Hs. unfold slice0.
  destruct (n <? 0)%Z;
    match goal with
    | |- StronglySorted R (take ?k l) =>
        rewrite <- (take_drop k l) in Hs;
        now apply StronglySorted_app_1_l in Hs
    end.
Qed.

(** X12: with the default (Euclidean) algorithm and at least one metric,
    the results come in descending order of score: each result scores at
    least as much as every result after it. *)
Theorem findSimilarPlayers_sorted `{!SqrtLaws} (referencePlayer : PlayerData)
    (candidates : list PlayerData) (options : SimilarityOptions) :
  default euclidean options.(algorithm) = euclidean ->
  extractNumericMetricKeys candidates <> [] ->
  StronglySorted scores_at_least
    (findSimilarPlayers referencePlayer candidates options).
Proof.
  intros Halgo Hkeys. unfold findSimilarPlayers. rewrite Halgo.
  apply StronglySorted_slice0, Sorted_StronglySorted.
  { intros a b c (x & y & Ha & Hb & Hxy) (y' & z & Hb' & Hc & Hyz).
    rewrite Hb in Hb'. injection Hb' as <-.
    exists x, z. split; [exact Ha|]. split; [exact Hc|].
    eapply Qle_trans; eassumption. }
  eapply (Sorted_mono_Forall (fun r => in_0_100 r.(score)));
    [| |apply Array_sort_sorted, score_order_total].
  - intros a b Ha Hb Hab. unfold keeps_order, sub in Hab.
    unfold in_0_100 in Ha, Hb.
    destruct (score a) as [x| | |] eqn:Hx; try contradiction.
    destruct (score b) as [y| | |] eqn:Hy; try contradiction.
    simpl in Hab. apply Qle_bool_iff in Hab.
    exists x, y. split; [exact Hx|]. split; [exact Hy|]. lra.
  - apply Array_sort_Forall, Forall_map, Forall_forall.
    intros candidate _. cbn [score].
    now apply euclidean_score_in_range.
Qed.

End MoreSimilarityProofs.

Section MoreSimilarityExamples.
Import JS PlayerService Reference SimilarityService.
#[local] Existing Instance sample_runtime.

(** The second scenario of the specification: a goalkeeper is not
    returned for a striker under [samePositionOnly]. *)
Lemma findSimilarPlayers_restrictions_witness :
  let reference := positioned "Striker" "Paris" "ST" 1 in
  let candidates := [positioned "Keeper" "Lyon" "GK" 0;
                     positioned "Forward" "Nice" "ST, LW" (1 # 2)] in
  exists r,
    findSimilarPlayers reference candidates (position_options true false) = [r]
    /\ r.(player) = positioned "Forward" "Nice" "ST, LW" (1 # 2)
    /\ exists position,
         position ∈ position_list reference
         /\ position ∈ position_list r.(player).
Proof.
  cbv zeta. eexists. split; [vm_compute; reflexivity|].
  split; [reflexivity|].
  refine (proj1 (findSimilarPlayers_restrictions
                   (positioned "Striker" "Paris" "ST" 1)
                   [positioned "Keeper" "Lyon" "GK" 0;
                    positioned "Forward" "Nice" "ST, LW" (1 # 2)]
                   (position_options true false) _ _) eq_refl).
  vm_compute. left.
Defined.

Lemma findSimilarPlayers_filters_witness :
  let reference := positioned "Striker" "Paris" "ST" 1 in
  let candidates := [positioned "Striker" "Paris" "ST" 1;
                     positioned "Forward" "Nice" "ST, LW" (1 # 2)] in
  exists r,
    r ∈ findSimilarPlayers reference candidates no_options
    /\ r.(player) ∈ candidates
    /\ 450 <= Number_or0 (r.(player) !! "Minutes played"%string).
Proof.
  cbv zeta.
  assert (Hres : exists r,
            findSimilarPlayers (positioned "Striker" "Paris" "ST" 1)
              [positioned "Striker" "Paris" "ST" 1;
               positioned "Forward" "Nice" "ST, LW" (1 # 2)] no_options = [r]).
  { eexists. vm_compute. reflexivity. }
  destruct Hres as [r Hres]. exists r.
  assert (Hin : r ∈ findSimilarPlayers (positioned "Striker" "Paris" "ST" 1)
                      [positioned "Striker" "Paris" "ST" 1;
                       positioned "Forward" "Nice" "ST, LW" (1 # 2)]
                      no_options) by (rewrite Hres; left).
  split; [exact Hin|].
  destruct (proj1 (findSimilarPlayers_filters _ _ _) r Hin) as (Hc & _ & Hm).
  split; [exact Hc | exact Hm].
Defined.

Lemma findSimilarPlayers_twin_witness :
  let reference := positioned "Striker" "Paris" "ST" 1 in
  let twin := positioned "Twin" "Lyon" "ST" 1 in
  let candidates := [positioned "Forward" "Nice" "ST, LW" (1 # 2); twin] in
  exists r,
    r ∈ findSimilarPlayers reference candidates no_options
    /\ same_metrics reference r.(player) candidates
    /\ r.(score) = Fin 100
    /\ forall r', r' ∈ findSimilarPlayers reference candidates no_options ->
                  scores_at_least r r'.
Proof.
  cbv zeta.
  assert (Hres : exists r rest,
            findSimilarPlayers (positioned "Striker" "Paris" "ST" 1)
              [positioned "Forward" "Nice" "ST, LW" (1 # 2);
               positioned "Twin" "Lyon" "ST" 1] no_options = r :: rest
            /\ player r = positioned "Twin" "Lyon" "ST" 1).
  { eexists. eexists. split; [vm_compute; reflexivity | reflexivity]. }
  destruct Hres as (r & rest & Hres & Hplayer). exists r.
  assert (Hin : r ∈ findSimilarPlayers (positioned "Striker" "Paris" "ST" 1)
                      [positioned "Forward" "Nice" "ST, LW" (1 # 2);
                       positioned "Twin" "Lyon" "ST" 1] no_options)
    by (rewrite Hres; left).
  assert (Hsame : same_metrics (positioned "Striker" "Paris" "ST" 1) (player r)
                    [positioned "Forward" "Nice" "ST, LW" (1 # 2);
                     positioned "Twin" "Lyon" "ST" 1]).
  { rewrite Hplayer. intros key Hkey. vm_compute in Hkey.
    apply list_elem_of_singleton in Hkey. subst key. vm_compute. reflexivity. }
  split; [exact Hin|]. split; [exact Hsame|].
  apply (findSimilarPlayers_twin _ _ no_options r eq_refl); try assumption.
  vm_compute. discriminate.
Defined.

Lemma findSimilarPlayers_sorted_witness :
  let reference := positioned "Striker" "Paris" "ST" 1 in
  let candidates := [positioned "Forward" "Nice" "ST, LW" (1 # 2);
                     positioned "Twin" "Lyon" "ST" 1] in
  default SimilarityService.euclidean no_options.(algorithm)
  = SimilarityService.euclidean
  /\ extractNumericMetricKeys candidates <> []
  /\ StronglySorted scores_at_least
       (findSimilarPlayers reference candidates no_options).
Proof.
  cbv zeta.
  assert (Hkeys : extractNumericMetricKeys
                    [positioned "Forward" "Nice" "ST, LW" (1 # 2);
                     positioned "Twin" "Lyon" "ST" 1] <> [])
    by (vm_compute; discriminate).
  split; [reflexivity|]. split; [exact Hkeys|].
  exact (findSimilarPlayers_sorted _ _ no_options eq_refl Hkeys).
Defined.

End MoreSimilarityExamples.

(** * More on the clustering *)

Section MoreAnalyticsProofs.
Import JS PlayerService Reference AnalyticsService.
Context `{Runtime}.
Variable generateClusterLabel :
  list PlayerData -> list string -> gmap string MetricBounds -> string.

(** X13: the clusters come in descending order of size. *)
Theorem kMeansClustering_sorted_by_size (data : list PlayerData)
    (config : ClusterConfig) :
  StronglySorted (fun a b => (b.(size) <= a.(size))%nat)
                 (kMeansClustering generateClusterLabel data config).
Proof.
  unfold kMeansClustering. destruct (_ || _); [constructor|].
  apply Sorted_StronglySorted; [intros a b c; lia|].
  eapply Sorted_mono; [|apply Array_sort_sorted].
  - intros a b Hab. unfold keeps_order in Hab. apply Qle_bool_iff in Hab.
    assert (Hz : inject_Z (Z.of_nat (size b)) <= inject_Z (Z.of_nat (size a)))
      by lra.
    rewrite <- Zle_Qle in Hz. lia.
  - intros a b Hab. unfold keeps_order in *. apply Qle_bool_iff.
    apply not_true_iff_false in Hab. rewrite Qle_bool_iff in Hab.
    apply Qnot_le_lt in Hab. lra.
Qed.

(** ** Every player lands in one cluster *)

Lemma nearest_fold_bound (vector : list Q) (K : nat)
    (pairs : list (nat * list Q)) (minDist : number) (minIndex : nat) :
  (minIndex < K)%nat ->
  Forall (fun p => (p.1 < K)%nat) pairs ->
  ((foldl (fun '(minDist, minIndex) '(idx, centroid) =>
             let dist := euclideanDistance vector centroid in
             if ltb dist minDist then (dist, idx) else (minDist, minIndex))
          (minDist, minIndex) pairs).2 < K)%nat.
Proof.
  revert minDist minIndex.
  induction pairs as [|[idx centroid] pairs IH];
    intros minDist minIndex Hmin Hall; simpl.
  - exact Hmin.
  - apply Forall_cons in Hall as [Hidx Hall].
    destruct (ltb _ minDist); apply IH; assumption.
Qed.

Lemma nearestCentroid_bound (centroids : list (list Q)) (vector : list Q) :
  centroids <> [] ->
  (nearestCentroid centroids vector < length centroids)%nat.
Proof.
  intros Hne. unfold nearestCentroid.
  pose proof (nearest_fold_bound vector (length centroids)
                (imap (fun idx centroid => (idx, centroid)) centroids)
                PInf 0%nat) as Hbound.
  destruct (foldl _ _ _) as [minDist minIndex]. apply Hbound.
  - destruct centroids; [contradiction | simpl; lia].
  - apply Forall_forall. intros p Hp.
    apply elem_of_lookup_imap in Hp as (i & c & -> & Hi). simpl.
    now apply lookup_lt_Some in Hi.
Qed.

(** The loop keeps the number of centroids, gives every vector an
    assignment, and each assignment designates a centroid. *)
Lemma iterate_invariant (fuel : nat) (vectors : list PlayerVector)
    (centroids : list (list Q)) (assignments : list nat) :
  centroids <> [] ->
  length assignments = length vectors ->
  Forall (fun a => (a < length centroids)%nat) assignments ->
  let st := iterate fuel vectors centroids assignments in
  length st.(final_centroids) = length centroids
  /\ length st.(final_assignments) = length vectors
  /\ Forall (fun a => (a < length centroids)%nat) st.(final_assignments).
Proof.
  revert centroids assignments.
  induction fuel as [|fuel IH]; intros centroids assignments Hne Hlen Hall;
    simpl.
  - auto.
  - destruct (arraysEqual _ _); simpl; [auto|].
    assert (Hupdated : length (updateCentroids vectors (assign vectors centroids)
                                  centroids) = length centroids)
      by apply length_imap.
    destruct (IH (updateCentroids vectors (assign vectors centroids) centroids)
                 (assign vectors centroids)) as (Hc & Ha & Hb).
    + intros Hnil. rewrite Hnil in Hupdated.
      destruct centroids; [contradiction | discriminate].
    + apply length_map.
    + rewrite Hupdated. unfold assign. apply Forall_map, Forall_forall.
      intros v _. now apply nearestCentroid_bound.
    + rewrite Hupdated in Hc, Hb. auto.
Qed.

Lemma concat_Permutation {A} (l k : list (list A)) :
  l ≡ₚ k -> concat l ≡ₚ concat k.
Proof.
  induction 1 as [|x l k _ IH|x y l|l k m _ IH1 _ IH2]; simpl.
  - reflexivity.
  - now rewrite IH.
  - rewrite !app_assoc. f_equiv. apply Permutation_app_comm.
  - now rewrite IH1.
Qed.

(** Adding [x] to the list of one index adds it to the concatenation. *)
Lemma concat_add_one {A} (x : A) (a : nat) (g : nat -> list A)
    (idxs : list nat) :
  NoDup idxs -> a ∈ idxs ->
  concat (List.map (fun idx => if bool_decide (a = idx) then x :: g idx
                               else g idx) idxs)
  ≡ₚ x :: concat (List.map g idxs).
Proof.
  induction 1 as [|i idxs Hi Hnd IH]; intros Ha; [inversion Ha|].
  simpl. destruct (bool_decide_reflect (a = i)) as [-> | Hne].
  - simpl. f_equiv. f_equiv.
    apply Permutation_refl'. f_equal. apply map_ext_in. intros idx Hidx.
    rewrite bool_decide_eq_false_2; [reflexivity|].
    intros ->. apply Hi. now apply list_elem_of_In.
  - apply elem_of_cons in Ha as [-> | Ha]; [contradiction|].
    rewrite (IH Ha). symmetry. apply Permutation_middle.
Qed.

Lemma members_cover {A} (assignments : list nat) (K : nat) (l : list A)
    (start : nat) :
  (forall j, (j < length l)%nat ->
     exists a, assignments !! (start + j)%nat = Some a /\ (a < K)%nat) ->
  concat (List.map
            (fun idx =>
               filteri_from
                 (fun i _ => bool_decide (assignments !! i = Some idx))
                 start l)
            (seq 0 K))
  ≡ₚ l.
Proof.
  revert start. induction l as [|x l IH]; intros start Hasg.
  - simpl. induction (seq 0 K) as [|i idxs IHi]; simpl; [reflexivity|].
    exact IHi.
  - destruct (Hasg 0%nat ltac:(simpl; lia)) as (a & Ha & HaK).
    rewrite Nat.add_0_r in Ha.
    transitivity
      (x :: concat (List.map
                      (fun idx =>
                         filteri_from
                           (fun i _ => bool_decide (assignments !! i = Some idx))
                           (S start) l)
                      (seq 0 K))).
    + rewrite <- (concat_add_one x a _ (seq 0 K)).
      * apply Permutation_refl'. f_equal. apply map_ext. intros idx.
        simpl. rewrite Ha.
        destruct (bool_decide_reflect (a = idx)) as [-> | Hne].
        -- rewrite bool_decide_eq_true_2 by reflexivity. reflexivity.
        -- rewrite bool_decide_eq_false_2 by congruence. reflexivity.
      * apply NoDup_seq.
      * apply elem_of_seq. lia.
    + constructor. apply IH.
      intros j Hj. destruct (Hasg (S j) ltac:(simpl; lia)) as (b & Hb & HbK).
      exists b. split; [|exact HbK]. rewrite <- Hb. f_equal. lia.
Qed.

Lemma map_imap_seq {A B C} (f : nat -> A -> C) (h : C -> B) (g : nat -> B)
    (l : list A) :
  (forall i x, h (f i x) = g i) ->
  List.map h (imap f l) = List.map g (seq 0 (length l)).
Proof.
  intros Hfg. revert f g Hfg.
  induction l as [|x l IH]; intros f g Hfg; [reflexivity|].
  rewrite imap_cons. simpl. rewrite Hfg. f_equal.
  rewrite <- seq_shift, map_map. apply IH. intros i y. apply Hfg.
Qed.

Lemma concat_players_filter (results : list ClusterResult) :
  Forall (fun r => r.(size) = length r.(players)) results ->
  concat (List.map players
            (List.filter (fun r => bool_decide (0 < r.(size))%nat) results))
  = concat (List.map players results).
Proof.
  induction 1 as [|r results Hr _ IH]; simpl; [reflexivity|].
  destruct (bool_decide_reflect (0 < size r)%nat) as [Hpos | Hzero]; simpl.
  - now rewrite IH.
  - rewrite IH. destruct (players r); [reflexivity | simpl in Hr; lia].
Qed.

Lemma NoDup_map_filter {A B} (f : A -> B) (p : A -> bool) (l : list A) :
  NoDup (List.map f l) -> NoDup (List.map f (List.filter p l)).
Proof.
  induction l as [|x l IH]; simpl; intros Hnd; [constructor|].
  apply NoDup_cons in Hnd as [Hx Hnd].
  destruct (p x); simpl; [|now apply IH].
  constructor; [|now apply IH].
  intros Hin. apply Hx.
  apply list_elem_of_In, in_map_iff in Hin as (y & Hy & Hin).
  apply filter_In in Hin as [Hin _].
  apply list_elem_of_In, in_map_iff. now exists y.
Qed.

(** X14: when the shuffle keeps the length of the array and
    [1 <= k <= data.length] with at least one metric, the clusters
    returned partition the pool: listing their members gives every player
    of [data] exactly once; there are at most [k] clusters and their
    identifiers are distinct. *)
Theorem kMeansClustering_partition (data : list PlayerData)
    (config : ClusterConfig) :
  (forall (A : Type) (l : list A), length (shuffle A l) = length l) ->
  (1 <= config.(k) <= Z.of_nat (length data))%Z ->
  config.(metrics) <> [] ->
  let clusters := kMeansClustering generateClusterLabel data config in
  concat (List.map players clusters) ≡ₚ data
  /\ (Z.of_nat (length clusters) <= config.(k))%Z
  /\ NoDup (List.map clusterId clusters).
Proof.
  intros Hshuffle Hk Hmetrics. cbv zeta. unfold kMeansClustering.
  rewrite (proj2 (Z.ltb_ge _ _)) by lia.
  rewrite bool_decide_eq_false_2
    by (destruct (metrics config); [contradiction | discriminate]).
  cbn [orb].
  set (bounds := buildBounds data (metrics config)).
  set (vectors := buildVectors data (metrics config) bounds).
  assert (Hvectors : List.map player vectors = data).
  { unfold vectors, buildVectors. rewrite map_map. simpl. apply map_id. }
  assert (Hlenv : length vectors = length data)
    by (unfold vectors, buildVectors; apply length_map).
  set (initial := List.map vector (slice0 (k config) (shuffle _ vectors))).
  assert (Hinit : length initial = Z.to_nat (k config)).
  { unfold initial, slice0. rewrite length_map.
    rewrite (proj2 (Z.ltb_ge _ _)) by lia.
    rewrite length_take, Hshuffle, Hlenv. lia. }
  assert (Hne : initial <> []).
  { intros Hnil. rewrite Hnil in Hinit. simpl in Hinit. lia. }
  destruct (iterate_invariant (Z.to_nat (maxIterations config)) vectors initial
              (replicate (length vectors) 0%nat) Hne)
    as (Hc & Ha & Hb).
  { apply length_replicate. }
  { apply Forall_replicate. rewrite Hinit. lia. }
  fold bounds vectors initial in Hc, Ha, Hb.
  change (runLoop data config)
    with (iterate (Z.to_nat (maxIterations config)) vectors initial
            (replicate (length vectors) 0%nat)).
  set (final := iterate _ vectors initial _) in *.
  set (results := imap _ (final_centroids final)).
  assert (Hids : List.map clusterId results
                 = seq 0 (length (final_centroids final))).
  { unfold results. rewrite (map_imap_seq _ clusterId (fun i => i));
      [apply map_id | reflexivity]. }
  assert (Hplayers : List.map players results
                     = List.map (fun idx =>
                                   List.map player
                                     (members vectors (final_assignments final)
                                        idx))
                                (seq 0 (length (final_centroids final)))).
  { unfold results. now apply map_imap_seq. }
  assert (Hsizes : Forall (fun r => size r = length (players r)) results).
  { apply Forall_forall. intros r Hr. unfold results in Hr.
    apply elem_of_lookup_imap in Hr as (i & c & -> & _). reflexivity. }
  split; [|split].
  - rewrite (concat_Permutation _ _
               (Permutation_map players (Array_sort_perm _ _))).
    rewrite concat_players_filter by exact Hsizes.
    rewrite Hplayers, <- map_map, <- concat_map, <- Hvectors.
    apply Permutation_map. unfold members, filteri.
    apply members_cover. intros j Hj. simpl.
    destruct (lookup_lt_is_Some_2 (final_assignments final) j
                ltac:(lia)) as [a Haj].
    exists a. split; [exact Haj|].
    rewrite Forall_forall in Hb. rewrite Hc. apply Hb.
    now apply list_elem_of_lookup_2 in Haj.
  - rewrite Array_sort_length.
    pose proof (filter_length (fun r => bool_decide (0 < size r)%nat) results)
      as Hfl.
    assert (Hlr : length results = Z.to_nat (k config)).
    { unfold results. now rewrite length_imap, Hc. }
    assert (Hle : (length (List.filter
                             (fun r => bool_decide (0 < size r)%nat) results)
                   <= length results)%nat).
    { rewrite <- Hfl. apply Nat.le_add_r. }
    rewrite Hlr in Hle. clear - Hle Hk. lia.
  - rewrite (Permutation_map clusterId (Array_sort_perm _ _)).
    apply NoDup_map_filter. rewrite Hids. apply NoDup_seq.
Qed.

End MoreAnalyticsProofs.

Section MoreAnalyticsExamples.
Import JS PlayerService Reference AnalyticsService.
#[local] Existing Instance sample_runtime.

Lemma kMeansClustering_partition_witness :
  let config := {| k := 2; maxIterations := 10;
                   metrics := ["Goals per 90"%string] |} in
  let data := [scorer (1 # 4); scorer (1 # 2); scorer 1] in
  let clusters := kMeansClustering (fun _ _ _ => ""%string) data config in
  (forall (A : Type) (l : list A), length (shuffle A l) = length l)
  /\ (1 <= config.(k) <= Z.of_nat (length data))%Z
  /\ concat (List.map players clusters) ≡ₚ data
  /\ (Z.of_nat (length clusters) <= config.(k))%Z.
Proof.
  cbv zeta.
  assert (Hshuffle : forall (A : Type) (l : list A),
            length (shuffle A l) = length l) by reflexivity.
  assert (Hk : (1 <= 2 <= Z.of_nat
                  (length [scorer (1 # 4); scorer (1 # 2); scorer 1]))%Z)
    by (simpl; lia).
  assert (Hmetrics : ["Goals per 90"%string] <> []) by discriminate.
  split; [exact Hshuffle |]. split; [exact Hk |].
  destruct (kMeansClustering_partition (fun _ _ _ => ""%string)
              [scorer (1 # 4); scorer (1 # 2); scorer 1]
              {| k := 2; maxIterations := 10;
                 metrics := ["Goals per 90"%string] |}
              Hshuffle Hk Hmetrics) as (Hperm & Hlen & _).
  split; [exact Hperm | exact Hlen].
Defined.

End MoreAnalyticsExamples.

(** * More on the data store *)

Section MoreDataStoreProofs.
Import JS PlayerService Reference DataStore.
Context `{Runtime} {ShotEvent : Type}.

#[local] Abbreviation act' := (action (ShotEvent := ShotEvent)).

(** A second read answers from the cache: same value, store untouched. *)
Lemma cached_twice {A} (read : Cache.t -> option A)
    (write : A -> Cache.t -> Cache.t) (compute : act' A)
    (st : Store ShotEvent) :
  (forall v c, read (write v c) = Some v) ->
  cached read write compute (cached read write compute st).2
  = cached read write compute st.
Proof.
  intros Hrw.
  destruct (read (computedCache st)) eqn:Hread.
  - rewrite (cached_hit read write compute st a Hread). simpl.
    apply cached_hit; exact Hread.
  - assert (Hfirst : cached read write compute st
        = ((compute st).1,
           {| state := (compute st).2.(state);
              computedCache := write (compute st).1
                                 (compute st).2.(computedCache) |})).
    { unfold cached. rewrite Hread. now destruct (compute st). }
    rewrite Hfirst. simpl. apply cached_hit. simpl. apply Hrw.
Qed.

(** X15: a cached getter called twice in a row answers the same the
    second time and leaves the store as the first call left it: the
    second call reads the cache. *)
Theorem getters_read_twice (st : Store ShotEvent) :
  getLeagues (getLeagues st).2 = getLeagues st
  /\ getTeams (getTeams st).2 = getTeams st
  /\ getPositions (getPositions st).2 = getPositions st
  /\ getNationalities (getNationalities st).2 = getNationalities st
  /\ getMetricKeys (getMetricKeys st).2 = getMetricKeys st
  /\ getMetricBounds (getMetricBounds st).2 = getMetricBounds st
  /\ getDatasetStats (getDatasetStats st).2 = getDatasetStats st.
Proof.
  repeat split; apply cached_twice; reflexivity.
Qed.

(** X16: whatever mutations and getter calls came before, the five
    getters that depend on the players only answer with the value
    computed from the players the store holds now. *)
Theorem player_getters_never_stale (st : Store ShotEvent) :
  reachable st ->
  let players := st.(state).(State.players) in
  (getLeagues st).1 = extractLeagues players
  /\ (getPositions st).1 = extractPositions players
  /\ (getNationalities st).1 = extractNationalities players
  /\ (getMetricKeys st).1 = extractNumericMetricKeys players
  /\ (getMetricBounds st).1 = calculateAllMetricBounds players.
Proof.
  intros Hreach.
  destruct (reachable_ok st Hreach) as (Hl & Hp & Hn & Hk & Hb).
  unfold getLeagues, getPositions, getNationalities, getMetricKeys,
    getMetricBounds, cached.
  simpl. repeat split.
  - destruct (Cache.leagues _) eqn:Hc; [now apply Hl | reflexivity].
  - destruct (Cache.positions _) eqn:Hc; [now apply Hp | reflexivity].
  - destruct (Cache.nationalities _) eqn:Hc; [now apply Hn | reflexivity].
  - destruct (Cache.metricKeys _) eqn:Hc; [now apply Hk | reflexivity].
  - destruct (Cache.metricBounds _) eqn:Hc; [now apply Hb | reflexivity].
Qed.



End MoreDataStoreProofs.

Section MoreDataStoreExamples.
Import JS PlayerService Reference DataStore.
#[local] Existing Instance sample_runtime.

Lemma player_getters_never_stale_witness :
  let st : Store unit :=
    setPlayers "2026-01-02" [forward "B" "Nice" 1]
      (getLeagues (setPlayers "2026-01-01" [forward "A" "Lyon" 1] initial)).2 in
  reachable st
  /\ (getLeagues st).1 = ["Ligue 1"%string]
  /\ (getMetricKeys st).1 = extractNumericMetricKeys [forward "B" "Nice" 1].
Proof.
  intros st.
  assert (Hreach : reachable st) by (repeat constructor).
  split; [exact Hreach |].
  destruct (player_getters_never_stale st Hreach) as (Hl & _ & _ & Hk & _).
  split; [rewrite Hl; reflexivity | exact Hk].
Defined.

End MoreDataStoreExamples.

(** * More on the player service: ranks, pages, sorting and queries *)

Section RankProofs.
Import JS PlayerService Reference.

Lemma indexOf_lower (x : Q) (l : list Q) : (-1 <= indexOf x l)%Z.
Proof.
  induction l as [|y l IH]; simpl; [lia |].
  destruct (Qeq_bool y x); [lia |].
  destruct (indexOf x l <? 0)%Z eqn:Hneg; lia.
Qed.

Lemma indexOf_absent (x : Q) (l : list Q) :
  (forall y, y ∈ l -> ~ y == x) -> indexOf x l = (-1)%Z.
Proof.
  induction l as [|y l IH]; intros Habsent; simpl; [reflexivity |].
  destruct (Qeq_bool y x) eqn:Heq.
  - apply Qeq_bool_iff in Heq. exfalso. apply (Habsent y); [left | exact Heq].
  - rewrite IH by (intros z Hz; apply Habsent; now right). reflexivity.
Qed.

Lemma beats_none (higherIsBetter : bool) (value : Q) (l : list Q) :
  Forall (fun x => beats higherIsBetter value x = false) l ->
  countBetter higherIsBetter value l = 0%nat.
Proof.
  unfold countBetter. induction 1 as [|x l Hx _ IH]; simpl; [reflexivity |].
  now rewrite Hx.
Qed.

(** In a list where no item beats an earlier one, the first position of a
    value is the number of items that beat it. *)
Lemma indexOf_sorted (higherIsBetter : bool) (value : Q) (l : list Q) :
  StronglySorted (fun a b => beats higherIsBetter a b = false) l ->
  (exists x, x ∈ l /\ x == value) ->
  indexOf value l = Z.of_nat (countBetter higherIsBetter value l).
Proof.
  induction 1 as [|y l Hsorted IH Hy]; intros (x & Hx & Hxv).
  - inversion Hx.
  - simpl. destruct (Qeq_bool y value) eqn:Heq.
    + apply Qeq_bool_iff in Heq.
      unfold countBetter. simpl.
      assert (Hself : beats higherIsBetter value y = false).
      { unfold beats. destruct higherIsBetter; apply Qltb_ge; lra. }
      rewrite Hself.
      fold (countBetter higherIsBetter value l).
      rewrite beats_none; [reflexivity |].
      eapply Forall_impl; [exact Hy |].
      intros z Hz. unfold beats in *.
      destruct higherIsBetter; apply Qltb_ge in Hz; apply Qltb_ge; lra.
    + assert (Hne : ~ y == value).
      { intros Hyv. apply Qeq_bool_iff in Hyv. congruence. }
      apply elem_of_cons in Hx as [-> | Hx]; [contradiction |].
      specialize (IH (ex_intro _ x (conj Hx Hxv))).
      rewrite IH.
      destruct (Z.of_nat (countBetter higherIsBetter value l) <? 0)%Z eqn:Hneg;
        [apply Z.ltb_lt in Hneg; lia |].
      rewrite Forall_forall in Hy. specialize (Hy x Hx).
      unfold countBetter. simpl.
      assert (Hbeats : beats higherIsBetter value y = true).
      { unfold beats in *.
        destruct higherIsBetter; apply Qltb_ge in Hy; apply Qltb_lt; lra. }
      rewrite Hbeats. simpl length. lia.
Qed.

Lemma rank_order_sorted (higherIsBetter : bool) (l : list Q) :
  StronglySorted (fun a b => beats higherIsBetter a b = false)
    (Array_sort (fun a b => Fin (if higherIsBetter then b - a else a - b)) l).
Proof.
  apply Sorted_StronglySorted.
  { intros a b c Hab Hbc. unfold beats in *.
    destruct higherIsBetter; apply Qltb_ge in Hab, Hbc; apply Qltb_ge; lra. }
  eapply Sorted_mono; [| apply Array_sort_sorted].
  - intros a b Hkeeps. unfold keeps_order in Hkeeps. unfold beats.
    apply Qle_bool_iff in Hkeeps.
    destruct higherIsBetter; apply Qltb_ge; lra.
  - intros a b Hab. unfold keeps_order in *.
    apply Qle_bool_iff. apply not_true_iff_false in Hab.
    rewrite Qle_bool_iff in Hab. destruct higherIsBetter; lra.
Qed.

(** X19: [calculateRank] of a value that occurs among [allValues] is one
    more than the number of values that beat it (strictly larger when
    higher is better, strictly smaller otherwise), ties sharing the best
    rank; a value that does not occur gets the last rank, the length of
    the list, however good it is. *)
Theorem calculateRank_spec (value : Q) (allValues : list Q)
    (higherIsBetter : bool) :
  ((exists x, x ∈ allValues /\ x == value) ->
   calculateRank value allValues higherIsBetter
   = (1 + Z.of_nat (countBetter higherIsBetter value allValues))%Z)
  /\ ((forall x, x ∈ allValues -> ~ x == value) ->
      calculateRank value allValues higherIsBetter
      = Z.of_nat (length allValues)).
Proof.
  unfold calculateRank.
  set (cmp := fun a b : Q => Fin (if higherIsBetter then b - a else a - b)).
  pose proof (Array_sort_perm cmp allValues) as Hperm.
  split.
  - intros (x & Hx & Hxv).
    rewrite (indexOf_sorted higherIsBetter).
    + assert (Hcount : countBetter higherIsBetter value (Array_sort cmp allValues)
                       = countBetter higherIsBetter value allValues).
      { unfold countBetter. now apply filter_length_perm. }
      rewrite Hcount.
      destruct (_ =? 0)%Z eqn:Hzero; [apply Z.eqb_eq in Hzero; lia | lia].
    + apply rank_order_sorted.
    + exists x. split; [now rewrite Hperm | exact Hxv].
  - intros Habsent. rewrite indexOf_absent.
    + simpl. now rewrite Array_sort_length.
    + intros y Hy. apply Habsent. now rewrite <- Hperm.
Qed.

End RankProofs.

Section PageProofs.
Import JS PlayerService Reference.

Lemma slice_forward {A} (start stop : Z) (l : list A) :
  (0 <= start <= stop)%Z ->
  slice start stop l
  = take (Z.to_nat (stop - start)) (drop (Z.to_nat start) l).
Proof.
  intros [Hstart Hstop]. unfold slice, slice_index.
  destruct (start <? 0)%Z eqn:Hs; [apply Z.ltb_lt in Hs; lia |].
  destruct (stop <? 0)%Z eqn:Ht; [apply Z.ltb_lt in Ht; lia |].
  destruct (Z.le_gt_cases (Z.of_nat (length l)) start) as [Hout | Hin].
  - rewrite !drop_ge by lia. now rewrite !take_nil.
  - rewrite (Z.min_l start) by lia.
    destruct (Z.le_gt_cases stop (Z.of_nat (length l))) as [Hfit | Hover].
    + now rewrite (Z.min_l stop) by lia.
    + rewrite (Z.min_r stop) by lia.
      rewrite !take_ge; [reflexivity | |]; rewrite length_drop; lia.
Qed.

Lemma concat_chunks {A} (size n : nat) (l : list A) :
  concat (List.map (fun i => take size (drop (i * size) l)) (seq 0 n))
  = take (n * size) l.
Proof.
  induction n as [|n IH].
  - reflexivity.
  - rewrite seq_S, List.map_app, concat_app, IH. simpl.
    rewrite app_nil_r, take_take_drop. f_equal. lia.
Qed.

Lemma ceiling_bounds (len size : Z) :
  (0 <= len)%Z -> (1 <= size)%Z ->
  let pages := Qceiling (inject_Z len / inject_Z size) in
  (0 <= pages)%Z /\ (len <= pages * size)%Z /\ ((pages - 1) * size < len)%Z.
Proof.
  intros Hlen Hsize pages.
  assert (Hs : 0 < inject_Z size).
  { change 0 with (inject_Z 0). rewrite <- Zlt_Qlt. lia. }
  assert (Hl : 0 <= inject_Z len).
  { change 0 with (inject_Z 0). rewrite <- Zle_Qle. lia. }
  pose proof (Qle_ceiling (inject_Z len / inject_Z size)) as Hup.
  pose proof (Qceiling_lt (inject_Z len / inject_Z size)) as Hlow.
  fold pages in Hup, Hlow.
  assert (Hquot : inject_Z len / inject_Z size * inject_Z size == inject_Z len)
    by (field; lra).
  assert (Hquot0 : 0 <= inject_Z len / inject_Z size).
  { apply Qle_shift_div_l; lra. }
  split; [| split].
  - rewrite Zle_Qle. change (inject_Z 0) with 0. lra.
  - rewrite Zle_Qle, inject_Z_mult, <- Hquot.
    apply Qmult_le_compat_r; lra.
  - rewrite Zlt_Qlt, inject_Z_mult, <- Hquot.
    apply Qmult_lt_compat_r; [lra | exact Hlow].
Qed.

(** X20: for a page size of at least 1, [paginatePlayers] cuts [data]
    into [totalPages] pages: the pages 1 to [totalPages] are non-empty,
    hold at most [pageSize] rows each, and put end to end give [data]
    back; every later page is empty; [total] is the length of [data]. *)
Theorem paginatePlayers_pages (data : list PlayerData) (size : Z) :
  (1 <= size)%Z ->
  let result (p : Z) :=
    paginatePlayers data
      {| PaginationOptions.page := p; PaginationOptions.pageSize := size |} in
  exists pages : nat,
    (forall p, (result p).(PaginatedResult.totalPages)
               = Fin (inject_Z (Z.of_nat pages))
               /\ (result p).(PaginatedResult.total) = length data)
    /\ concat (List.map (fun i => (result (Z.of_nat (S i))).(PaginatedResult.data))
                        (seq 0 pages))
       = data
    /\ (forall p, (1 <= p <= Z.of_nat pages)%Z ->
          (1 <= Z.of_nat (length (result p).(PaginatedResult.data)) <= size)%Z)
    /\ (forall p, (Z.of_nat pages < p)%Z ->
          (result p).(PaginatedResult.data) = []).
Proof.
  intros Hsize result.
  destruct (ceiling_bounds (Z.of_nat (length data)) size)
    as (Hpages & Hcover & Htight); [lia | exact Hsize |].
  set (pagesZ := Qceiling (inject_Z (Z.of_nat (length data)) / inject_Z size))
    in *.
  exists (Z.to_nat pagesZ).
  assert (Hpage : forall p, (1 <= p)%Z ->
            (result p).(PaginatedResult.data)
            = take (Z.to_nat size) (drop (Z.to_nat ((p - 1) * size)) data)).
  { intros p Hp. unfold result, paginatePlayers. simpl.
    rewrite slice_forward by nia. f_equal. lia. }
  split; [| split; [| split]].
  - intros p. split; [| reflexivity].
    unfold result, paginatePlayers. simpl.
    assert (Hnz : Qeq_bool (inject_Z size) 0 = false).
    { apply not_true_iff_false. rewrite Qeq_bool_iff.
      change 0 with (inject_Z 0). rewrite inject_Z_injective. lia. }
    rewrite Hnz. simpl. fold pagesZ. now rewrite Z2Nat.id.
  - transitivity
      (concat (List.map (fun i => take (Z.to_nat size)
                                    (drop (i * Z.to_nat size) data))
                        (seq 0 (Z.to_nat pagesZ)))).
    + f_equal. apply List.map_ext. intros i.
      rewrite Hpage by lia. do 2 f_equal. nia.
    + rewrite concat_chunks. apply take_ge. nia.
  - intros p Hp. rewrite Hpage by lia.
    rewrite length_take, length_drop. nia.
  - intros p Hp. rewrite Hpage by lia.
    rewrite drop_ge; [apply take_nil | nia].
Qed.

Lemma paginatePlayers_pages_witness :
  let data := [scorer 1; scorer 2; scorer 3] in
  let result (p : Z) :=
    paginatePlayers data
      {| PaginationOptions.page := p; PaginationOptions.pageSize := 2 |} in
  (1 <= 2)%Z
  /\ exists pages : nat,
       concat (List.map
                 (fun i => (result (Z.of_nat (S i))).(PaginatedResult.data))
                 (seq 0 pages))
       = data
       /\ forall p, (Z.of_nat pages < p)%Z ->
                    (result p).(PaginatedResult.data) = [].
Proof.
  cbv zeta.
  assert (Hsize : (1 <= 2)%Z) by lia.
  split; [exact Hsize |].
  destruct (paginatePlayers_pages [scorer 1; scorer 2; scorer 3] 2 Hsize)
    as (pages & _ & Hall & _ & Hlate).
  exists pages. split; [exact Hall | exact Hlate].
Defined.

End PageProofs.

Section SortProofs.
Import JS PlayerService Reference.
Context `{Locale}.

(** The sort needs its comparator to be total on the items only. *)
Lemma sort_insert_sorted_on {A} (P : A -> Prop) (cmp : A -> A -> number)
    (x : A) (l : list A) :
  (forall a b, P a -> P b ->
     keeps_order cmp a b = false -> keeps_order cmp b a = true) ->
  P x -> Forall P l ->
  Sorted (fun a b => keeps_order cmp a b = true) l ->
  Sorted (fun a b => keeps_order cmp a b = true) (sort_insert cmp x l).
Proof.
  intros Htotal Hx. induction l as [|y l IH]; intros HP Hs; simpl.
  - repeat constructor.
  - apply Forall_cons in HP as [Hy HP].
    destruct (keeps_order cmp x y) eqn:Hxy.
    + constructor; [exact Hs|]. constructor. exact Hxy.
    + apply Sorted_inv in Hs as [Hs Hhd].
      constructor; [now apply IH |].
      destruct l as [|z l]; simpl.
      * constructor. now apply Htotal.
      * destruct (keeps_order cmp x z).
        -- constructor. now apply Htotal.
        -- constructor. now apply HdRel_inv in Hhd.
Qed.

Lemma Array_sort_sorted_on {A} (P : A -> Prop) (cmp : A -> A -> number)
    (l : list A) :
  (forall a b, P a -> P b ->
     keeps_order cmp a b = false -> keeps_order cmp b a = true) ->
  Forall P l ->
  Sorted (fun a b => keeps_order cmp a b = true) (Array_sort cmp l).
Proof.
  intros Htotal. induction 1 as [|x l Hx HP IH]; simpl.
  - constructor.
  - apply (sort_insert_sorted_on P); try assumption.
    now apply Array_sort_Forall.
Qed.

(** X21: [sortPlayers] returns the rows of [data] rearranged; when every
    row holds a number under the sort field, they come in ascending order
    of that number for ['asc'] and in descending order for ['desc']. *)
Theorem sortPlayers_numeric (data : list PlayerData) (options : SortOptions.t) :
  sortPlayers data options ≡ₚ data
  /\ (Forall (fun p : PlayerData =>
                is_number (p !! options.(SortOptions.field)) = true) data ->
      StronglySorted (in_direction options) (sortPlayers data options)).
Proof.
  split; [apply Array_sort_perm |]. intros Hnumeric.
  apply Sorted_StronglySorted.
  { intros a b c. unfold in_direction.
    destruct (SortOptions.direction options); lra. }
  unfold sortPlayers.
  set (numeric := fun p : PlayerData =>
                    is_number (p !! SortOptions.field options) = true) in *.
  match goal with
  | |- Sorted _ (Array_sort ?comparator _) => set (cmp := comparator)
  end.
  assert (Horder : forall a b, numeric a -> numeric b ->
            (keeps_order cmp a b = true <-> in_direction options a b)).
  2: { eapply (Sorted_mono_Forall numeric).
       - intros a b Ha Hb Hab. apply (Horder a b Ha Hb). exact Hab.
       - now apply Array_sort_Forall.
       - apply (Array_sort_sorted_on numeric); [| exact Hnumeric].
         intros a b Ha Hb Hab.
         apply (Horder b a Hb Ha).
         apply not_true_iff_false in Hab.
         rewrite (Horder a b Ha Hb) in Hab.
         unfold in_direction in *.
         destruct (SortOptions.direction options); lra. }
  intros a b Ha Hb. unfold numeric, is_number in Ha, Hb.
  unfold keeps_order, cmp, in_direction, fieldNumber.
  destruct (a !! SortOptions.field options) as [[|x]|]; try discriminate.
  destruct (b !! SortOptions.field options) as [[|y]|]; try discriminate.
  destruct (SortOptions.direction options);
    rewrite Qle_bool_iff; split; intros; lra.
Qed.

End SortProofs.

Section SortExamples.
Import JS PlayerService Reference.
#[local] Existing Instance sample_locale.

Lemma sortPlayers_numeric_witness :
  let options := {| SortOptions.field := "Goals per 90";
                    SortOptions.direction := desc |} in
  let data := [scorer 1; scorer 3; scorer 2] in
  Forall (fun p : PlayerData =>
            is_number (p !! options.(SortOptions.field)) = true) data
  /\ StronglySorted (in_direction options) (sortPlayers data options).
Proof.
  cbv zeta.
  assert (Hnumeric :
            Forall (fun p : PlayerData =>
                      is_number (p !! "Goals per 90"%string) = true)
                   [scorer 1; scorer 3; scorer 2])
    by (repeat constructor).
  split; [exact Hnumeric |].
  exact (proj2 (sortPlayers_numeric [scorer 1; scorer 3; scorer 2]
                  {| SortOptions.field := "Goals per 90";
                     SortOptions.direction := desc |}) Hnumeric).
Defined.

End SortExamples.
Section QueryProofs.
Import JS PlayerService Reference.
Context `{Runtime} `{Locale}.

Lemma given_blank (criterion : option string) :
  blank criterion -> given criterion = None.
Proof. now intros [-> | ->]. Qed.

Lemma given_Some (criterion : option string) (text : string) :
  criterion = Some text -> text <> ""%string -> given criterion = Some text.
Proof.
  intros -> Hne. unfold given, truthy_string.
  destruct (String.eqb_spec text ""); [contradiction | reflexivity].
Qed.

Ltac pass_test Hkeep :=
  match type of Hkeep with
  | (if ?test then false else _) = true =>
      let Htest := fresh "Htest" in
      destruct test eqn:Htest; [discriminate Hkeep |]
  end.

(** X22: a row kept by [filterPlayers] is a row of [data] that meets
    each criterion given: its [Team] is the team asked for, the position
    asked for is one of its trimmed positions, and its age, market value
    and minutes (0 when the column holds no number) lie within the bounds
    given; criteria that are left out or empty, and the season ['All'],
    keep every row. *)
Theorem filterPlayers_sound (data : list PlayerData)
    (filters : PlayerFilters.t) :
  (forall player, player ∈ filterPlayers data filters ->
     player ∈ data
     /\ (forall team, filters.(PlayerFilters.team) = Some team ->
           team <> ""%string ->
           player !! "Team"%string = Some (VStr team))
     /\ (forall position, filters.(PlayerFilters.position) = Some position ->
           position <> ""%string ->
           position ∈ playerPositions player)
     /\ (forall bound, filters.(PlayerFilters.ageMin) = Some bound ->
           bound <= Number_or0 (player !! "Age"%string))
     /\ (forall bound, filters.(PlayerFilters.ageMax) = Some bound ->
           Number_or0 (player !! "Age"%string) <= bound)
     /\ (forall bound, filters.(PlayerFilters.marketValueMin) = Some bound ->
           bound <= Number_or0 (player !! "Market value"%string))
     /\ (forall bound, filters.(PlayerFilters.marketValueMax) = Some bound ->
           Number_or0 (player !! "Market value"%string) <= bound)
     /\ (forall bound, filters.(PlayerFilters.minutesMin) = Some bound ->
           bound <= Number_or0 (player !! "Minutes played"%string)))
  /\ (blank filters.(PlayerFilters.search) ->
      blank filters.(PlayerFilters.team) ->
      blank filters.(PlayerFilters.league) ->
      blank filters.(PlayerFilters.position) ->
      blank filters.(PlayerFilters.nationality) ->
      filters.(PlayerFilters.ageMin) = None ->
      filters.(PlayerFilters.ageMax) = None ->
      filters.(PlayerFilters.marketValueMin) = None ->
      filters.(PlayerFilters.marketValueMax) = None ->
      filters.(PlayerFilters.minutesMin) = None ->
      blank filters.(PlayerFilters.season)
      \/ filters.(PlayerFilters.season) = Some "All"%string ->
      filterPlayers data filters = data).
Proof.
  split.
  - intros player Hkept. unfold filterPlayers in Hkept.
    apply list_elem_of_In, filter_In in Hkept as [Hin Hkeep].
    apply list_elem_of_In in Hin.
    cbv zeta in Hkeep. repeat pass_test Hkeep.
    split; [exact Hin |].
    split; [| split; [| split; [| split; [| split; [| split]]]]].
    + intros team Hteam Hne.
      rewrite (given_Some _ team Hteam Hne) in Htest0.
      apply negb_false_iff in Htest0.
      destruct (player !! "Team"%string) as [[s|q]|]; try discriminate.
      simpl in Htest0. apply String.eqb_eq in Htest0. now subst.
    + intros position Hposition Hne.
      rewrite (given_Some _ position Hposition Hne) in Htest2.
      apply negb_false_iff, bool_decide_eq_true in Htest2. exact Htest2.
    + intros bound Hbound. rewrite Hbound in Htest4.
      now apply Qltb_ge in Htest4.
    + intros bound Hbound. rewrite Hbound in Htest5.
      now apply Qltb_ge in Htest5.
    + intros bound Hbound. rewrite Hbound in Htest6.
      now apply Qltb_ge in Htest6.
    + intros bound Hbound. rewrite Hbound in Htest7.
      now apply Qltb_ge in Htest7.
    + intros bound Hbound. rewrite Hbound in Htest8.
      now apply Qltb_ge in Htest8.
  - intros Hsearch Hteam Hleague Hposition Hnationality
      HageMin HageMax HvalueMin HvalueMax Hminutes Hseason.
    unfold filterPlayers.
    rewrite (given_blank _ Hsearch), (given_blank _ Hteam),
      (given_blank _ Hleague), (given_blank _ Hposition),
      (given_blank _ Hnationality), HageMin, HageMax, HvalueMin, HvalueMax,
      Hminutes.
    assert (Hpass : forall player : PlayerData,
              match given (PlayerFilters.season filters) with
              | Some season =>
                  negb (String.eqb season "All")
                  && negb (String_includes season
                             (default ""%string
                                (as_string (player !! "League"%string))))
              | None => false
              end = false).
    { intros player. destruct Hseason as [Hblank | Hall].
      - now rewrite (given_blank _ Hblank).
      - rewrite Hall. reflexivity. }
    induction data as [|player data IH]; [reflexivity |].
    simpl. rewrite Hpass. now rewrite IH.
Qed.

Lemma elem_of_slice {A} (start stop : Z) (l : list A) (x : A) :
  x ∈ slice start stop l -> x ∈ l.
Proof.
  unfold slice. intros Hx.
  eapply elem_of_sublist; [exact Hx |].
  etransitivity; [apply sublist_take | apply sublist_drop].
Qed.

(** X23: whatever the sort and the pagination, [queryPlayers] reports as
    [total] the number of rows that pass the filters (all of [data]
    without filters), and every row it returns is one of them; without
    pagination it returns all of them, as page 1 of 1. *)
Theorem queryPlayers_total (data : list PlayerData)
    (filters : option PlayerFilters.t) (sort : option SortOptions.t)
    (pagination : option PaginationOptions.t) :
  let matching :=
    match filters with
    | Some f => filterPlayers data f
    | None => data
    end in
  let result := queryPlayers data filters sort pagination in
  result.(PaginatedResult.total) = length matching
  /\ (forall player, player ∈ result.(PaginatedResult.data) ->
                     player ∈ matching)
  /\ (pagination = None ->
      result.(PaginatedResult.data) ≡ₚ matching
      /\ result.(PaginatedResult.page) = 1%Z
      /\ result.(PaginatedResult.totalPages) = Fin 1
      /\ result.(PaginatedResult.pageSize) = Z.of_nat (length matching)).
Proof.
  intros matching result. unfold result, queryPlayers. fold matching.
  set (sorted := match sort with
                 | Some s => sortPlayers matching s
                 | None => matching
                 end).
  assert (Hperm : sorted ≡ₚ matching).
  { unfold sorted. destruct sort; [apply Array_sort_perm | reflexivity]. }
  destruct pagination as [p|]; simpl.
  - split; [now rewrite Hperm |]. split; [| discriminate].
    intros player Hplayer. rewrite <- Hperm.
    eapply elem_of_slice, Hplayer.
  - split; [now rewrite Hperm |]. split.
    + intros player Hplayer. now rewrite <- Hperm.
    + intros _. rewrite Hperm. auto.
Qed.

End QueryProofs.
Section CohortProofs.
Import JS PlayerService Reference.

Lemma split_cons (sep : ascii) (s : string) :
  exists first rest, split sep s = first :: rest.
Proof.
  induction s as [|c s (first & rest & IH)]; simpl.
  - now exists EmptyString, [].
  - destruct (Ascii.eqb c sep); [now eexists _, _ |].
    rewrite IH. now eexists _, _.
Qed.

Lemma strict_eq_refl (v : option value) : strict_eq v v = true.
Proof.
  destruct v as [[s|q]|]; simpl.
  - apply String.eqb_refl.
  - apply Qeq_bool_iff. reflexivity.
  - reflexivity.
Qed.

(** X24: a cohort is made of rows of [data], in their order; a reference
    player that is a row of [data] belongs to its own cohort for the
    modes ['all'], ['team'] and ['league'], and for ['position'] exactly
    when its [Position] column holds a string. *)
Theorem createCohort_reference (data : list PlayerData)
    (referencePlayer : PlayerData) (mode : CohortMode) :
  referencePlayer ∈ data ->
  createCohort data referencePlayer mode `sublist_of` data
  /\ (mode <> by_position ->
      referencePlayer ∈ createCohort data referencePlayer mode)
  /\ (referencePlayer ∈ createCohort data referencePlayer by_position
      <-> exists pos, referencePlayer !! "Position"%string = Some (VStr pos)).
Proof.
  intros Hin.
  assert (Hfilter : forall f : PlayerData -> bool,
            List.filter f data `sublist_of` data).
  { intros f. induction data as [|p l IH]; simpl; [constructor |].
    assert (Hl : List.filter f l `sublist_of` l).
    { clear - l. induction l as [|q l IH]; simpl; [constructor |].
      destruct (f q); now constructor. }
    destruct (f p); now constructor. }
  split; [| split].
  - destruct mode; simpl; try apply Hfilter. reflexivity.
  - intros Hmode. destruct mode; simpl; try contradiction; try exact Hin.
    + apply list_elem_of_In, filter_In. split; [now apply list_elem_of_In |].
      apply strict_eq_refl.
    + apply list_elem_of_In, filter_In. split; [now apply list_elem_of_In |].
      apply strict_eq_refl.
  - simpl. rewrite list_elem_of_In, filter_In, <- list_elem_of_In.
    unfold playerPositions, as_string.
    destruct (referencePlayer !! "Position"%string) as [[pos|q]|]; simpl.
    + destruct (split_cons "," pos) as (first & rest & ->). simpl.
      rewrite bool_decide_eq_true_2 by left. simpl.
      split; [intros _; now exists pos | intros _; now split].
    + split; [intros [_ Hfalse]; discriminate | intros (pos & Hpos); discriminate].
    + split; [intros [_ Hfalse]; discriminate | intros (pos & Hpos); discriminate].
Qed.

Lemma createCohort_reference_witness :
  let data := [scorer 1; keeper] in
  keeper ∈ data
  /\ keeper ∈ createCohort data keeper by_team
  /\ keeper ∈ createCohort data keeper by_position.
Proof.
  cbv zeta.
  assert (Hin : keeper ∈ [scorer 1; keeper]) by (right; left).
  split; [exact Hin |].
  destruct (createCohort_reference [scorer 1; keeper] keeper by_team Hin)
    as (_ & Hteam & Hposition).
  split; [now apply Hteam |].
  apply Hposition. now exists "GK"%string.
Defined.

End CohortProofs.
Section AverageProofs.
Import JS PlayerService Reference.
Context `{Runtime}.

Lemma foldl_ext_Forall {A B} (P : B -> Prop) (f g : A -> B -> A)
    (l : list B) (a : A) :
  (forall acc x, P x -> f acc x = g acc x) ->
  Forall P l -> foldl f a l = foldl g a l.
Proof.
  intros Hext HP. revert a.
  induction HP as [|x l Hx _ IH]; intros a; simpl; [reflexivity |].
  rewrite Hext by exact Hx. apply IH.
Qed.

(** A metric key is a column that holds a number in the first row. *)
Lemma metric_keys_numeric (sample : PlayerData) (rest : list PlayerData) :
  Forall (fun key => is_number (sample !! key) = true)
         (extractNumericMetricKeys (sample :: rest)).
Proof.
  apply Forall_forall. intros key Hkey. simpl in Hkey.
  apply elem_of_Array_sort, elem_of_List_filter in Hkey as [_ Hkey].
  now apply andb_true_iff in Hkey as [Hkey _]; apply andb_true_iff in Hkey as [Hkey _].
Qed.

Lemma group_average_lookup (players : list PlayerData) (key : string) :
  calculateGroupAverages players !! key
  = if decide (key ∈ extractNumericMetricKeys players)
    then Some (calculateMetricBounds players key).(mean)
    else None.
Proof.
  destruct players as [|sample rest].
  - rewrite decide_False by apply not_elem_of_nil. apply lookup_empty.
  - unfold calculateGroupAverages.
    rewrite (foldl_ext_Forall
               (fun key => is_number (sample !! key) = true) _
               (fun averages key =>
                  <[key := (calculateMetricBounds (sample :: rest) key).(mean)]>
                    averages)).
    + rewrite (foldl_insert_lookup
                 (fun key => (calculateMetricBounds (sample :: rest) key).(mean))).
      destruct (decide _); [reflexivity | apply lookup_empty].
    + intros averages metric Hnumeric.
      rewrite calculateMetricBounds_unfold. unfold usableValues.
      change (omap (fun p : PlayerData => Number (p !! metric)) (sample :: rest))
        with (match Number (sample !! metric) with
              | Some q => q :: omap (fun p : PlayerData => Number (p !! metric)) rest
              | None => omap (fun p : PlayerData => Number (p !! metric)) rest
              end).
      unfold is_number in Hnumeric.
      destruct (sample !! metric) as [[s|q]|]; try discriminate.
      reflexivity.
    + apply metric_keys_numeric.
Qed.


End AverageProofs.

(** * More on the analytics service: percentile analysis *)

Section PercentileProofs.
Import JS PlayerService Reference AnalyticsService.
Context `{Runtime}.

(** In a list in descending order, the first position of a value at most
    [x] is the number of values above [x], if there is such a value. *)
Lemma findIndex_sorted (x : Q) (l : list Q) :
  StronglySorted (fun a b => beats true a b = false) l ->
  findIndex (fun v => Qle_bool v x) l
  = if (countBetter true x l =? length l)%nat then (-1)%Z
    else Z.of_nat (countBetter true x l).
Proof.
  induction 1 as [|y l Hsorted IH Hy]; [reflexivity |].
  unfold countBetter in *. simpl.
  change (Qltb x y) with (negb (Qle_bool y x)).
  destruct (Qle_bool y x) eqn:Hyx; simpl.
  - fold (countBetter true x l). rewrite beats_none; [reflexivity |].
    apply Qle_bool_iff in Hyx.
    eapply Forall_impl; [exact Hy |].
    intros z Hz. simpl in *. apply Qltb_ge in Hz. apply Qltb_ge. lra.
  - rewrite IH.
    destruct (length (List.filter (beats true x) l) =? length l)%nat eqn:Hall;
      [reflexivity |].
    destruct (Z.of_nat _ <? 0)%Z eqn:Hneg; [apply Z.ltb_lt in Hneg; lia | lia].
Qed.

Lemma countBetter_le (x : Q) (l : list Q) :
  (countBetter true x l <= length l)%nat.
Proof.
  unfold countBetter. induction l as [|y l IH]; [reflexivity |].
  cbn [List.filter]. destruct (beats true x y); cbn [length]; lia.
Qed.

(** X26: [analyzePlayerPercentiles] returns one analysis for each metric
    with at least one usable cohort value, in descending order of
    percentile; in each, the percentile lies in [0, 100], [cohortSize]
    counts the usable values, and [rank] is one more than the number of
    cohort values strictly above the player's, except that it is
    [cohortSize] when they all are: it always lies between 1 and
    [cohortSize]. *)
Theorem analyzePlayerPercentiles_spec (player : PlayerData)
    (cohort : list PlayerData) (metricKeys : option (list string)) :
  let analyses := analyzePlayerPercentiles player cohort metricKeys in
  StronglySorted
    (fun a b => (b.(PercentileAnalysis.percentile)
                 <= a.(PercentileAnalysis.percentile))%Z)
    analyses
  /\ forall a, a ∈ analyses ->
       let values := usableValues cohort a.(PercentileAnalysis.metric) in
       a.(PercentileAnalysis.metric)
         ∈ default (extractNumericMetricKeys cohort) metricKeys
       /\ values <> []
       /\ a.(PercentileAnalysis.value)
          = Number_or0 (player !! a.(PercentileAnalysis.metric))
       /\ a.(PercentileAnalysis.cohortSize) = length values
       /\ (0 <= a.(PercentileAnalysis.percentile) <= 100)%Z
       /\ a.(PercentileAnalysis.rank)
          = Z.min (1 + Z.of_nat (countBetter true a.(PercentileAnalysis.value)
                                             values))
                  (Z.of_nat (length values))
       /\ (1 <= a.(PercentileAnalysis.rank)
           <= Z.of_nat a.(PercentileAnalysis.cohortSize))%Z.
Proof.
  intros analyses. split.
  - apply Sorted_StronglySorted; [intros a b c; lia |].
    eapply Sorted_mono; [| apply Array_sort_sorted].
    + intros a b Hab. unfold keeps_order in Hab.
      apply Qle_bool_iff in Hab. change 0 with (inject_Z 0) in Hab.
      rewrite <- Zle_Qle in Hab. lia.
    + intros a b Hab. unfold keeps_order in *.
      apply not_true_iff_false in Hab. rewrite Qle_bool_iff in Hab.
      apply Qle_bool_iff. change 0 with (inject_Z 0) in *.
      rewrite <- Zle_Qle in *. lia.
  - intros a Ha. unfold analyses, analyzePlayerPercentiles in Ha.
    apply elem_of_Array_sort, list_elem_of_omap in Ha
      as (metric & Hmetric & Ha).
    fold (usableValues cohort metric) in Ha.
    set (playerValue := Number_or0 (player !! metric)) in Ha.
    remember (calculatePercentile playerValue (usableValues cohort metric))
      as pct eqn:Hpct.
    remember (findIndex (fun v => Qle_bool v playerValue)
                (Array_sort (fun a b => Fin (b - a))
                            (usableValues cohort metric)))
      as found eqn:Hfound.
    remember (length (usableValues cohort metric)) as size eqn:Hsize.
    assert (Hne : usableValues cohort metric <> []).
    { intros Hnil. rewrite Hnil in Ha. discriminate. }
    assert (Ha' : a = {| PercentileAnalysis.metric := metric;
                         PercentileAnalysis.value := playerValue;
                         PercentileAnalysis.percentile := pct;
                         PercentileAnalysis.zScore :=
                           toFixed 2 (calculateZScore playerValue
                                        (calculateMetricBounds cohort metric));
                         PercentileAnalysis.cohortMean :=
                           toFixed 2 (calculateMetricBounds cohort metric).(mean);
                         PercentileAnalysis.cohortStdDev :=
                           toFixed 2 (calculateMetricBounds cohort metric).(stdDev);
                         PercentileAnalysis.cohortSize := size;
                         PercentileAnalysis.rank :=
                           if (found + 1 =? 0)%Z then Z.of_nat size
                           else (found + 1)%Z |}).
    { destruct (usableValues cohort metric); [contradiction |].
      now injection Ha as <-. }
    clear Ha. subst a.
    cbn [PercentileAnalysis.metric PercentileAnalysis.value
      PercentileAnalysis.percentile PercentileAnalysis.cohortSize
      PercentileAnalysis.rank].
    cbv zeta. fold playerValue.
    set (values := usableValues cohort metric) in *.
    pose proof (countBetter_le playerValue values) as Hle.
    assert (Hpositive : (0 < length values)%nat).
    { destruct values; [contradiction | simpl; lia]. }
    assert (Hrank :
              (if (found + 1 =? 0)%Z then Z.of_nat size else (found + 1)%Z)
              = Z.min (1 + Z.of_nat (countBetter true playerValue values))
                      (Z.of_nat (length values))).
    { rewrite Hfound, Hsize.
      rewrite findIndex_sorted by apply (rank_order_sorted true).
      assert (Hcount : countBetter true playerValue
                         (Array_sort (fun a b => Fin (b - a)) values)
                       = countBetter true playerValue values).
      { unfold countBetter. apply filter_length_perm, Array_sort_perm. }
      rewrite Hcount, Array_sort_length.
      destruct (_ =? _)%nat eqn:Hall.
      - apply Nat.eqb_eq in Hall. simpl (-1 + 1 =? 0)%Z. cbv iota. lia.
      - apply Nat.eqb_neq in Hall.
        destruct (_ =? 0)%Z eqn:Hzero; [apply Z.eqb_eq in Hzero; lia | lia]. }
    split; [exact Hmetric |]. split; [exact Hne |].
    split; [reflexivity |]. split; [exact Hsize |].
    split; [rewrite Hpct, calculatePercentile_counts by exact Hne; lia |].
    split; [exact Hrank |].
    rewrite Hrank, Hsize. lia.
Qed.

End PercentileProofs.
Section ProfileProofs.
Import JS PlayerService Reference AnalyticsService.
Context `{Runtime}.

Lemma foldl_triple {A B C K} (f : A -> K -> A) (g : B -> K -> B)
    (h : C -> K -> C) (l : list K) (a : A) (b : B) (c : C) :
  foldl (fun '(x, y, z) key => (f x key, g y key, h z key)) (a, b, c) l
  = (foldl f a l, foldl g b l, foldl h c l).
Proof.
  revert a b c. induction l as [|key l IH]; intros a b c; simpl;
    [reflexivity | apply IH].
Qed.

Lemma foldl_insert_dom {V} (f : string -> V) (keys : list string)
    (key : string) :
  key ∈ keys
  <-> is_Some (foldl (fun acc k => <[k := f k]> acc) (∅ : gmap string V) keys
               !! key).
Proof.
  rewrite foldl_insert_lookup.
  destruct (decide _) as [Hin | Hout].
  - split; [intros _; eauto | intros _; exact Hin].
  - rewrite lookup_empty. split; [contradiction | intros [? ?]; discriminate].
Qed.

(** X27: the profile of [generatePercentileProfile] agrees with the
    player service: its percentiles are those of
    [calculatePlayerPercentiles] for the metric keys of the cohort, each
    in [0, 100], and its averages are the group averages of the cohort
    rounded to two decimals; the three tables have an entry for the same
    keys, the metric keys of the cohort. *)
Theorem generatePercentileProfile_agrees (player : PlayerData)
    (cohort : list PlayerData) :
  let profile := generatePercentileProfile player cohort in
  profile.(PlayerPercentileProfile.percentiles)
  = calculatePlayerPercentiles player cohort None
  /\ (forall key,
        profile.(PlayerPercentileProfile.averages) !! key
        = toFixed 2 <$> calculateGroupAverages cohort !! key)
  /\ (forall key,
        (key ∈ extractNumericMetricKeys cohort
         <-> is_Some (profile.(PlayerPercentileProfile.percentiles) !! key))
        /\ (key ∈ extractNumericMetricKeys cohort
            <-> is_Some (profile.(PlayerPercentileProfile.zScores) !! key))
        /\ (key ∈ extractNumericMetricKeys cohort
            <-> is_Some (profile.(PlayerPercentileProfile.averages) !! key)))
  /\ (forall key pct,
        profile.(PlayerPercentileProfile.percentiles) !! key = Some pct ->
        (0 <= pct <= 100)%Z).
Proof.
  intros profile. unfold profile, generatePercentileProfile.
  rewrite foldl_triple.
  cbn [PlayerPercentileProfile.percentiles PlayerPercentileProfile.zScores
       PlayerPercentileProfile.averages].
  split; [reflexivity |]. split; [| split].
  - intros key.
    rewrite (foldl_insert_lookup
               (fun key => toFixed 2 (calculateAllMetricBounds cohort !!! key).(mean))).
    rewrite group_average_lookup.
    destruct (decide _) as [Hin | Hout]; [| now rewrite lookup_empty].
    simpl. do 3 f_equal. unfold calculateAllMetricBounds.
    rewrite lookup_total_alt.
    rewrite (foldl_insert_lookup (calculateMetricBounds cohort)).
    now rewrite decide_True by exact Hin.
  - intros key. split; [| split].
    + apply (foldl_insert_dom (fun key =>
                       calculatePercentile (Number_or0 (player !! key))
                         (List.map (fun p : PlayerData => Number_or0 (p !! key))
                                   cohort))).
    + apply (foldl_insert_dom (fun key =>
                       toFixed 2 (calculateZScore (Number_or0 (player !! key))
                                    (calculateAllMetricBounds cohort !!! key)))).
    + apply (foldl_insert_dom (fun key =>
                       toFixed 2 (calculateAllMetricBounds cohort !!! key).(mean))).
  - intros key pct.
    rewrite (foldl_insert_lookup
               (fun key =>
                  calculatePercentile (Number_or0 (player !! key))
                    (List.map (fun p : PlayerData => Number_or0 (p !! key))
                              cohort))).
    destruct (decide _); [| now rewrite lookup_empty].
    intros [= <-].
    destruct cohort as [|p rest]; [simpl; lia |].
    rewrite calculatePercentile_counts by discriminate. lia.
Qed.

End ProfileProofs.

(** * More on role scoring: maximum scores and rankings *)

Section RankingProofs.
Import JS PlayerService ScoringUtils Reference.
Context `{Runtime}.
Variable ROLE_DEFINITIONS : gmap string RoleDefinition.

(** The running maximum of the loop of [calculateMaxScores]. *)
Lemma running_max {A} (f : A -> Q) (l : list A) (start : Q) :
  let final := foldl (fun max x => if Qltb max (f x) then f x else max)
                     start l in
  start <= final
  /\ (forall x, x ∈ l -> f x <= final)
  /\ (final = start \/ exists x, x ∈ l /\ final = f x).
Proof.
  revert start. induction l as [|y l IH]; intros start; simpl.
  - split; [lra |]. split; [intros x Hx; inversion Hx | now left].
  - destruct (Qltb start (f y)) eqn:Hlt.
    + apply Qltb_lt in Hlt.
      destruct (IH (f y)) as (Hge & Hall & Hattained).
      split; [lra |]. split.
      * intros x Hx. apply elem_of_cons in Hx as [-> | Hx];
          [exact Hge | now apply Hall].
      * right. destruct Hattained as [-> | (x & Hx & ->)].
        -- exists y. split; [left | reflexivity].
        -- exists x. split; [now right | reflexivity].
    + apply Qltb_ge in Hlt.
      destruct (IH start) as (Hge & Hall & Hattained).
      split; [exact Hge |]. split.
      * intros x Hx. apply elem_of_cons in Hx as [-> | Hx];
          [lra | now apply Hall].
      * destruct Hattained as [Hstart | (x & Hx & Hfx)]; [now left |].
        right. exists x. split; [now right | exact Hfx].
Qed.

(** X28: [calculateMaxScores] has an entry exactly for the roles of the
    table; the entry is positive, no player of [data] has a larger score
    for the role, and it is the score of one of them unless none has a
    positive score, when it is 1. *)
Theorem calculateMaxScores_spec (data : list PlayerData) (role : string) :
  let score (player : PlayerData) :=
    calculateRoleScore ROLE_DEFINITIONS player role false None in
  match ROLE_DEFINITIONS !! role with
  | None => calculateMaxScores ROLE_DEFINITIONS data !! role = None
  | Some _ =>
      exists highest,
        calculateMaxScores ROLE_DEFINITIONS data !! role = Some highest
        /\ 0 < highest
        /\ (forall player, player ∈ data -> score player <= highest)
        /\ ((highest = 1 /\ forall player, player ∈ data -> score player <= 0)
            \/ exists player, player ∈ data /\ highest = score player)
  end.
Proof.
  intros score. unfold calculateMaxScores. rewrite map_lookup_imap.
  destruct (ROLE_DEFINITIONS !! role) as [definition|]; [| reflexivity].
  simpl. fold score.
  destruct (running_max score data 0) as (Hge & Hall & Hattained).
  cbv zeta in Hge, Hall, Hattained.
  set (final := foldl _ 0 data) in *.
  eexists. split; [reflexivity |].
  destruct (Qltb 0 final) eqn:Hpositive.
  - apply Qltb_lt in Hpositive.
    split; [exact Hpositive |]. split; [exact Hall |].
    right. destruct Hattained as [Hzero | Hattained]; [| exact Hattained].
    rewrite Hzero in Hpositive. lra.
  - apply Qltb_ge in Hpositive.
    split; [reflexivity |]. split.
    + intros player Hplayer. specialize (Hall player Hplayer). lra.
    + left. split; [reflexivity |].
      intros player Hplayer. specialize (Hall player Hplayer). lra.
Qed.

(** X29: for a role of the table, [rankPlayersForRole] returns the
    players of [data] that have one of the role's positions, each with
    its score in the added column [roleScore], in descending order of that
    score; all of them when no limit or the limit 0 is given, and at most
    [limit] of them for a positive limit. *)
Theorem rankPlayersForRole_spec (data : list PlayerData) (role : string)
    (limit : option Z) (definition : RoleDefinition) :
  ROLE_DEFINITIONS !! role = Some definition ->
  let ranking := rankPlayersForRole ROLE_DEFINITIONS data role limit in
  StronglySorted (fun a b => roleScore b <= roleScore a) ranking
  /\ (forall scored, scored ∈ ranking ->
        exists player,
          player ∈ data
          /\ (exists pos, pos ∈ definition.(positions)
                          /\ pos ∈ playerPositions player)
          /\ scored
             = <["roleScore"%string := VNum (roleScore scored)]> player)
  /\ (limit = None \/ limit = Some 0%Z ->
      length ranking
      = length (filterPlayersByRole ROLE_DEFINITIONS data role))
  /\ (forall n, limit = Some n -> (0 < n)%Z ->
        (Z.of_nat (length ranking) <= n)%Z).
Proof.
  intros Hrole ranking. unfold ranking, rankPlayersForRole.
  rewrite Hrole.
  cbv zeta.
  set (compatiblePlayers := filterPlayersByRole ROLE_DEFINITIONS data role).
  set (scored := List.map _ compatiblePlayers).
  set (sorted := Array_sort _ scored).
  assert (Hsorted : StronglySorted (fun a b => roleScore b <= roleScore a)
                      sorted).
  { apply Sorted_StronglySorted; [intros a b c; lra |].
    eapply Sorted_mono; [| apply Array_sort_sorted].
    - intros a b Hab. unfold keeps_order in Hab.
      apply Qle_bool_iff in Hab. lra.
    - intros a b Hab. unfold keeps_order in *.
      apply not_true_iff_false in Hab. rewrite Qle_bool_iff in Hab.
      apply Qle_bool_iff. lra. }
  assert (Hmembers : forall row, row ∈ sorted ->
            exists player,
              player ∈ data
              /\ (exists pos, pos ∈ definition.(positions)
                              /\ pos ∈ playerPositions player)
              /\ row = <["roleScore"%string := VNum (roleScore row)]> player).
  { intros row Hrow. unfold sorted, scored in Hrow.
    apply elem_of_Array_sort, list_elem_of_In, in_map_iff in Hrow
      as (player & <- & Hplayer).
    unfold compatiblePlayers, filterPlayersByRole in Hplayer.
    rewrite Hrole in Hplayer.
    apply filter_In in Hplayer as [Hplayer Hcompatible].
    exists player. split; [now apply list_elem_of_In |]. split.
    - apply existsb_exists in Hcompatible as (pos & Hpos & Hmatch).
      exists pos. split; [now apply list_elem_of_In |].
      now apply bool_decide_eq_true in Hmatch.
    - unfold roleScore. now rewrite lookup_insert_eq. }
  assert (Hlength : length sorted = length compatiblePlayers).
  { unfold sorted, scored. now rewrite Array_sort_length, length_map. }
  destruct limit as [n|].
  - destruct (n =? 0)%Z eqn:Hzero.
    + apply Z.eqb_eq in Hzero. subst n.
      split; [exact Hsorted |]. split; [exact Hmembers |].
      split; [intros _; exact Hlength | intros n [= <-] Hn; lia].
    + apply Z.eqb_neq in Hzero.
      split; [now apply StronglySorted_slice0 |]. split.
      * intros row Hrow. apply Hmembers. eapply elem_of_slice0, Hrow.
      * split.
        -- intros [Hnone | Hsome]; [discriminate |].
           injection Hsome as ->. contradiction.
        -- intros m [= <-] Hn. apply slice0_length. lia.
  - split; [exact Hsorted |]. split; [exact Hmembers |].
    split; [intros _; exact Hlength | intros n Hn; discriminate].
Qed.

End RankingProofs.

Section RankingExamples.
Import JS PlayerService ScoringUtils Reference.
#[local] Existing Instance sample_runtime.

Lemma rankPlayersForRole_spec_witness :
  let data := [scorer 1; keeper; scorer 3] in
  let ranking := rankPlayersForRole sample_roles data "Goals" None in
  sample_roles !! "Goals"%string = Some goals_role
  /\ StronglySorted (fun a b => roleScore b <= roleScore a) ranking
  /\ length ranking = 2%nat.
Proof.
  cbv zeta.
  assert (Hrole : sample_roles !! "Goals"%string = Some goals_role)
    by reflexivity.
  split; [exact Hrole |].
  destruct (rankPlayersForRole_spec sample_roles [scorer 1; keeper; scorer 3]
              "Goals" None goals_role Hrole) as (Hsorted & _ & Hall & _).
  split; [exact Hsorted |].
  rewrite Hall by now left. reflexivity.
Defined.

End RankingExamples.

(** * More on the similarity search: replacements *)

Section ReplacementProofs.
Import JS PlayerService Reference SimilarityService.
Context `{Runtime}.

Lemma Math_min_n_100 (x : number) : ltb (Fin 100) (Math_min_n (Fin 100) x) = false.
Proof.
  destruct x as [q| | |]; simpl; try reflexivity.
  apply Qltb_ge. apply Q.le_min_l.
Qed.

(** X30: when [findReplacements] returns (the primary position of the
    reference player does not name a member of [Object.prototype]), every
    replacement is a candidate of another team than the reference
    player's, shares a position with it, has played at least 900 minutes
    and is at most [maxAge] (28 by default) years old, a player of unknown
    age counting as 99; its replacement score does not exceed 100; and
    there are at most 50 replacements. *)
Theorem findReplacements_spec (referencePlayer : PlayerData)
    (candidates : list PlayerData) (options : ReplacementOptions)
    (replacements : list ReplacementResult) :
  findReplacements referencePlayer candidates options = Some replacements ->
  (forall r, r ∈ replacements ->
     r.(similarity).(player) ∈ candidates
     /\ strict_eq (r.(similarity).(player) !! "Team"%string)
                  (referencePlayer !! "Team"%string) = false
     /\ (exists position,
           position ∈ position_list referencePlayer
           /\ position ∈ position_list r.(similarity).(player))
     /\ 900 <= Number_or0 (r.(similarity).(player) !! "Minutes played"%string)
     /\ or_else (Number_or0 (r.(similarity).(player) !! "Age"%string)) 99
        <= default 28 options.(maxAge)
     /\ ltb (Fin 100) r.(replacementScore) = false)
  /\ (length replacements <= 50)%nat.
Proof.
  unfold findReplacements, findPositionSpecificSimilar.
  destruct (match POSITION_KEY_METRICS !! primaryPosition referencePlayer with
            | Some listed => Some listed
            | None => _
            end) as [keyMetrics|]; [| discriminate].
  cbn [mbind option_bind].
  intros [= <-]. split.
  - intros r Hr.
    apply elem_of_Array_sort, list_elem_of_In, in_map_iff in Hr
      as (s & <- & Hs).
    apply filter_In in Hs as [Hs Hkept]. apply list_elem_of_In in Hs.
    cbn [similarity replacementScore].
    destruct (findSimilarPlayers_origin _ _ _ _ Hs) as (Hin & _ & Hpass).
    cbn [samePositionOnly excludeSameTeam minMinutes default from_option id andb]
      in Hpass.
    repeat match type of Hpass with
           | (if ?test then false else _) = true =>
               destruct test eqn:?; [discriminate Hpass |]
           end.
    match goal with
    | Hnone : negb (existsb _ _) = false |- _ =>
        apply negb_false_iff in Hnone; rename Hnone into Hshared
    end.
    match goal with
    | Hlate : Qltb _ 900 = false |- _ =>
        apply Qltb_ge in Hlate; rename Hlate into Hminutes
    end.
    match goal with
    | Hother : strict_eq (player s !! "Team"%string) _ = false |- _ =>
        rename Hother into Hteam
    end.
    split; [exact Hin |]. split; [first [exact Hteam | reflexivity] |]. split.
    { apply existsb_exists in Hshared as (position & Hposition & Hmember).
      exists position. split; [now apply list_elem_of_In |].
      now apply bool_decide_eq_true in Hmember. }
    split; [exact Hminutes |]. split.
    + cbv zeta in Hkept.
      destruct (Qltb (default 28 (maxAge options)) _) eqn:Hage in Hkept;
        [discriminate |].
      now apply Qltb_ge in Hage.
    + apply Math_min_n_100.
  - rewrite Array_sort_length, length_map.
    etransitivity; [apply filter_length_le |].
    unfold findSimilarPlayers.
    match goal with
    | |- (length (slice0 _ ?l) <= 50)%nat =>
        pose proof (slice0_length 50 l ltac:(lia)) as Hbound;
        change (length (slice0 50 l) <= 50)%nat
    end.
    lia.
Qed.

End ReplacementProofs.

Section ReplacementExamples.
Import JS PlayerService Reference SimilarityService.
#[local] Existing Instance sample_runtime.

Lemma findReplacements_spec_witness :
  let referencePlayer := forward "A" "Lyon" 1 in
  let candidates :=
    [forward "B" "Nice" 1; forward "C" "Lyon" 2; forward "D" "Paris" 3] in
  let options := {| maxAge := None; maxMarketValue := None;
                    preferYounger := None; minSimilarityScore := Some 0 |} in
  exists replacements,
    findReplacements referencePlayer candidates options = Some replacements
    /\ (length replacements <= 50)%nat
    /\ forall r, r ∈ replacements ->
         strict_eq (r.(similarity).(player) !! "Team"%string)
                   (referencePlayer !! "Team"%string) = false.
Proof.
  cbv zeta.
  destruct (findReplacements (forward "A" "Lyon" 1)
              [forward "B" "Nice" 1; forward "C" "Lyon" 2;
               forward "D" "Paris" 3]
              {| maxAge := None; maxMarketValue := None;
                 preferYounger := None; minSimilarityScore := Some 0 |})
    as [replacements|] eqn:Hrun; [| vm_compute in Hrun; discriminate Hrun].
  exists replacements. split; [reflexivity |].
  destruct (findReplacements_spec _ _ _ _ Hrun) as [Heach Hcount].
  split; [exact Hcount |].
  intros r Hr. now destruct (Heach r Hr) as (_ & Hteam & _).
Defined.

End ReplacementExamples.
